(** * Variable objects (gdb/varobj.c): a shallow embedding and its properties

    The development follows gdb/varobj.c function by function.

    Representation choices, fixed once for the whole file:

    - A [struct type *], [struct value *], [struct block *] or
      [struct frame_info *] is owned by the debugger core, not by varobj.c.
      A type pointer is an address ([type_ptr]) into a type memory that the
      core supplies; values, blocks, frames and parsed expressions are
      records of the few attributes varobj.c reads.
    - Every call from varobj.c into the debugger core (parser, evaluator,
      frame cache, run-time type lookup, ...) is a field of the record
      [gdb_core]; all definitions are parameterised by such a record.
    - A variable object and the children it owns form a tree.  The
      [children] list of the C structure is the list of the owned child
      objects, in list order (most recently created first); the [parent]
      pointer of a child is the node holding it, and is passed explicitly
      to the functions that follow it.  A parent holds at most one child
      per index (varobj_list_children creates a child only when
      child_exists finds none), so [child_exists (v->parent, v->index)] is
      [v] itself.
    - Each object carries its own address ([addr]); pointer comparisons of
      the C code compare these addresses.
    - [error ()] is a non-local exit: functions that can reach it return an
      [outcome], together with the state at the point of exit. *)

From Stdlib Require Import ZArith List String Ascii Bool Lia.
From Stdlib Require Import DecimalString.
From Stdlib Require DecimalZ.
Import ListNotations.
Set Warnings "-register-all".
Local Open Scope string_scope.
Local Open Scope Z_scope.

(** ** Types of the debugged program (gdbtypes.h) *)

Definition ptr := Z.
Definition type_ptr := ptr.
Definition CORE_ADDR := Z.

Inductive type_code :=
| TYPE_CODE_UNDEF | TYPE_CODE_PTR | TYPE_CODE_ARRAY | TYPE_CODE_STRUCT
| TYPE_CODE_UNION | TYPE_CODE_ENUM | TYPE_CODE_FUNC | TYPE_CODE_INT
| TYPE_CODE_FLT | TYPE_CODE_VOID | TYPE_CODE_SET | TYPE_CODE_RANGE
| TYPE_CODE_STRING | TYPE_CODE_BITSTRING | TYPE_CODE_ERROR
| TYPE_CODE_MEMBER | TYPE_CODE_METHOD | TYPE_CODE_REF | TYPE_CODE_CHAR
| TYPE_CODE_BOOL | TYPE_CODE_COMPLEX | TYPE_CODE_TYPEDEF
| TYPE_CODE_TEMPLATE | TYPE_CODE_TEMPLATE_ARG | TYPE_CODE_NAMESPACE.

Inductive array_bound_type :=
| BOUND_SIMPLE | BOUND_BY_VALUE_IN_REG | BOUND_BY_REF_IN_REG
| BOUND_BY_VALUE_ON_STACK | BOUND_BY_REF_ON_STACK
| BOUND_CANNOT_BE_DETERMINED.

Definition array_bound_type_eqb (a b : array_bound_type) : bool :=
  match a, b with
  | BOUND_SIMPLE, BOUND_SIMPLE
  | BOUND_BY_VALUE_IN_REG, BOUND_BY_VALUE_IN_REG
  | BOUND_BY_REF_IN_REG, BOUND_BY_REF_IN_REG
  | BOUND_BY_VALUE_ON_STACK, BOUND_BY_VALUE_ON_STACK
  | BOUND_BY_REF_ON_STACK, BOUND_BY_REF_ON_STACK
  | BOUND_CANNOT_BE_DETERMINED, BOUND_CANNOT_BE_DETERMINED => true
  | _, _ => false
  end.

(** One entry of the field table of a struct, union or class type.  The
    access bits are what TYPE_FIELD_PRIVATE and TYPE_FIELD_PROTECTED read. *)
Record field := {
  field_name : string;
  field_type : type_ptr;
  field_private : bool;
  field_protected : bool
}.

(** The attributes of a [struct type] that varobj.c reads.  TYPE_NFIELDS is
    the length of the field table. *)
Record gdb_type := {
  code : type_code;
  length : Z;
  target_type : option type_ptr;
  fields : list field;
  n_baseclasses : Z;
  vptr_basetype : option type_ptr;
  vptr_fieldno : Z;
  upper_bound_type : array_bound_type
}.

Inductive varobj_languages := vlang_unknown | vlang_c | vlang_cplus | vlang_java.

Inductive language := language_unknown | language_c | language_cplus
| language_objc | language_objcplus | language_java | language_asm.

Inductive varobj_display_formats :=
| FORMAT_NATURAL | FORMAT_BINARY | FORMAT_DECIMAL | FORMAT_HEXADECIMAL
| FORMAT_OCTAL | FORMAT_UNSIGNED.

Inductive varobj_type :=
| USE_SPECIFIED_FRAME | USE_CURRENT_FRAME | USE_SELECTED_FRAME
| USE_BLOCK_IN_FRAME | NO_FRAME_NEEDED.

Inductive varobj_type_change :=
| VAROBJ_TYPE_UNCHANGED | VAROBJ_TYPE_CHANGED | VAROBJ_DYNAMIC_TYPE_CHANGED.

Definition type_unchanged (t : varobj_type_change) : bool :=
  match t with VAROBJ_TYPE_UNCHANGED => true | _ => false end.

(** ** Values, expressions, blocks, frames *)

Record value := {
  val_id : Z;
  VALUE_TYPE : type_ptr;
  VALUE_LAZY : bool
}.

Record expression := {
  exp_id : Z;
  (* exp->elts[0].opcode == OP_TYPE *)
  first_opcode_is_OP_TYPE : bool;
  (* exp->language_defn->la_language *)
  la_language : language
}.

Record block := {
  startaddr : CORE_ADDR;
  endaddr : CORE_ADDR
}.

Definition frame_id := Z.
Definition null_frame_id : frame_id := 0.
Definition frame_id_p (id : frame_id) : bool := negb (id =? 0).

Record frame_info := {
  fi_id : frame_id;               (* get_frame_id *)
  fi_pc : CORE_ADDR;              (* get_frame_pc *)
  fi_base : CORE_ADDR;            (* get_frame_base_address *)
  fi_block : option block         (* get_frame_block (fi, 0) *)
}.

(** get_frame_id of a possibly NULL frame. *)
Definition get_frame_id (fi : option frame_info) : frame_id :=
  match fi with
  | Some f => fi_id f
  | None => null_frame_id
  end.

(** ** The debugger core as seen from varobj.c *)

Record gdb_core := {
  (* type memory and gdbtypes.c *)
  type_at : type_ptr -> gdb_type;
  check_typedef : type_ptr -> type_ptr;
  lookup_pointer_type : type_ptr -> type_ptr;
  lookup_reference_type : type_ptr -> type_ptr;
  type_sprint : type_ptr -> string;
  (* settings: "set varobj-print-object", "set varobj-runs-all-threads" *)
  varobj_use_dynamic_type : bool;
  varobj_runs_all_threads : bool;
  (* wrapper.c: parser; the second function is the value the parser leaves
     in innermost_block, given the value it finds there *)
  parse_exp_1 : string -> option block -> option expression;
  parse_innermost_block : string -> option block -> option block -> option block;
  (* wrapper.c: evaluator, run against the selected frame; None is a caught
     error *)
  evaluate_expression : expression -> option frame_info -> option value;
  evaluate_type : expression -> option frame_info -> option value;
  gdb_value_fetch_lazy : value -> bool;
  gdb_value_equal : value -> value -> option bool;
  value_assign : value -> value -> option value;
  gdb_value_cast : type_ptr -> value -> option value;
  value_cast : type_ptr -> value -> option value;
  gdb_value_subscript : value -> Z -> option value;
  gdb_value_struct_elt : value -> string -> option value;
  gdb_value_ind : value -> option value;
  (* run-time type lookup; the outer None is a caught error *)
  value_rtti_target_type : value -> option (option type_ptr);
  safe_value_objc_target_type : value -> option block -> bool * option type_ptr;
  (* frame.c *)
  frame_chain : list frame_info;
  frame_find_by_id : frame_id -> option frame_info;
  reinit_frame_cache : option frame_info -> option frame_info
}.

(** ** The variable object tree *)

Inductive varobj : Type := Varobj {
  addr : ptr;
  name : option string;
  path_expr : option string;
  obj_name : option string;
  index : Z;
  type : option type_ptr;
  dynamic_type : option type_ptr;
  value_ : option value;
  error : Z;
  num_children : Z;
  children : list varobj;
  fake_child : bool;
  format : varobj_display_formats;
  updated : bool
}.

Record varobj_root := {
  root_addr : ptr;
  exp : option expression;
  valid_block : option block;
  frame : frame_id;
  use_selected_frame : bool;
  in_scope : bool;
  lang : option varobj_languages;
  rootvar : option ptr
}.

(** A [struct varobj *] obtained from new_root_variable: the object and the
    root description it points to. *)
Record root_var := {
  rv_root : varobj_root;
  rv_var : varobj
}.

(** enum vsections indexes the array int children[3]. *)
Inductive vsections := v_public_s | v_private_s | v_protected_s.

Record vsections_count := {
  v_public : Z;
  v_private : Z;
  v_protected : Z
}.

Definition set_v_public (k : vsections_count) (n : Z) : vsections_count :=
  {| v_public := n; v_private := v_private k; v_protected := v_protected k |}.
Definition set_v_private (k : vsections_count) (n : Z) : vsections_count :=
  {| v_public := v_public k; v_private := n; v_protected := v_protected k |}.
Definition set_v_protected (k : vsections_count) (n : Z) : vsections_count :=
  {| v_public := v_public k; v_private := v_private k; v_protected := n |}.

Definition CPLUS_FAKE_CHILD (x : option varobj) : bool :=
  match x with
  | Some v => fake_child v
  | None => false
  end.

Definition opt_ptr_eqb (a b : option ptr) : bool :=
  match a, b with
  | Some x, Some y => x =? y
  | None, None => true
  | _, _ => false
  end.

Definition is_root_p (r : varobj_root) (var : varobj) : bool :=
  opt_ptr_eqb (rootvar r) (Some (addr var)).

(** The value that an [unsigned] expression has once it is stored in an
    [int]: the same bit pattern, read as a two's complement number. *)
Definition int_of_unsigned (z : Z) : Z := (z + 2 ^ 31) mod 2 ^ 32 - 2 ^ 31.

Section TypeLayer.

Variable G : gdb_core.

Definition TYPE_CODE (t : type_ptr) : type_code := code (type_at G t).
(** The [length] of a type is an [unsigned]. *)
Definition TYPE_LENGTH (t : type_ptr) : Z := length (type_at G t).
Definition TYPE_TARGET_TYPE (t : type_ptr) : option type_ptr :=
  target_type (type_at G t).
Definition TYPE_NFIELDS (t : type_ptr) : Z :=
  Z.of_nat (List.length (fields (type_at G t))).
Definition TYPE_N_BASECLASSES (t : type_ptr) : Z := n_baseclasses (type_at G t).
Definition TYPE_VPTR_BASETYPE (t : type_ptr) : option type_ptr :=
  vptr_basetype (type_at G t).
Definition TYPE_VPTR_FIELDNO (t : type_ptr) : Z := vptr_fieldno (type_at G t).
Definition TYPE_ARRAY_UPPER_BOUND_TYPE (t : type_ptr) : array_bound_type :=
  upper_bound_type (type_at G t).

(** Entry [i] of the field table; None outside the table. *)
Definition TYPE_FIELD (t : type_ptr) (i : Z) : option field :=
  if i <? 0 then None else nth_error (fields (type_at G t)) (Z.to_nat i).

Definition TYPE_FIELD_NAME (t : type_ptr) (i : Z) : option string :=
  option_map field_name (TYPE_FIELD t i).
Definition TYPE_FIELD_TYPE (t : type_ptr) (i : Z) : option type_ptr :=
  option_map field_type (TYPE_FIELD t i).

(** TYPE_VPTR_BASETYPE (type) == type && TYPE_VPTR_FIELDNO (type) == i *)
Definition is_vptr_field (t : type_ptr) (i : Z) : bool :=
  opt_ptr_eqb (TYPE_VPTR_BASETYPE t) (Some t) && (TYPE_VPTR_FIELDNO t =? i).

Definition get_type (var : varobj) : option type_ptr :=
  let type0 :=
    match varobj_use_dynamic_type G, dynamic_type var with
    | true, Some d => Some d
    | _, _ => type var
    end in
  option_map (check_typedef G) type0.

Definition get_target_type (t : option type_ptr) : option type_ptr :=
  match t with
  | Some ty => option_map (check_typedef G) (TYPE_TARGET_TYPE ty)
  | None => None
  end.

(** Result and [*was_ptr]. *)
Definition get_type_deref (var : varobj) : option type_ptr * bool :=
  match get_type var with
  | Some ty =>
      match TYPE_CODE ty with
      | TYPE_CODE_PTR | TYPE_CODE_REF => (get_target_type (Some ty), true)
      | _ => (Some ty, false)
      end
  | None => (None, false)
  end.

Definition varobj_value_is_changeable_p (var : varobj) : bool :=
  if CPLUS_FAKE_CHILD (Some var) then false
  else
    match get_type var with
    | None => false
    | Some ty =>
        match TYPE_CODE ty with
        | TYPE_CODE_STRUCT | TYPE_CODE_UNION | TYPE_CODE_ARRAY => false
        | _ => true
        end
    end.

(** *** C *)

(** None: the C code reads through a NULL target type.  For an array the
    unsigned quotient of the two lengths is stored in [int children]. *)
Definition c_number_of_children (var : varobj) : option Z :=
  match get_type var with
  | None => Some (-1)
  | Some ty =>
      let target := get_target_type (Some ty) in
      match TYPE_CODE ty with
      | TYPE_CODE_ARRAY =>
          if 0 <? TYPE_LENGTH ty then
            match target with
            | None => None
            | Some tg =>
                if (0 <? TYPE_LENGTH tg)
                   && negb (array_bound_type_eqb (TYPE_ARRAY_UPPER_BOUND_TYPE ty)
                              BOUND_CANNOT_BE_DETERMINED)
                then Some (int_of_unsigned
                             (Z.quot (TYPE_LENGTH ty) (TYPE_LENGTH tg)))
                else Some (-1)
            end
          else Some (-1)
      | TYPE_CODE_STRUCT | TYPE_CODE_UNION => Some (TYPE_NFIELDS ty)
      | TYPE_CODE_PTR =>
          match target with
          | None => None
          | Some tg =>
              match TYPE_CODE tg with
              | TYPE_CODE_STRUCT | TYPE_CODE_UNION => Some (TYPE_NFIELDS tg)
              | TYPE_CODE_FUNC | TYPE_CODE_VOID => Some 0
              | _ => Some 1
              end
          end
      | _ => Some 0
      end
  end.

(** printf ("%d", index) *)
Definition string_of_int (z : Z) : string :=
  NilZero.string_of_int (Z.to_int z).

(** The outer None is a read through NULL or outside a field table. *)
Definition c_make_name_of_child (parent : varobj) (index : Z)
  : option (option string) :=
  match get_type parent with
  | None => None
  | Some ty =>
      let target := get_target_type (Some ty) in
      match TYPE_CODE ty with
      | TYPE_CODE_ARRAY => Some (Some (string_of_int index))
      | TYPE_CODE_STRUCT | TYPE_CODE_UNION =>
          option_map Some (TYPE_FIELD_NAME ty index)
      | TYPE_CODE_PTR =>
          match target with
          | None => None
          | Some tg =>
              match TYPE_CODE tg with
              | TYPE_CODE_STRUCT | TYPE_CODE_UNION =>
                  option_map Some (TYPE_FIELD_NAME tg index)
              | _ =>
                  match name parent with
                  | Some n => Some (Some ("*" ++ n)%string)
                  | None => None
                  end
              end
          end
      | _ => Some (Some "???")
      end
  end.

(** *** C++ *)

Definition TYPE_FIELD_PRIVATE_bit (f : field) : bool := field_private f.
Definition TYPE_FIELD_PROTECTED_bit (f : field) : bool := field_protected f.

(** The loop [for (i = TYPE_N_BASECLASSES (type); i < TYPE_NFIELDS (type); i++)]
    of cplus_class_num_children, run over the entries [i ..] of the field
    table. *)
Fixpoint class_num_children_loop (t : type_ptr) (l : list field) (i : Z)
    (children : vsections_count) : vsections_count :=
  match l with
  | [] => children
  | f :: l' =>
      let children' :=
        if is_vptr_field t i then children
        else if TYPE_FIELD_PROTECTED_bit f then
          set_v_protected children (v_protected children + 1)
        else if TYPE_FIELD_PRIVATE_bit f then
          set_v_private children (v_private children + 1)
        else set_v_public children (v_public children + 1) in
      class_num_children_loop t l' (i + 1) children'
  end.

Definition cplus_class_num_children (t : type_ptr) : vsections_count :=
  class_num_children_loop t
    (skipn (Z.to_nat (TYPE_N_BASECLASSES t)) (fields (type_at G t)))
    (TYPE_N_BASECLASSES t)
    {| v_public := 0; v_private := 0; v_protected := 0 |}.

(** [parent] is [var->parent].  None: a read through a NULL pointer. *)
Definition cplus_number_of_children (parent : option varobj) (var : varobj)
  : option Z :=
  if negb (CPLUS_FAKE_CHILD (Some var)) then
    match fst (get_type_deref var) with
    | None => Some (-1)
    | Some ty =>
        match TYPE_CODE ty with
        | TYPE_CODE_STRUCT | TYPE_CODE_UNION =>
            let kids := cplus_class_num_children ty in
            let children := 0 in
            let children := if negb (v_public kids =? 0) then children + 1 else children in
            let children := if negb (v_private kids =? 0) then children + 1 else children in
            let children := if negb (v_protected kids =? 0) then children + 1 else children in
            Some (children + TYPE_N_BASECLASSES ty)
        | _ => c_number_of_children var
        end
    end
  else
    match parent with
    | None => None
    | Some p =>
        match fst (get_type_deref p), name var with
        | Some ty, Some n =>
            let kids := cplus_class_num_children ty in
            if String.eqb n "public" then Some (v_public kids)
            else if String.eqb n "private" then Some (v_private kids)
            else Some (v_protected kids)
        | _, _ => None
        end
    end.

(** The loops [while (index >= 0) { ...; ++type_index; } --type_index;] of
    cplus_make_name_of_child, run over the entries [type_index ..] of the
    field table; [selected] is the access test of the branch.  None: the
    loop runs past the end of the table. *)
Fixpoint fake_child_type_index (t : type_ptr) (selected : field -> bool)
    (l : list field) (type_index index : Z) : option Z :=
  if index <? 0 then Some (type_index - 1)
  else
    match l with
    | [] => None
    | f :: l' =>
        let index' :=
          if is_vptr_field t type_index then index
          else if selected f then index - 1
          else index in
        fake_child_type_index t selected l' (type_index + 1) index'
    end.

(** [gparent] is [parent->parent].  The outer None is a read through NULL or
    outside a field table; the inner None is a NULL result. *)
Definition cplus_make_name_of_child (gparent : option varobj) (parent : varobj)
    (index : Z) : option (option string) :=
  let ty0 :=
    if CPLUS_FAKE_CHILD (Some parent) then
      match gparent with
      | Some gp => fst (get_type_deref gp)
      | None => None
      end
    else fst (get_type_deref parent) in
  match ty0 with
  | None => None
  | Some ty =>
      match TYPE_CODE ty with
      | TYPE_CODE_STRUCT | TYPE_CODE_UNION =>
          if CPLUS_FAKE_CHILD (Some parent) then
            match name parent with
            | None => None
            | Some pname =>
                let selected :=
                  if String.eqb pname "private" then TYPE_FIELD_PRIVATE_bit
                  else if String.eqb pname "protected" then TYPE_FIELD_PROTECTED_bit
                  else (fun f => negb (TYPE_FIELD_PRIVATE_bit f)
                                 && negb (TYPE_FIELD_PROTECTED_bit f)) in
                match fake_child_type_index ty selected
                        (skipn (Z.to_nat (TYPE_N_BASECLASSES ty))
                               (fields (type_at G ty)))
                        (TYPE_N_BASECLASSES ty) index with
                | None => None
                | Some type_index =>
                    option_map Some (TYPE_FIELD_NAME ty type_index)
                end
            end
          else if index <? TYPE_N_BASECLASSES ty then
            option_map Some (TYPE_FIELD_NAME ty index)
          else
            let children := cplus_class_num_children ty in
            let index := index - TYPE_N_BASECLASSES ty in
            if index =? 0 then
              if 0 <? v_public children then Some (Some "public")
              else if 0 <? v_private children then Some (Some "private")
              else Some (Some "protected")
            else if index =? 1 then
              if 0 <? v_public children then
                if 0 <? v_private children then Some (Some "private")
                else Some (Some "protected")
              else if 0 <? v_private children then Some (Some "protected")
              else Some None
            else if index =? 2 then Some (Some "protected")
            else Some None
      | _ => c_make_name_of_child parent index
      end
  end.

(** java_make_name_of_child: periods become dashes. *)
Definition escape_periods (s : string) : string :=
  string_of_list_ascii
    (map (fun c => if Ascii.eqb c "."%char then "-"%char else c)
         (list_ascii_of_string s)).

Definition java_number_of_children := cplus_number_of_children.

(** A NULL result of cplus_make_name_of_child is read through. *)
Definition java_make_name_of_child (gparent : option varobj) (parent : varobj)
    (index : Z) : option (option string) :=
  match cplus_make_name_of_child gparent parent index with
  | Some (Some n) => Some (Some (escape_periods n))
  | _ => None
  end.

(** *** Editability *)

Definition c_variable_editable (var : varobj) : option bool :=
  match get_type var with
  | None => None
  | Some ty =>
      match TYPE_CODE ty with
      | TYPE_CODE_STRUCT | TYPE_CODE_UNION | TYPE_CODE_ARRAY
      | TYPE_CODE_FUNC | TYPE_CODE_MEMBER | TYPE_CODE_METHOD => Some false
      | _ => Some true
      end
  end.

Definition cplus_variable_editable (var : varobj) : option bool :=
  if CPLUS_FAKE_CHILD (Some var) then Some false
  else c_variable_editable var.

Definition java_variable_editable := cplus_variable_editable.

(** *** Dispatch through var->root->lang; None when lang is NULL. *)

Definition number_of_children (r : varobj_root) (parent : option varobj)
    (var : varobj) : option Z :=
  match lang r with
  | None => None
  | Some (vlang_unknown | vlang_c) => c_number_of_children var
  | Some vlang_cplus => cplus_number_of_children parent var
  | Some vlang_java => java_number_of_children parent var
  end.

Definition make_name_of_child (r : varobj_root) (gparent : option varobj)
    (var : varobj) (index : Z) : option (option string) :=
  match lang r with
  | None => None
  | Some (vlang_unknown | vlang_c) => c_make_name_of_child var index
  | Some vlang_cplus => cplus_make_name_of_child gparent var index
  | Some vlang_java => java_make_name_of_child gparent var index
  end.

Definition variable_editable (r : varobj_root) (var : varobj) : option bool :=
  match lang r with
  | None => None
  | Some (vlang_unknown | vlang_c) => c_variable_editable var
  | Some vlang_cplus => cplus_variable_editable var
  | Some vlang_java => java_variable_editable var
  end.

Definition variable_language (r : varobj_root) : varobj_languages :=
  match exp r with
  | None => vlang_c
  | Some e =>
      match la_language e with
      | language_objcplus | language_cplus => vlang_cplus
      | language_java => vlang_java
      | _ => vlang_c
      end
  end.

(** *** The safe comparison *)

(** Result and [*error2]. *)
Definition my_value_equal (val1 val2 : option value) : Z * Z :=
  match val1, val2 with
  | None, None => (1, 0)
  | None, Some _ | Some _, None => (0, 0)
  | Some v1, Some v2 =>
      let err1 := match gdb_value_equal G v1 v1 with None => 1 | Some _ => 0 end in
      let err2 := match gdb_value_equal G v2 v2 with None => 1 | Some _ => 0 end in
      let error2 := err2 in
      if negb (err1 =? err2) then (0, error2)
      else
        match gdb_value_equal G v1 v2 with
        | None => if err1 =? err2 then (1, error2) else (0, error2)
        | Some r => ((if r then 1 else 0), error2)
        end
  end.

End TypeLayer.

(** ** Debugger state touched by varobj.c *)

Inductive scheduler_locking_mode :=
| scheduler_locking_off | scheduler_locking_on | scheduler_locking_step.

(** One cell of a hash chain.  [cv->var->obj_name] is fixed while the object
    is installed (it is written before install_variable only), so the cell
    carries it next to the pointer. *)
Record vlist := {
  vl_var : ptr;
  vl_obj_name : string
}.

(** One element of the list of roots linked through [next]: the root and
    its [rootvar] field. *)
Record root_cell := {
  rc_root : ptr;
  rc_rootvar : option ptr
}.

(** varobj_table, rootlist, rootcount. *)
Record registry := {
  varobj_table : Z -> list vlist;
  rootlist : list root_cell;
  rootcount : Z
}.

(** Calls that reach the parser, the evaluator or the inferior. *)
Inductive event :=
| EvParse (s : string) (b : option block)
| EvEvaluate (e : expression)
| EvEvaluateType (e : expression)
| EvAssign (old new : value).

Record session := {
  deprecated_selected_frame : option frame_info;
  scheduler_mode : scheduler_locking_mode;
  input_radix : Z;
  innermost_block : option block;
  next_addr : ptr;
  trace : list event
}.

Record gdb := {
  reg : registry;
  ses : session
}.

Definition set_reg (st : gdb) (rg : registry) : gdb :=
  {| reg := rg; ses := ses st |}.
Definition set_ses (st : gdb) (s : session) : gdb :=
  {| reg := reg st; ses := s |}.

Definition set_selected_frame (s : session) (fi : option frame_info) : session :=
  {| deprecated_selected_frame := fi; scheduler_mode := scheduler_mode s;
     input_radix := input_radix s; innermost_block := innermost_block s;
     next_addr := next_addr s; trace := trace s |}.
Definition set_scheduler_mode (s : session) (m : scheduler_locking_mode) : session :=
  {| deprecated_selected_frame := deprecated_selected_frame s; scheduler_mode := m;
     input_radix := input_radix s; innermost_block := innermost_block s;
     next_addr := next_addr s; trace := trace s |}.
Definition set_input_radix (s : session) (n : Z) : session :=
  {| deprecated_selected_frame := deprecated_selected_frame s;
     scheduler_mode := scheduler_mode s;
     input_radix := n; innermost_block := innermost_block s;
     next_addr := next_addr s; trace := trace s |}.
Definition set_innermost_block (s : session) (b : option block) : session :=
  {| deprecated_selected_frame := deprecated_selected_frame s;
     scheduler_mode := scheduler_mode s;
     input_radix := input_radix s; innermost_block := b;
     next_addr := next_addr s; trace := trace s |}.
Definition set_next_addr (s : session) (a : ptr) : session :=
  {| deprecated_selected_frame := deprecated_selected_frame s;
     scheduler_mode := scheduler_mode s;
     input_radix := input_radix s; innermost_block := innermost_block s;
     next_addr := a; trace := trace s |}.
Definition log_event (s : session) (e : event) : session :=
  {| deprecated_selected_frame := deprecated_selected_frame s;
     scheduler_mode := scheduler_mode s;
     input_radix := input_radix s; innermost_block := innermost_block s;
     next_addr := next_addr s; trace := (trace s ++ [e])%list |}.

(** *** Outcomes and the state monad *)

Inductive outcome (A : Type) :=
| Ret (a : A)            (* normal return *)
| Throw (msg : string)   (* error (): non-local exit *)
| Undefined.             (* read through a NULL pointer *)
Arguments Ret {A} a.
Arguments Throw {A} msg.
Arguments Undefined {A}.

Definition M (A : Type) := gdb -> outcome A * gdb.

Definition ret {A} (a : A) : M A := fun st => (Ret a, st).
Definition throw {A} (msg : string) : M A := fun st => (Throw msg, st).
Definition undefined {A} : M A := fun st => (Undefined, st).
Definition bind {A B} (c : M A) (k : A -> M B) : M B :=
  fun st =>
    match c st with
    | (Ret a, st') => k a st'
    | (Throw msg, st') => (Throw msg, st')
    | (Undefined, st') => (Undefined, st')
    end.
Definition get_ses : M session := fun st => (Ret (ses st), st).
Definition put_ses (s : session) : M unit := fun st => (Ret tt, set_ses st s).
Definition modify_ses (f : session -> session) : M unit :=
  fun st => (Ret tt, set_ses st (f (ses st))).
Definition get_reg : M registry := fun st => (Ret (reg st), st).
Definition put_reg (rg : registry) : M unit := fun st => (Ret tt, set_reg st rg).
(** Run [cleanup] when [c] leaves through error (), as the cleanup chain
    does; the normal exits call do_cleanups or discard_cleanups themselves. *)
Definition on_error {A} (c : M A) (cleanup : M unit) : M A :=
  fun st =>
    match c st with
    | (Throw msg, st') => (Throw msg, snd (cleanup st'))
    | r => r
    end.

Declare Scope gdb_scope.
Delimit Scope gdb_scope with gdb.
Notation "x <- c1 ;; c2" := (bind c1 (fun x => c2))
  (at level 61, c1 at next level, right associativity) : gdb_scope.
Notation "' pat <- c1 ;; c2" := (bind c1 (fun x => match x with pat => c2 end))
  (at level 61, pat pattern, c1 at next level, right associativity) : gdb_scope.
Notation "c1 ;; c2" := (bind c1 (fun _ => c2))
  (at level 61, right associativity) : gdb_scope.
Local Open Scope gdb_scope.

(** *** Field updates of [struct varobj] and [struct varobj_root] *)

Definition set_name (v : varobj) (x : option string) : varobj :=
  Varobj (addr v) x (path_expr v) (obj_name v) (index v) (type v)
    (dynamic_type v) (value_ v) (error v) (num_children v) (children v)
    (fake_child v) (format v) (updated v).
Definition set_path_expr (v : varobj) (x : option string) : varobj :=
  Varobj (addr v) (name v) x (obj_name v) (index v) (type v)
    (dynamic_type v) (value_ v) (error v) (num_children v) (children v)
    (fake_child v) (format v) (updated v).
Definition set_obj_name (v : varobj) (x : option string) : varobj :=
  Varobj (addr v) (name v) (path_expr v) x (index v) (type v)
    (dynamic_type v) (value_ v) (error v) (num_children v) (children v)
    (fake_child v) (format v) (updated v).
Definition set_type (v : varobj) (x : option type_ptr) : varobj :=
  Varobj (addr v) (name v) (path_expr v) (obj_name v) (index v) x
    (dynamic_type v) (value_ v) (error v) (num_children v) (children v)
    (fake_child v) (format v) (updated v).
Definition set_dynamic_type (v : varobj) (x : option type_ptr) : varobj :=
  Varobj (addr v) (name v) (path_expr v) (obj_name v) (index v) (type v)
    x (value_ v) (error v) (num_children v) (children v)
    (fake_child v) (format v) (updated v).
Definition set_value (v : varobj) (x : option value) : varobj :=
  Varobj (addr v) (name v) (path_expr v) (obj_name v) (index v) (type v)
    (dynamic_type v) x (error v) (num_children v) (children v)
    (fake_child v) (format v) (updated v).
Definition set_error (v : varobj) (x : Z) : varobj :=
  Varobj (addr v) (name v) (path_expr v) (obj_name v) (index v) (type v)
    (dynamic_type v) (value_ v) x (num_children v) (children v)
    (fake_child v) (format v) (updated v).
Definition set_num_children (v : varobj) (x : Z) : varobj :=
  Varobj (addr v) (name v) (path_expr v) (obj_name v) (index v) (type v)
    (dynamic_type v) (value_ v) (error v) x (children v)
    (fake_child v) (format v) (updated v).
Definition set_children (v : varobj) (x : list varobj) : varobj :=
  Varobj (addr v) (name v) (path_expr v) (obj_name v) (index v) (type v)
    (dynamic_type v) (value_ v) (error v) (num_children v) x
    (fake_child v) (format v) (updated v).
Definition set_format (v : varobj) (x : varobj_display_formats) : varobj :=
  Varobj (addr v) (name v) (path_expr v) (obj_name v) (index v) (type v)
    (dynamic_type v) (value_ v) (error v) (num_children v) (children v)
    (fake_child v) x (updated v).
Definition set_updated (v : varobj) (x : bool) : varobj :=
  Varobj (addr v) (name v) (path_expr v) (obj_name v) (index v) (type v)
    (dynamic_type v) (value_ v) (error v) (num_children v) (children v)
    (fake_child v) (format v) x.

Definition set_exp (r : varobj_root) (x : option expression) : varobj_root :=
  {| root_addr := root_addr r; exp := x; valid_block := valid_block r;
     frame := frame r; use_selected_frame := use_selected_frame r;
     in_scope := in_scope r; lang := lang r; rootvar := rootvar r |}.
Definition set_valid_block (r : varobj_root) (x : option block) : varobj_root :=
  {| root_addr := root_addr r; exp := exp r; valid_block := x;
     frame := frame r; use_selected_frame := use_selected_frame r;
     in_scope := in_scope r; lang := lang r; rootvar := rootvar r |}.
Definition set_frame (r : varobj_root) (x : frame_id) : varobj_root :=
  {| root_addr := root_addr r; exp := exp r; valid_block := valid_block r;
     frame := x; use_selected_frame := use_selected_frame r;
     in_scope := in_scope r; lang := lang r; rootvar := rootvar r |}.
Definition set_use_selected_frame (r : varobj_root) (x : bool) : varobj_root :=
  {| root_addr := root_addr r; exp := exp r; valid_block := valid_block r;
     frame := frame r; use_selected_frame := x;
     in_scope := in_scope r; lang := lang r; rootvar := rootvar r |}.
Definition set_in_scope (r : varobj_root) (x : bool) : varobj_root :=
  {| root_addr := root_addr r; exp := exp r; valid_block := valid_block r;
     frame := frame r; use_selected_frame := use_selected_frame r;
     in_scope := x; lang := lang r; rootvar := rootvar r |}.
Definition set_lang (r : varobj_root) (x : option varobj_languages) : varobj_root :=
  {| root_addr := root_addr r; exp := exp r; valid_block := valid_block r;
     frame := frame r; use_selected_frame := use_selected_frame r;
     in_scope := in_scope r; lang := x; rootvar := rootvar r |}.
Definition set_rootvar (r : varobj_root) (x : option ptr) : varobj_root :=
  {| root_addr := root_addr r; exp := exp r; valid_block := valid_block r;
     frame := frame r; use_selected_frame := use_selected_frame r;
     in_scope := in_scope r; lang := lang r; rootvar := x |}.

Definition with_root (h : root_var) (r : varobj_root) : root_var :=
  {| rv_root := r; rv_var := rv_var h |}.
Definition with_var (h : root_var) (v : varobj) : root_var :=
  {| rv_root := rv_root h; rv_var := v |}.

(** ** The registry: hash table of object names and list of roots *)

Definition VAROBJ_TABLE_SIZE : Z := 227.
Definition UINT_MODULUS : Z := 2 ^ 32.

(** [(unsigned int) *chp] for a plain (signed) [char]. *)
Definition uint_of_char (c : ascii) : Z :=
  let n := Z.of_N (N_of_ascii c) in
  (if 128 <=? n then n - 256 else n) mod UINT_MODULUS.

(** [index = (index + (i++ * (unsigned int) *chp)) % VAROBJ_TABLE_SIZE] over
    the characters of the name, in unsigned int arithmetic. *)
Fixpoint hash_loop (s : string) (index i : Z) : Z :=
  match s with
  | EmptyString => index
  | String c s' =>
      hash_loop s'
        (((index + (i * uint_of_char c) mod UINT_MODULUS) mod UINT_MODULUS)
           mod VAROBJ_TABLE_SIZE)
        ((i + 1) mod UINT_MODULUS)
  end.

Definition varobj_hash (objname : string) : Z := hash_loop objname 0 1.

(** The chain walk [while (cv != NULL && strcmp (cv->var->obj_name, n) != 0)]. *)
Definition chain_find (n : string) (chain : list vlist) : option vlist :=
  find (fun cv => String.eqb (vl_obj_name cv) n) chain.

(** Unlink the first cell found by the walk. *)
Fixpoint chain_unlink (n : string) (chain : list vlist) : list vlist :=
  match chain with
  | [] => []
  | cv :: rest =>
      if String.eqb (vl_obj_name cv) n then rest
      else cv :: chain_unlink n rest
  end.

Definition table_set (tbl : Z -> list vlist) (i : Z) (chain : list vlist)
  : Z -> list vlist :=
  fun j => if j =? i then chain else tbl j.

Definition varobj_get_handle (objname : string) : M ptr :=
  rg <- get_reg ;;
  match chain_find objname (varobj_table rg (varobj_hash objname)) with
  | None => throw "Variable object not found"
  | Some cv => ret (vl_var cv)
  end.

(** install_variable: [r] is [var->root].  Returns 1. *)
Definition install_variable (r : varobj_root) (var : varobj) : M Z :=
  match obj_name var with
  | None => undefined
  | Some n =>
      rg <- get_reg ;;
      let index := varobj_hash n in
      match chain_find n (varobj_table rg index) with
      | Some _ => throw "Duplicate variable object name"
      | None =>
          let newvl := {| vl_var := addr var; vl_obj_name := n |} in
          let tbl := table_set (varobj_table rg) index
                       (newvl :: varobj_table rg index) in
          let rg' :=
            if is_root_p r var then
              {| varobj_table := tbl;
                 rootlist := {| rc_root := root_addr r; rc_rootvar := rootvar r |}
                               :: rootlist rg;
                 rootcount := rootcount rg + 1 |}
            else
              {| varobj_table := tbl; rootlist := rootlist rg;
                 rootcount := rootcount rg |} in
          put_reg rg' ;;
          ret 1
      end
  end.

(** Unlink the first root whose rootvar is [var]; None when there is none. *)
Fixpoint root_unlink (var : ptr) (l : list root_cell) : option (list root_cell) :=
  match l with
  | [] => None
  | cr :: rest =>
      if opt_ptr_eqb (rc_rootvar cr) (Some var) then Some rest
      else option_map (cons cr) (root_unlink var rest)
  end.

(** uninstall_variable: [r] is [var->root], [n] is [var->obj_name] (the
    callers test it against NULL). *)
Definition uninstall_variable (r : varobj_root) (var : varobj) (n : string)
    (rg : registry) : registry :=
  let index := varobj_hash n in
  match chain_find n (varobj_table rg index) with
  | None => rg                                (* warning; return *)
  | Some _ =>
      let tbl := table_set (varobj_table rg) index
                   (chain_unlink n (varobj_table rg index)) in
      if is_root_p r var then
        match rootlist rg with
        | [] =>
            (* cr == NULL: warning; return *)
            {| varobj_table := tbl; rootlist := []; rootcount := rootcount rg |}
        | c :: rest =>
            if rc_root c =? root_addr r then
              {| varobj_table := tbl; rootlist := rest;
                 rootcount := rootcount rg - 1 |}
            else if opt_ptr_eqb (rc_rootvar c) (Some (addr var)) then
              (* prer == NULL *)
              {| varobj_table := tbl; rootlist := [];
                 rootcount := rootcount rg - 1 |}
            else
              match root_unlink (addr var) rest with
              | None =>
                  {| varobj_table := tbl; rootlist := c :: rest;
                     rootcount := rootcount rg |}
              | Some rest' =>
                  {| varobj_table := tbl; rootlist := c :: rest';
                     rootcount := rootcount rg - 1 |}
              end
        end
      else
        {| varobj_table := tbl; rootlist := rootlist rg;
           rootcount := rootcount rg |}
  end.

(** *** Stacks of names *)

Definition cpstack := list (option string).

Definition cppush (pstack : cpstack) (n : option string) : cpstack :=
  n :: pstack.

(** None: [*pstack] is NULL. *)
Definition cppop (pstack : cpstack) : option (option string * cpstack) :=
  match pstack with
  | [] => None
  | [None] => Some (None, pstack)
  | n :: rest => Some (n, rest)
  end.

(** *** Allocation *)

(** new_variable writes every field except [path_expr]; the field holds
    None here, varobj_create stores the expression in it, and none of the
    functions below tests it. *)
Definition new_variable : M varobj :=
  s <- get_ses ;;
  put_ses (set_next_addr s (next_addr s + 1)) ;;
  ret (Varobj (next_addr s) None None None (-1) None None None 0 (-1) []
         false FORMAT_NATURAL false).

Definition new_root_variable : M root_var :=
  var <- new_variable ;;
  s <- get_ses ;;
  put_ses (set_next_addr s (next_addr s + 1)) ;;
  ret {| rv_root :=
           {| root_addr := next_addr s; exp := None; valid_block := None;
              frame := null_frame_id; use_selected_frame := false;
              in_scope := false; lang := None; rootvar := None |};
         rv_var := var |}.

(** *** Deletion *)

(** delete_variable_1.  [r] is [var->root].  The accumulator holds
    [*resultp], [*delcountp] and the registry.  The object [var] itself
    is released at the end (free_variable); what remains of it for the
    caller is described by [varobj_delete] below.  Unlinking [var] from
    the list of its own parent (remove_child_from_parent) concerns the
    node holding [var]: when [only_children_p] is set every child unlinks
    itself and the list of [var] ends up empty, otherwise the list goes
    away with [var]. *)
Fixpoint delete_variable_1 (r : varobj_root) (var : varobj)
    (only_children_p remove_from_parent_p : bool)
    (acc : cpstack * Z * registry) {struct var} : cpstack * Z * registry :=
  let acc :=
    fold_left
      (fun acc vc => delete_variable_1 r vc false only_children_p acc)
      (children var) acc in
  if only_children_p then acc
  else
    match obj_name var with
    | None => acc
    | Some n =>
        let '(resultp, delcount, rg) := acc in
        (cppush resultp (Some n), delcount + 1, uninstall_variable r var n rg)
    end.

Definition delete_variable (r : varobj_root) (resultp : cpstack) (var : varobj)
    (only_children_p : bool) (rg : registry) : cpstack * Z * registry :=
  delete_variable_1 r var only_children_p true (resultp, 0, rg).

(** The loop of varobj_delete that moves the names from the stack to the
    array: one cppop, then the test [*cp != NULL && mycount > 0].  The
    result lists the names stored; None: cppop on a NULL stack. *)
Fixpoint dellist_loop (result : cpstack) (mycount : Z) : option (list string) :=
  match result with
  | [] => None
  | None :: _ => Some []
  | Some n :: rest =>
      if 0 <? mycount
      then option_map (cons n) (dellist_loop rest (mycount - 1))
      else Some [n]
  end.

(** varobj_delete.  [want_dellist] is [dellist != NULL].  Returns delcount,
    the names stored in [*dellist] and, when only the children are deleted,
    the object without them. *)
Definition varobj_delete (r : varobj_root) (var : varobj) (want_dellist : bool)
    (only_children : bool) : M (Z * option (list string) * option varobj) :=
  rg <- get_reg ;;
  let result := cppush [] None in
  let '(result, delcount, rg') := delete_variable r result var only_children rg in
  put_reg rg' ;;
  let survivor := if only_children then Some (set_children var []) else None in
  if want_dellist then
    match dellist_loop result delcount with
    | None => undefined
    | Some names => ret (delcount, Some names, survivor)
    end
  else ret (delcount, None, survivor).

(** ** Creation, re-evaluation and update *)

Section Engine.

Variable G : gdb_core.

(** *** Calls into the debugger core *)

Definition gdb_parse_exp_1 (s : string) (b : option block)
  : M (option expression) :=
  modify_ses (fun ss =>
    log_event
      (set_innermost_block ss (parse_innermost_block G s b (innermost_block ss)))
      (EvParse s b)) ;;
  ret (parse_exp_1 G s b).

Definition gdb_evaluate_expression (e : expression) : M (option value) :=
  ss <- get_ses ;;
  put_ses (log_event ss (EvEvaluate e)) ;;
  ret (evaluate_expression G e (deprecated_selected_frame ss)).

Definition gdb_evaluate_type (e : expression) : M (option value) :=
  ss <- get_ses ;;
  put_ses (log_event ss (EvEvaluateType e)) ;;
  ret (evaluate_type G e (deprecated_selected_frame ss)).

Definition gdb_value_assign (old new : value) : M (option value) :=
  modify_ses (fun ss => log_event ss (EvAssign old new)) ;;
  ret (value_assign G old new).

(** gdb_value_fetch_lazy: success, and the value with its contents read. *)
Definition fetch_lazy (v : value) : bool * value :=
  if gdb_value_fetch_lazy G v
  then (true, {| val_id := val_id v; VALUE_TYPE := VALUE_TYPE v;
                 VALUE_LAZY := false |})
  else (false, v).

Definition select_frame (fi : option frame_info) : M unit :=
  modify_ses (fun ss => set_selected_frame ss fi).

(** frame.c, get_selected_frame: the selected frame, after selecting the
    current (innermost) frame when none is selected. *)
Definition get_selected_frame : M (option frame_info) :=
  ss <- get_ses ;;
  match deprecated_selected_frame ss with
  | Some f => ret (Some f)
  | None =>
      match frame_chain G with
      | f :: _ => select_frame (Some f) ;; ret (Some f)
      | [] => throw "No stack."
      end
  end.

(** The walk over get_prev_frame, from the innermost frame outwards. *)
Definition find_frame_addr_in_frame_chain (frame_addr : CORE_ADDR)
  : option frame_info :=
  if frame_addr =? 0 then None
  else find (fun f => fi_base f =? frame_addr) (frame_chain G).

(** make_cleanup_set_restore_scheduler_locking_mode: sets the mode and
    returns the mode that the cleanup puts back. *)
Definition set_restore_scheduler_locking_mode (m : scheduler_locking_mode)
  : M scheduler_locking_mode :=
  ss <- get_ses ;;
  put_ses (set_scheduler_mode ss m) ;;
  ret (scheduler_mode ss).

Definition restore_scheduler_locking_mode (old : scheduler_locking_mode)
  : M unit :=
  modify_ses (fun ss => set_scheduler_mode ss old).

(** *** Dynamic types *)

Definition safe_value_rtti_target_type (val : value) : option type_ptr :=
  match value_rtti_target_type G val with
  | Some dynamic_type => dynamic_type
  | None => None
  end.

(** Result and [*dynamic_type_handle]. *)
Definition varobj_fixup_value (in_value : value) (use_dynamic_type : bool)
    (blk : option block) : value * option type_ptr :=
  let base_type := check_typedef G (VALUE_TYPE in_value) in
  let objc (wrap : type_ptr -> type_ptr) :=
    let '(ret_val, dt) := safe_value_objc_target_type G in_value blk in
    if negb ret_val then None else option_map wrap dt in
  let dynamic_type :=
    match TYPE_CODE G base_type with
    | TYPE_CODE_PTR =>
        match safe_value_rtti_target_type in_value with
        | Some dt => Some (lookup_pointer_type G dt)
        | None => objc (lookup_pointer_type G)
        end
    | TYPE_CODE_REF =>
        match get_target_type G (Some base_type) with
        | Some target_type =>
            let temp_val :=
              {| val_id := val_id in_value;
                 VALUE_TYPE := lookup_pointer_type G target_type;
                 VALUE_LAZY := VALUE_LAZY in_value |} in
            match safe_value_rtti_target_type temp_val with
            | Some dt => Some (lookup_reference_type G dt)
            | None => objc (lookup_reference_type G)
            end
        | None => None
        end
    | _ => None
    end in
  match dynamic_type with
  | Some dt =>
      if use_dynamic_type then
        match gdb_value_cast G dt in_value with
        | Some full_value => (full_value, Some dt)
        | None => (in_value, Some (VALUE_TYPE in_value))
        end
      else (in_value, Some dt)
  | None => (in_value, None)
  end.

(** *** Scope *)

Definition varobj_pc_in_valid_block_p (r : varobj_root) : bool :=
  match valid_block r with
  | None => true
  | Some b =>
      match frame_find_by_id G (frame r) with
      | Some fi =>
          if (fi_pc fi <? startaddr b) || (endaddr b <=? fi_pc fi)
          then false else true
      | None => false
      end
  end.

Definition variable_default_display (var : varobj) : varobj_display_formats :=
  FORMAT_NATURAL.

(** *** varobj_create *)

Definition varobj_type_eqb (a b : varobj_type) : bool :=
  match a, b with
  | USE_SPECIFIED_FRAME, USE_SPECIFIED_FRAME
  | USE_CURRENT_FRAME, USE_CURRENT_FRAME
  | USE_SELECTED_FRAME, USE_SELECTED_FRAME
  | USE_BLOCK_IN_FRAME, USE_BLOCK_IN_FRAME
  | NO_FRAME_NEEDED, NO_FRAME_NEEDED => true
  | _, _ => false
  end.

(** The part of varobj_create under [if (var->root->exp != NULL)]:
    selects the frame, evaluates, records type and language.  Returns the
    object and old_frame_id. *)
Definition create_evaluate (var : root_var) (ex : expression)
    (fi : option frame_info) (var_frame_id : frame_id) (blk : option block)
    (kind : varobj_type) : M (root_var * frame_id) :=
  '(var, old_frame_id) <-
     match fi with
     | Some _ =>
         let fi' := frame_find_by_id G var_frame_id in
         let var := with_root var (set_frame (rv_root var) var_frame_id) in
         sel <- get_selected_frame ;;
         select_frame fi' ;;
         ret (var, get_frame_id sel)
     | None => ret (var, null_frame_id)
     end ;;
  ev <- (if use_selected_frame (rv_root var)
            || varobj_pc_in_valid_block_p (rv_root var)
            || varobj_type_eqb kind NO_FRAME_NEEDED
         then gdb_evaluate_expression ex
         else ret None) ;;
  var <-
    match ev with
    | Some v =>
        let '(v', dyn) := varobj_fixup_value v (varobj_use_dynamic_type G) blk in
        let v' := if VALUE_LAZY v' then snd (fetch_lazy v') else v' in
        ret {| rv_root := set_in_scope (rv_root var) true;
               rv_var := set_value
                           (set_dynamic_type
                              (set_type (rv_var var) (Some (VALUE_TYPE v))) dyn)
                           (Some v') |}
    | None =>
        tv <- gdb_evaluate_type ex ;;
        match tv with
        | Some v =>
            ret {| rv_root := set_in_scope (rv_root var) false;
                   rv_var := set_type (set_value (rv_var var) (Some v))
                               (Some (VALUE_TYPE v)) |}
        | None =>
            ret {| rv_root := set_in_scope (set_exp (rv_root var) None) false;
                   rv_var := set_value (set_type (rv_var var) None) None |}
        end
    end ;;
  let lang_ := variable_language (rv_root var) in
  ret (with_root var (set_lang (rv_root var) (Some lang_)), old_frame_id).

(** The part of varobj_create under [if (expression != NULL)].  None is
    [goto error_cleanup]. *)
Definition create_fill (var : root_var) (expression : string)
    (frame_ : CORE_ADDR) (blk : option block) (kind : varobj_type)
  : M (option root_var) :=
  ss <- get_ses ;;
  let fi :=
    match kind with
    | USE_CURRENT_FRAME | USE_SELECTED_FRAME | USE_BLOCK_IN_FRAME =>
        deprecated_selected_frame ss
    | NO_FRAME_NEEDED => None
    | USE_SPECIFIED_FRAME => find_frame_addr_in_frame_chain frame_
    end in
  let var_frame_id := get_frame_id fi in
  let var :=
    if varobj_type_eqb kind USE_SELECTED_FRAME
    then with_root var (set_use_selected_frame (rv_root var) true)
    else var in
  let blk' : option (option block) :=
    match blk with
    | Some b => Some (Some b)
    | None =>
        match kind with
        | USE_BLOCK_IN_FRAME | NO_FRAME_NEEDED => None
        | _ =>
            match fi with
            | Some f => Some (fi_block f)
            | None => Some None
            end
        end
    end in
  match blk' with
  | None => ret None
  | Some blk =>
      modify_ses (fun ss => set_innermost_block ss None) ;;
      pe <- gdb_parse_exp_1 expression blk ;;
      let var := with_root var (set_exp (rv_root var) pe) in
      let stop :=
        match pe with
        | Some ex => first_opcode_is_OP_TYPE ex
        | None => negb (use_selected_frame (rv_root var))
        end in
      if stop then ret None
      else
        ss <- get_ses ;;
        let var :=
          {| rv_root := set_valid_block (rv_root var) (innermost_block ss);
             rv_var :=
               set_path_expr
                 (set_name
                    (set_format (rv_var var) (variable_default_display (rv_var var)))
                    (Some expression))
                 (Some expression) |} in
        '(var, old_frame_id) <-
           match exp (rv_root var) with
           | Some ex => create_evaluate var ex fi var_frame_id blk kind
           | None =>
               ret (with_root var (set_in_scope (rv_root var) false),
                    null_frame_id)
           end ;;
        let var :=
          with_root var (set_rootvar (rv_root var) (Some (addr (rv_var var)))) in
        (if frame_id_p old_frame_id
         then select_frame (frame_find_by_id G old_frame_id)
         else ret tt) ;;
        ret (Some var)
  end.

(** varobj_create.  None is the NULL result.  The cleanup chain holds the
    release of the new object and the restore of the scheduler mode; it is
    run on the error_cleanup exit and when install_variable leaves through
    error (). *)
Definition varobj_create (objname : option string) (expression : option string)
    (frame_ : CORE_ADDR) (blk : option block) (kind : varobj_type)
  : M (option root_var) :=
  var <- new_root_variable ;;
  ss <- get_ses ;;
  let do_schedlock_cleanup :=
    if varobj_runs_all_threads G then ret tt
    else restore_scheduler_locking_mode (scheduler_mode ss) in
  (if varobj_runs_all_threads G then ret tt
   else modify_ses (fun ss => set_scheduler_mode ss scheduler_locking_on)) ;;
  on_error
    (filled <-
       match expression with
       | Some e => create_fill var e frame_ blk kind
       | None => ret (Some var)
       end ;;
     match filled with
     | None => do_schedlock_cleanup ;; ret None
     | Some var =>
         match objname with
         | Some n =>
             let var := with_var var (set_obj_name (rv_var var) (Some n)) in
             ok <- install_variable (rv_root var) (rv_var var) ;;
             if ok =? 0 then do_schedlock_cleanup ;; ret None
             else do_schedlock_cleanup ;; ret (Some var)
         | None => do_schedlock_cleanup ;; ret (Some var)
         end
     end)
    do_schedlock_cleanup.

(** *** Values of children *)

(** c_value_of_child.  [child] is [child_exists (parent, index)]. *)
Definition c_value_of_child (parent child : varobj) (index_ : Z)
  : outcome (option value) :=
  match value_ parent with
  | None => Ret None
  | Some temp =>
      match get_type G parent with
      | None => Undefined
      | Some ty =>
          let by_name :=
            match name child with
            | None => Undefined
            | Some n => Ret (gdb_value_struct_elt G temp n)
            end in
          match TYPE_CODE G ty with
          | TYPE_CODE_ARRAY => Ret (gdb_value_subscript G temp index_)
          | TYPE_CODE_STRUCT | TYPE_CODE_UNION => by_name
          | TYPE_CODE_PTR =>
              match get_target_type G (Some ty) with
              | None => Undefined
              | Some target =>
                  match TYPE_CODE G target with
                  | TYPE_CODE_STRUCT | TYPE_CODE_UNION => by_name
                  | _ => Ret (gdb_value_ind G temp)
                  end
              end
          | _ => Ret None
          end
      end
  end.

(** cplus_value_of_child.  [gparent] is [parent->parent]. *)
Definition cplus_value_of_child (gparent : option varobj)
    (parent child : varobj) (index_ : Z) : outcome (option value) :=
  let ty0 :=
    if CPLUS_FAKE_CHILD (Some parent) then
      match gparent with
      | Some gp => fst (get_type_deref G gp)
      | None => None
      end
    else fst (get_type_deref G parent) in
  match ty0 with
  | None => Undefined
  | Some ty =>
      let fallback := c_value_of_child parent child index_ in
      match TYPE_CODE G ty with
      | TYPE_CODE_STRUCT | TYPE_CODE_UNION =>
          if CPLUS_FAKE_CHILD (Some parent) then
            match gparent with
            | None => Undefined
            | Some gp =>
                match value_ gp with
                | None => Ret None
                | Some temp =>
                    match name child with
                    | None => Undefined
                    | Some n =>
                        match gdb_value_struct_elt G temp n with
                        | None => Ret None
                        | Some v => Ret (Some v)
                        end
                    end
                end
            end
          else if TYPE_N_BASECLASSES G ty <=? index_ then Ret None
          else
            match value_ parent with
            | None => fallback
            | Some pv =>
                let cast temp :=
                  match TYPE_FIELD_TYPE G ty index_ with
                  | None => Undefined
                  | Some bt =>
                      match value_cast G bt temp with
                      | Some v => Ret (Some v)
                      | None => Throw "value_cast"
                      end
                  end in
                match TYPE_CODE G (VALUE_TYPE pv) with
                | TYPE_CODE_PTR =>
                    match gdb_value_ind G pv with
                    | None => fallback
                    | Some temp => cast temp
                    end
                | _ => cast pv
                end
            end
      | _ => fallback
      end
  end.

Definition java_value_of_child := cplus_value_of_child.

Definition lift {A} (o : outcome A) : M A := fun st => (o, st).

(** value_of_child.  Returns the value, the child (its dynamic type may
    have been replaced) and [*type_changed]. *)
Definition value_of_child (r : varobj_root) (gparent : option varobj)
    (parent child : varobj) (index_ : Z)
  : M (option value * varobj * varobj_type_change) :=
  val <-
    match lang r with
    | None => undefined
    | Some (vlang_unknown | vlang_c) => lift (c_value_of_child parent child index_)
    | Some vlang_cplus => lift (cplus_value_of_child gparent parent child index_)
    | Some vlang_java => lift (java_value_of_child gparent parent child index_)
    end ;;
  match val with
  | None => ret (None, child, VAROBJ_TYPE_UNCHANGED)
  | Some v =>
      let '(v, child, type_changed) :=
        if negb (CPLUS_FAKE_CHILD (Some child)) then
          let '(new_value, dyn) :=
            varobj_fixup_value v (varobj_use_dynamic_type G) (valid_block r) in
          if negb (opt_ptr_eqb dyn (dynamic_type child))
          then (new_value, set_dynamic_type child dyn, VAROBJ_DYNAMIC_TYPE_CHANGED)
          else (new_value, child, VAROBJ_TYPE_UNCHANGED)
        else (v, child, VAROBJ_TYPE_UNCHANGED) in
      if VALUE_LAZY v then
        let '(ok, v') := fetch_lazy v in
        ret ((if ok then Some v' else None), child, type_changed)
      else ret (Some v, child, type_changed)
  end.

(** *** Re-evaluation of a root *)

Definition varobj_get_type (var : varobj) : option string :=
  if CPLUS_FAKE_CHILD (Some var) then None
  else
    match type var with
    | None => Some "<error getting type>"
    | Some ty => Some (type_sprint G ty)
    end.

(** None: strcmp reads a NULL string. *)
Definition varobj_type_is_equal_p (old_var new_var : varobj) : option bool :=
  match type old_var, type new_var with
  | Some _, Some _ =>
      match varobj_get_type old_var, varobj_get_type new_var with
      | Some old_type, Some new_type => Some (String.eqb old_type new_type)
      | _, _ => None
      end
  | _, _ => Some false
  end.

(** c_value_of_root.  Returns the value, the handle and [*type_changed]. *)
Definition c_value_of_root (h : root_var) (type_changed : varobj_type_change)
  : M (option value * root_var * varobj_type_change) :=
  if negb (is_root_p (rv_root h) (rv_var h)) then ret (None, h, type_changed)
  else
    within_scope <-
      match valid_block (rv_root h) with
      | None => ret true
      | Some _ =>
          modify_ses (fun ss =>
            set_selected_frame ss
              (reinit_frame_cache G (deprecated_selected_frame ss))) ;;
          match frame_find_by_id G (frame (rv_root h)) with
          | Some fi => select_frame (Some fi) ;; ret true
          | None => ret false
          end
      end ;;
    if negb within_scope then ret (None, h, type_changed)
    else
      old_mode <- set_restore_scheduler_locking_mode scheduler_locking_on ;;
      match exp (rv_root h) with
      | None => undefined
      | Some ex =>
          ev <- gdb_evaluate_expression ex ;;
          match ev with
          | Some new_val =>
              let '(new_val, dyn) :=
                varobj_fixup_value new_val (varobj_use_dynamic_type G)
                  (valid_block (rv_root h)) in
              '(var, type_changed) <-
                 (if varobj_use_dynamic_type G
                     && negb (opt_ptr_eqb (dynamic_type (rv_var h)) dyn)
                  then
                    let var := set_dynamic_type (rv_var h) dyn in
                    '(_, _, survivor) <- varobj_delete (rv_root h) var false true ;;
                    let var := match survivor with Some v => v | None => var end in
                    match number_of_children G (rv_root h) None var with
                    | None => undefined
                    | Some n =>
                        ret (set_num_children var n, VAROBJ_DYNAMIC_TYPE_CHANGED)
                    end
                  else ret (rv_var h, type_changed)) ;;
              let '(var, new_val) :=
                if VALUE_LAZY new_val then
                  let '(ok, v') := fetch_lazy new_val in
                  (set_error var (if ok then 0 else 1), v')
                else (var, new_val) in
              restore_scheduler_locking_mode old_mode ;;
              ret (Some new_val, with_var h var, type_changed)
          | None =>
              restore_scheduler_locking_mode old_mode ;;
              ret (None, with_var h (set_error (rv_var h) 1), type_changed)
          end
      end.

Definition cplus_value_of_root := c_value_of_root.
Definition java_value_of_root := cplus_value_of_root.

(** value_of_root.  Returns the value, the handle (replaced when the
    re-created object has another type) and [*type_changed]. *)
Definition value_of_root (h : root_var) (type_changed : varobj_type_change)
  : M (option value * root_var * varobj_type_change) :=
  let var := rv_var h in
  if negb (is_root_p (rv_root h) var) then ret (None, h, type_changed)
  else
    let dispatch (h : root_var) (type_changed : varobj_type_change) :=
      match lang (rv_root h) with
      | None => undefined
      | Some (vlang_unknown | vlang_c) => c_value_of_root h type_changed
      | Some vlang_cplus => cplus_value_of_root h type_changed
      | Some vlang_java => java_value_of_root h type_changed
      end in
    if use_selected_frame (rv_root h)
       || match get_type G var with None => true | Some _ => false end
    then
      tmp <- varobj_create None (name var) 0 None USE_SELECTED_FRAME ;;
      match tmp with
      | None => ret (None, h, type_changed)
      | Some tmp_var =>
          match exp (rv_root tmp_var), type (rv_var tmp_var) with
          | Some _, Some _ =>
              match varobj_type_is_equal_p (rv_var tmp_var) var with
              | None => undefined
              | Some true =>
                  let h :=
                    match valid_block (rv_root h), valid_block (rv_root tmp_var) with
                    | Some vb, Some tb =>
                        if negb (startaddr vb =? startaddr tb)
                           || negb (endaddr vb =? endaddr tb)
                        then with_root h
                               (set_valid_block (rv_root h)
                                  (valid_block (rv_root tmp_var)))
                        else h
                    | _, _ => h
                    end in
                  varobj_delete (rv_root tmp_var) (rv_var tmp_var) false false ;;
                  dispatch h VAROBJ_TYPE_UNCHANGED
              | Some false =>
                  match obj_name var with
                  | None => undefined
                  | Some n =>
                      let tmp_var :=
                        with_var tmp_var (set_obj_name (rv_var tmp_var) (Some n)) in
                      varobj_delete (rv_root h) var false false ;;
                      install_variable (rv_root tmp_var) (rv_var tmp_var) ;;
                      dispatch tmp_var VAROBJ_TYPE_CHANGED
                  end
              end
          | _, _ => ret (None, h, type_changed)
          end
      end
    else
      if negb (varobj_pc_in_valid_block_p (rv_root h))
      then ret (None, h, VAROBJ_TYPE_UNCHANGED)
      else dispatch h VAROBJ_TYPE_UNCHANGED.

(** *** varobj_update *)

(** One element of the change list.  [cl_var] is the object the element
    points to, as it is when the element is appended. *)
Record varobj_changelist_elem := {
  cl_var : varobj;
  cl_type_changed : varobj_type_change
}.

Definition varobj_changelist := list varobj_changelist_elem.

Definition varobj_changelist_init : varobj_changelist := [].

Definition varobj_add_to_changelist (changelist : varobj_changelist)
    (var : varobj) (type_changed : varobj_type_change) : varobj_changelist :=
  (changelist ++ [{| cl_var := var; cl_type_changed := type_changed |}])%list.

(** The locals of varobj_update that live across the walk: the list being
    built, [changed] and [error2]. *)
Record walk := {
  w_result : varobj_changelist;
  w_changed : Z;
  w_error2 : Z
}.

(** The test
    [came_in_scope || (varobj_value_is_changeable_p (v)
                       && (v->updated || !my_value_equal (v->value, new, &error2)))]
    and the contents of [error2] after it. *)
Definition value_changed_test (came_in_scope : bool) (v : varobj)
    (new : option value) (error2 : Z) : bool * Z :=
  if came_in_scope then (true, error2)
  else if varobj_value_is_changeable_p G v then
    if updated v then (true, error2)
    else
      let '(eq, error2') := my_value_equal G (value_ v) new in
      (eq =? 0, error2')
  else (false, error2).

(** The passes of the loop [while (v != NULL)] for the objects of a list of
    children pushed in list order: they are popped last pushed first, and
    everything pushed while one of them is visited is popped before the
    next one. *)
Fixpoint walk_list (visit : varobj -> walk -> M (varobj * walk))
    (l : list varobj) (w : walk) : M (list varobj * walk) :=
  match l with
  | [] => ret ([], w)
  | c :: l' =>
      '(l'', w) <- walk_list visit l' w ;;
      '(c', w) <- visit c w ;;
      ret (c' :: l'', w)
  end.

(** One pass of the body of [while (v != NULL)] for the object [v] popped
    from the stack, followed by the passes for the objects it pushes.
    [parent] is [v->parent] as it is at that time, [gparent] is
    [parent->parent]. *)
Fixpoint update_walk (r : varobj_root) (came_in_scope : bool)
    (gparent : option varobj) (parent : varobj) (v : varobj) (w : walk)
    {struct v} : M (varobj * walk) :=
  let kids := children v in
  '(new, v, child_type_changed) <- value_of_child r gparent parent v (index v) ;;
  let '(changed_p, error2) :=
    if negb (type_unchanged child_type_changed) then (true, w_error2 w)
    else value_changed_test came_in_scope v new (w_error2 w) in
  let w :=
    if changed_p then
      {| w_result := varobj_add_to_changelist (w_result w) v child_type_changed;
         w_changed := w_changed w + 1;
         w_error2 := error2 |}
    else
      {| w_result := w_result w; w_changed := w_changed w; w_error2 := error2 |} in
  let v := if changed_p then set_updated v false else v in
  let v := set_error v error2 in
  let v := set_value v new in
  if type_unchanged child_type_changed then
    '(kids', w) <-
       walk_list (update_walk r came_in_scope (Some parent) v) kids w ;;
    ret (set_children v kids', w)
  else
    '(_, _, survivor) <- varobj_delete r v false true ;;
    ret (match survivor with Some v' => v' | None => v end, w).

(** The walk over the children of the root. *)
Definition update_children (r : varobj_root) (came_in_scope : bool)
    (root_ : varobj) (l : list varobj) (w : walk) : M (list varobj * walk) :=
  walk_list (update_walk r came_in_scope None root_) l w.

(** varobj_update.  [changelist_null] is [changelist == NULL]; [error2] is
    the initial contents of the local of that name.  Returns the result,
    [*varp] and what is stored in [*changelist] (None: nothing stored). *)
Definition varobj_update (varp : root_var) (changelist_null : bool) (error2 : Z)
  : M (Z * root_var * option varobj_changelist) :=
  if changelist_null then ret (-1, varp, None)
  else if negb (is_root_p (rv_root varp) (rv_var varp)) then ret (-1, varp, None)
  else
    ss <- get_ses ;;
    let old_fid := get_frame_id (deprecated_selected_frame ss) in
    '(new, varp, type_changed) <- value_of_root varp VAROBJ_TYPE_CHANGED ;;
    match new with
    | None =>
        let retval := if in_scope (rv_root varp) then -3 else 0 in
        ret (retval,
             {| rv_root := set_in_scope (rv_root varp) false;
                rv_var := set_error (rv_var varp) 1 |},
             None)
    | Some _ =>
        let came_in_scope := negb (in_scope (rv_root varp)) in
        let r := set_in_scope (rv_root varp) true in
        let var := set_error (rv_var varp) 0 in
        let result := varobj_changelist_init in
        let '(var, w) :=
          if negb (type_unchanged type_changed) then
            (var,
             {| w_result := varobj_add_to_changelist result var type_changed;
                w_changed := 1; w_error2 := error2 |})
          else
            let '(changed_p, error2') :=
              value_changed_test came_in_scope var new error2 in
            if changed_p then
              (set_error (set_updated var false) error2',
               {| w_result := varobj_add_to_changelist result var type_changed;
                  w_changed := 1; w_error2 := error2' |})
            else
              (var, {| w_result := result; w_changed := 0; w_error2 := error2' |}) in
        let var := set_value var new in
        '(kids, w) <- update_children r came_in_scope var (children var) w ;;
        let var := set_children var kids in
        (match frame_find_by_id G old_fid with
         | Some fi => select_frame (Some fi)
         | None => ret tt
         end) ;;
        ret ((if negb (type_unchanged type_changed) then -2 else w_changed w),
             {| rv_root := r; rv_var := var |},
             Some (w_result w))
    end.

(** *** varobj_set_value *)

(** Returns the result and the object. *)
Definition varobj_set_value (r : varobj_root) (var : varobj) (expression : string)
  : M (Z * varobj) :=
  ss <- get_ses ;;
  let saved_input_radix := input_radix ss in
  old_mode <- set_restore_scheduler_locking_mode scheduler_locking_on ;;
  let cleanup (ret_val : Z) (var : varobj) : M (Z * varobj) :=
    restore_scheduler_locking_mode old_mode ;; ret (ret_val, var) in
  match value_ var with
  | None => cleanup 1 var
  | Some cur =>
      match variable_editable G r var with
      | None => undefined
      | Some false => cleanup 1 var
      | Some true =>
          if negb (error var =? 0) then cleanup 1 var
          else
            modify_ses (fun ss => set_input_radix ss 10) ;;
            pe <- gdb_parse_exp_1 expression None ;;
            match pe with
            | None => cleanup 0 var
            | Some ex =>
                ev <- gdb_evaluate_expression ex ;;
                match ev with
                | None => cleanup 0 var
                | Some new =>
                    let '(eq, _) := my_value_equal G (Some cur) (Some new) in
                    let var := if eq =? 0 then set_updated var true else var in
                    av <- gdb_value_assign cur new ;;
                    match av with
                    | None => cleanup 0 var
                    | Some val =>
                        modify_ses (fun ss => set_input_radix ss saved_input_radix) ;;
                        cleanup 1 (set_value var (Some val))
                    end
                end
            end
      end
  end.

End Engine.

(** ** Children: lookup, creation and enumeration *)

Definition set_index (v : varobj) (x : Z) : varobj :=
  Varobj (addr v) (name v) (path_expr v) (obj_name v) x (type v)
    (dynamic_type v) (value_ v) (error v) (num_children v) (children v)
    (fake_child v) (format v) (updated v).
Definition set_fake_child (v : varobj) (x : bool) : varobj :=
  Varobj (addr v) (name v) (path_expr v) (obj_name v) (index v) (type v)
    (dynamic_type v) (value_ v) (error v) (num_children v) (children v)
    x (format v) (updated v).

(** The walk [for (vc = var->children; vc != NULL; vc = vc->next)]. *)
Definition child_exists (var : varobj) (index_ : Z) : option varobj :=
  find (fun vc => index vc =? index_) (children var).

(** Insert the child at the top. *)
Definition save_child_in_parent (parent child : varobj) : varobj :=
  set_children parent (child :: children parent).

(** The walk of remove_child_from_parent and the unlinking of the cell it
    stops at.  None: the walk reaches the end of the list and the code
    reads [vc->next] through NULL. *)
Fixpoint remove_child_loop (child : ptr) (l : list varobj)
  : option (list varobj) :=
  match l with
  | [] => None
  | vc :: rest =>
      if addr vc =? child then Some rest
      else option_map (cons vc) (remove_child_loop child rest)
  end.

Definition remove_child_from_parent (parent child : varobj) : option varobj :=
  option_map (set_children parent)
    (remove_child_loop (addr child) (children parent)).

(** [name[0] == 'p'] *)
Definition starts_with_p (n : string) : bool :=
  match n with
  | String c _ => Ascii.eqb c "p"%char
  | EmptyString => false
  end.

Section Children.

Variable G : gdb_core.

(** gdbtypes.c, lookup_struct_elt_type (type, name, 0); None is its call
    of error (). *)
Variable lookup_struct_elt_type : type_ptr -> string -> option type_ptr.

(** c_type_of_child.  The child is looked up in the list of [parent]. *)
Definition c_type_of_child (parent : varobj) (index_ : Z)
  : outcome (option type_ptr) :=
  match child_exists parent index_ with
  | None => Throw "c_type_of_child: called with a NULL child."
  | Some child =>
      match get_type G parent with
      | None => Undefined
      | Some parent_type =>
          let by_name (t : type_ptr) : outcome (option type_ptr) :=
            match name child with
            | None => Undefined
            | Some n =>
                match lookup_struct_elt_type t n with
                | Some ty => Ret (Some ty)
                | None => Throw "lookup_struct_elt_type"
                end
            end in
          match TYPE_CODE G parent_type with
          | TYPE_CODE_ARRAY =>
              match type parent with
              | None => Undefined
              | Some t => Ret (TYPE_TARGET_TYPE G (check_typedef G t))
              end
          | TYPE_CODE_STRUCT | TYPE_CODE_UNION => by_name parent_type
          | TYPE_CODE_PTR =>
              match get_target_type G (Some parent_type) with
              | None => Undefined
              | Some tg =>
                  let target_type := check_typedef G tg in
                  match TYPE_CODE G target_type with
                  | TYPE_CODE_STRUCT | TYPE_CODE_UNION => by_name target_type
                  | _ => Ret (Some target_type)
                  end
              end
          | _ => Throw "Child of parent whose type does not allow children"
          end
      end
  end.

(** cplus_type_of_child.  [gparent] is [parent->parent]. *)
Definition cplus_type_of_child (gparent : option varobj) (parent : varobj)
    (index_ : Z) : outcome (option type_ptr) :=
  let t0 :=
    if CPLUS_FAKE_CHILD (Some parent) then
      match gparent with
      | Some gp => fst (get_type_deref G gp)
      | None => None
      end
    else fst (get_type_deref G parent) in
  match t0 with
  | None => Undefined
  | Some t =>
      match TYPE_CODE G t with
      | TYPE_CODE_STRUCT | TYPE_CODE_UNION =>
          if CPLUS_FAKE_CHILD (Some parent) then
            match child_exists parent index_ with
            | None => Undefined
            | Some child =>
                match name child with
                | None => Undefined
                | Some n =>
                    match lookup_struct_elt_type t n with
                    | Some ty => Ret (Some ty)
                    | None => Throw "lookup_struct_elt_type"
                    end
                end
            end
          else if index_ <? TYPE_N_BASECLASSES G t then
            match TYPE_FIELD_TYPE G t index_ with
            | None => Undefined
            | Some ty => Ret (Some ty)
            end
          else Ret None
      | _ => c_type_of_child parent index_
      end
  end.

Definition java_type_of_child := cplus_type_of_child.

(** type_of_child (var).  [parent] is [var->parent], [gparent] is
    [parent->parent]. *)
Definition type_of_child (r : varobj_root) (gparent : option varobj)
    (parent var : varobj) : outcome (option type_ptr) :=
  match value_ var with
  | Some v => Ret (Some (VALUE_TYPE v))
  | None =>
      match lang r with
      | None => Undefined
      | Some (vlang_unknown | vlang_c) => c_type_of_child parent (index var)
      | Some vlang_cplus => cplus_type_of_child gparent parent (index var)
      | Some vlang_java => java_type_of_child gparent parent (index var)
      end
  end.

(** create_child.  [r] is [parent->root], [gparent] is [parent->parent].
    Returns the parent, with the child in its list, and the child.  The
    format "%s.%s" reads [parent->obj_name] and [name]. *)
Definition create_child (r : varobj_root) (gparent : option varobj)
    (parent : varobj) (index_ : Z) (name_ : option string)
  : M (varobj * varobj) :=
  child <- new_variable ;;
  match obj_name parent, name_ with
  | Some pn, Some n =>
      let child := set_index (set_name child (Some n)) index_ in
      let child := set_obj_name child (Some (pn ++ "." ++ n)%string) in
      let child :=
        set_fake_child child
          (match variable_language r with
           | vlang_cplus =>
               starts_with_p n
               && (String.eqb "private" n || String.eqb "public" n
                   || String.eqb "protected" n)
           | _ => false
           end) in
      install_variable r child ;;
      ty <- lift (type_of_child r gparent (save_child_in_parent parent child)
                    child) ;;
      let child := set_type child ty in
      '(val, child, _) <-
         value_of_child G r gparent (save_child_in_parent parent child) child
           index_ ;;
      let child := set_value child val in
      let child :=
        if (negb (CPLUS_FAKE_CHILD (Some child))
            && match val with None => true | Some _ => false end)
           || negb (error parent =? 0)
        then set_error child 1 else child in
      ret (save_child_in_parent parent child, child)
  | _, _ => undefined
  end.

(** varobj_get_num_children.  [parent] is [var->parent].  Returns the
    result and the object; None: number_of_children reads through a NULL
    pointer. *)
Definition varobj_get_num_children (r : varobj_root) (parent : option varobj)
    (var : varobj) : option (Z * varobj) :=
  match exp r with
  | None => Some (-1, var)
  | Some _ =>
      if num_children var =? -1 then
        option_map (fun n => (n, set_num_children var n))
          (number_of_children G r parent var)
      else Some (num_children var, var)
  end.

(** The loop [for (i = 0; i < var->num_children; i++)] of
    varobj_list_children, from [i] on, with [n] passes left.  Returns the
    object and the pointers stored in [*childlist] from position [i]. *)
Fixpoint list_children_loop (r : varobj_root) (parent : option varobj)
    (n : nat) (i : Z) (var : varobj) : M (varobj * list varobj) :=
  match n with
  | O => ret (var, [])
  | S n' =>
      '(var, child) <-
         match child_exists var i with
         | Some child => ret (var, child)
         | None =>
             match make_name_of_child G r parent var i with
             | None => undefined
             | Some name_ => create_child r parent var i name_
             end
         end ;;
      '(var, rest) <- list_children_loop r parent n' (i + 1) var ;;
      ret (var, child :: rest)
  end.

(** varobj_list_children.  [parent] is [var->parent]; [childlist_null] is
    [childlist == NULL].  Returns the result, the object and the pointers
    stored in [*childlist] before the terminating NULL.  The array holds
    [var->num_children + 1] pointers; when that is not positive the store
    of the terminating NULL falls outside it. *)
Definition varobj_list_children (r : varobj_root) (parent : option varobj)
    (var : varobj) (childlist_null : bool)
  : M (Z * varobj * option (list varobj)) :=
  if childlist_null then ret (-1, var, None)
  else
    var <-
      (if num_children var =? -1 then
         match number_of_children G r parent var with
         | None => undefined
         | Some n => ret (set_num_children var n)
         end
       else ret var) ;;
    if num_children var + 1 <=? 0 then undefined
    else
      '(var, kids) <-
         list_children_loop r parent (Z.to_nat (num_children var)) 0 var ;;
      ret (num_children var, var, Some kids).

End Children.

(** *** C++: members by access level *)

Section FakeChildIndex.

Variable G : gdb_core.

(** The loops of cplus_real_type_index_for_fake_child_index, run over the
    entries [i ..] of the field table; [selected] is the access test of
    the case.  The result is [foundit ? i : -1]. *)
Fixpoint real_type_index_loop (t : type_ptr) (selected : field -> bool)
    (l : list field) (i num_found num : Z) : Z :=
  match l with
  | [] => -1
  | f :: l' =>
      if is_vptr_field G t i then
        real_type_index_loop t selected l' (i + 1) num_found num
      else if selected f then
        if num_found =? num then i
        else real_type_index_loop t selected l' (i + 1) (num_found + 1) num
      else real_type_index_loop t selected l' (i + 1) num_found num
  end.

Definition cplus_real_type_index_for_fake_child_index (t : type_ptr)
    (prot : vsections) (num : Z) : Z :=
  real_type_index_loop t
    (match prot with
     | v_public_s =>
         fun f => negb (TYPE_FIELD_PROTECTED_bit f)
                  && negb (TYPE_FIELD_PRIVATE_bit f)
     | v_protected_s => TYPE_FIELD_PROTECTED_bit
     | v_private_s => TYPE_FIELD_PRIVATE_bit
     end)
    (skipn (Z.to_nat (TYPE_N_BASECLASSES G t)) (fields (type_at G t)))
    (TYPE_N_BASECLASSES G t) 0 num.

End FakeChildIndex.

(** *** Generated names and the list of roots *)

Definition INT_MAX : Z := 2147483647.

(** varobj_gen_name.  [id] is the static counter of the function; returns
    the name and the counter.  None: [id++] overflows. *)
Definition varobj_gen_name (id : Z) : option (string * Z) :=
  if id <? INT_MAX
  then Some (("var" ++ string_of_int (id + 1))%string, id + 1)
  else None.

(** The loop [while ((croot != NULL) && (mycount > 0))] of varobj_list:
    the pointers stored in [*varlist] before the terminating NULL. *)
Fixpoint varobj_list_loop (croot : list root_cell) (mycount : Z)
  : list (option ptr) :=
  match croot with
  | [] => []
  | c :: rest =>
      if 0 <? mycount
      then rc_rootvar c :: varobj_list_loop rest (mycount - 1)
      else []
  end.

(** varobj_list.  Returns rootcount and the pointers stored.  The array
    holds [rootcount + 1] pointers; None: that is not positive. *)
Definition varobj_list (rg : registry) : option (Z * list (option ptr)) :=
  if rootcount rg + 1 <=? 0 then None
  else Some (rootcount rg, varobj_list_loop (rootlist rg) (rootcount rg)).

(** ** The behaviour the specification describes, in its own words *)

(** childCount of the generic/C strategy for an object of type [ty]:
    for arrays length / elementSize when both lengths are determinable and
    the upper bound is known, else -1; for struct/union the field count;
    for pointer to struct/union the pointee's field count; for pointer to
    function or void 0; for pointer to anything else 1; for scalars 0. *)
Definition generic_child_count (G : gdb_core) (ty : type_ptr) : Z :=
  let pointee := get_target_type G (Some ty) in
  match TYPE_CODE G ty with
  | TYPE_CODE_ARRAY =>
      match pointee with
      | Some elt =>
          if (0 <? TYPE_LENGTH G ty) && (0 <? TYPE_LENGTH G elt)
             && negb (array_bound_type_eqb (TYPE_ARRAY_UPPER_BOUND_TYPE G ty)
                        BOUND_CANNOT_BE_DETERMINED)
          then TYPE_LENGTH G ty / TYPE_LENGTH G elt
          else -1
      | None => -1
      end
  | TYPE_CODE_STRUCT | TYPE_CODE_UNION => TYPE_NFIELDS G ty
  | TYPE_CODE_PTR =>
      match pointee with
      | Some p =>
          match TYPE_CODE G p with
          | TYPE_CODE_STRUCT | TYPE_CODE_UNION => TYPE_NFIELDS G p
          | TYPE_CODE_FUNC | TYPE_CODE_VOID => 0
          | _ => 1
          end
      | None => 1
      end
  | _ => 0
  end.

(** The access level of a field. *)
Definition field_access (f : field) : vsections :=
  if field_protected f then v_protected_s
  else if field_private f then v_private_s
  else v_public_s.

Definition vsections_eqb (a b : vsections) : bool :=
  match a, b with
  | v_public_s, v_public_s | v_private_s, v_private_s
  | v_protected_s, v_protected_s => true
  | _, _ => false
  end.

Definition section_name (s : vsections) : string :=
  match s with
  | v_public_s => "public"
  | v_private_s => "private"
  | v_protected_s => "protected"
  end.

(** The entries of a list with their positions, counted from [i]. *)
Fixpoint indexed_from {A} (i : Z) (l : list A) : list (Z * A) :=
  match l with
  | [] => []
  | x :: l' => (i, x) :: indexed_from (i + 1) l'
  end.

(** The data members of a class: the fields after the base classes, without
    the virtual table pointer. *)
Definition member_fields (G : gdb_core) (ty : type_ptr) : list field :=
  map snd
    (filter (fun p => negb (is_vptr_field G ty (fst p)))
       (indexed_from (TYPE_N_BASECLASSES G ty)
          (skipn (Z.to_nat (TYPE_N_BASECLASSES G ty)) (fields (type_at G ty))))).

(** The access-level bucket [s] of a class. *)
Definition bucket (G : gdb_core) (ty : type_ptr) (s : vsections) : list field :=
  filter (fun f => vsections_eqb (field_access f) s) (member_fields G ty).

(** The non-empty buckets in the fixed order public, private, protected. *)
Definition nonempty_buckets (G : gdb_core) (ty : type_ptr) : list vsections :=
  filter (fun s => match bucket G ty s with [] => false | _ :: _ => true end)
    [v_public_s; v_private_s; v_protected_s].

Definition base_class_names (G : gdb_core) (ty : type_ptr) : list string :=
  map field_name
    (firstn (Z.to_nat (TYPE_N_BASECLASSES G ty)) (fields (type_at G ty))).

(** The names of the children of a class object: base classes, then the
    non-empty buckets. *)
Definition class_child_names (G : gdb_core) (ty : type_ptr) : list string :=
  (base_class_names G ty ++ map section_name (nonempty_buckets G ty))%list.

(** The number of members of access level [s] among the entries [i ..] of
    a field table. *)
Definition section_count (G : gdb_core) (ty : type_ptr) (s : vsections) (i : Z)
    (l : list field) : Z :=
  Z.of_nat
    (List.length
       (filter (fun f => vsections_eqb (field_access f) s)
          (map snd
             (filter (fun p => negb (is_vptr_field G ty (fst p)))
                (indexed_from i l))))).

(** [n] is the name of an installed object: varobj_get_handle finds it. *)
Definition registered (rg : registry) (n : string) : Prop :=
  chain_find n (varobj_table rg (varobj_hash n)) <> None.

(** Computations that leave the registry alone and can only fail for want
    of a stack. *)
Definition ses_only {A} (c : M A) : Prop :=
  forall st,
    reg (snd (c st)) = reg st
    /\ match fst (c st) with
       | Ret _ => True
       | Throw msg => msg = "No stack."
       | Undefined => False
       end.

(** The hash chains hold each name once. *)
Definition table_ok (tbl : Z -> list vlist) : Prop :=
  forall i, NoDup (map vl_obj_name (tbl i)).

Definition registry_ok (rg : registry) : Prop := table_ok (varobj_table rg).

(** The table after the walk of uninstall_variable for the name [n]. *)
Definition table_unlink (n : string) (tbl : Z -> list vlist) : Z -> list vlist :=
  fun i => if i =? varobj_hash n then chain_unlink n (tbl i) else tbl i.

Definition tables_unlink (names : list string) (tbl : Z -> list vlist) :=
  fold_left (fun t n => table_unlink n t) names tbl.

Definition opt_list {A} (o : option A) : list A :=
  match o with Some a => [a] | None => [] end.

(** The object names in the subtree of [v], in the order in which
    delete_variable_1 reaches them: the subtrees of the children in list
    order, then [v]. *)
Fixpoint subtree_names (v : varobj) : list string :=
  (flat_map subtree_names (children v) ++ opt_list (obj_name v))%list.

(** The objects of the subtree of [v]. *)
Fixpoint subobjects (v : varobj) : list varobj :=
  v :: flat_map subobjects (children v).

(** The object names of the proper descendants of [v]. *)
Definition descendant_names (v : varobj) : list string :=
  flat_map subtree_names (children v).

(** [a] occurs in [l] at a position before an occurrence of [b]. *)
Definition occurs_before (a b : string) (l : list string) : Prop :=
  exists l1 l2, l = (l1 ++ a :: l2)%list /\ In b l2.

(** In [names] every descendant comes before its ancestors. *)
Definition children_first (names : list string) (v : varobj) : Prop :=
  forall u n d, In u (subobjects v) -> obj_name u = Some n ->
                In d (descendant_names u) -> occurs_before d n names.

(** In [names] every object comes before its descendants. *)
Definition parents_first (names : list string) (v : varobj) : Prop :=
  forall u n d, In u (subobjects v) -> obj_name u = Some n ->
                In d (descendant_names u) -> occurs_before n d names.

(** What delete_variable_1 without only_children_p does to its
    accumulator, for an object with the subtree names [names]. *)
Definition deleted_post (names : list string)
    (acc acc' : cpstack * Z * registry) : Prop :=
  let '(stk, cnt, rg) := acc in
  let '(stk', cnt', rg') := acc' in
  stk' = (rev (map Some names) ++ stk)%list
  /\ cnt' = cnt + Z.of_nat (List.length names)
  /\ forall i, varobj_table rg' i = tables_unlink names (varobj_table rg) i.

(** What varobj_create with the object name [n] does, started in [st]. *)
Definition create_named_post (n : string) (st : gdb)
    (res : outcome (option root_var) * gdb) : Prop :=
  (registered (reg st) n ->
   reg (snd res) = reg st
   /\ (fst res = Ret None
       \/ fst res = Throw "Duplicate variable object name"
       \/ fst res = Throw "No stack."))
  /\ (forall v, fst res = Ret (Some v) -> registered (reg (snd res)) n).

(** An element of the change list of an update is explained: when its
    object is not changeable, it has a type-change tag or the root came
    into scope. *)
Definition entry_ok (G : gdb_core) (came_in_scope : bool)
    (e : varobj_changelist_elem) : Prop :=
  varobj_value_is_changeable_p G (cl_var e) = false ->
  cl_type_changed e <> VAROBJ_TYPE_UNCHANGED \/ came_in_scope = true.

(** *** Notions used by the properties of children, creation,
    assignment and update *)

(** rootcount is the length of the list of roots. *)
Definition roots_tally (rg : registry) : Prop :=
  rootcount rg = Z.of_nat (List.length (rootlist rg)).

(** The members that a loop over the entries [i ..] of a field table
    selects: the entries that are not the virtual table pointer and pass
    the access test. *)
Definition selected_members (G : gdb_core) (ty : type_ptr)
    (selected : field -> bool) (i : Z) (l : list field) : list field :=
  map snd
    (filter (fun p => negb (is_vptr_field G ty (fst p)) && selected (snd p))
       (indexed_from i l)).

(** The access test that the loops over a field table apply for a bucket. *)
Definition bucket_test (s : vsections) : field -> bool :=
  match s with
  | v_public_s =>
      fun f => negb (TYPE_FIELD_PROTECTED_bit f) && negb (TYPE_FIELD_PRIVATE_bit f)
  | v_protected_s => TYPE_FIELD_PROTECTED_bit
  | v_private_s => TYPE_FIELD_PRIVATE_bit
  end.

(** The computation [c] leaves the component [f] of the state as it is,
    however it ends. *)
Definition preserves {A X} (f : gdb -> X) (c : M A) : Prop :=
  forall st, f (snd (c st)) = f st.

(** The computation [c] does not end in a read through NULL. *)
Definition defined {A} (c : M A) : Prop :=
  forall st, fst (c st) <> Undefined.

(** The addresses of the objects of the subtree of [v]. *)
Definition tree_addrs (v : varobj) : list ptr := map addr (subobjects v).

(** [v'] is the object [v] and its subtree holds no object that the
    subtree of [v] does not hold. *)
Definition same_objects (v v' : varobj) : Prop :=
  addr v' = addr v /\ incl (tree_addrs v') (tree_addrs v).

(** The walk state [w'] extends [w]: the change list has grown at its end
    by elements for objects with addresses in [S], and [changed] has
    grown by their number. *)
Definition walk_extends (S : list ptr) (w w' : walk) : Prop :=
  exists tail,
    w_result w' = (w_result w ++ tail)%list
    /\ w_changed w' = w_changed w + Z.of_nat (List.length tail)
    /\ Forall (fun e => In (addr (cl_var e)) S) tail.

(** Every name found in [st'] was found in [st]. *)
Definition no_new_names (st st' : gdb) : Prop :=
  forall n, registered (reg st') n -> registered (reg st) n.

(** The relation between the states of the walk before and after the
    visit of the objects with the addresses [S]. *)
Definition walked (S : list ptr) (x y : walk * gdb) : Prop :=
  walk_extends S (fst x) (fst y) /\ no_new_names (snd x) (snd y).

(** The root object that varobj_update walks from, and the walk state it
    starts with, for the handle [varp1], the value [new] and the tag [tc]
    that value_of_root has returned. *)
Definition update_root_step (G : gdb_core) (varp1 : root_var) (new : value)
    (tc : varobj_type_change) (error2 : Z) : varobj * walk :=
  let came_in_scope := negb (in_scope (rv_root varp1)) in
  let var := set_error (rv_var varp1) 0 in
  if negb (type_unchanged tc) then
    (var,
     {| w_result := varobj_add_to_changelist varobj_changelist_init var tc;
        w_changed := 1; w_error2 := error2 |})
  else
    let '(changed_p, error2') :=
      value_changed_test G came_in_scope var (Some new) error2 in
    if changed_p then
      (set_error (set_updated var false) error2',
       {| w_result := varobj_add_to_changelist varobj_changelist_init var tc;
          w_changed := 1; w_error2 := error2' |})
    else
      (var, {| w_result := varobj_changelist_init; w_changed := 0;
               w_error2 := error2' |}).

(** Every name found in [st] is found in [st'], and designates the same
    object there. *)
Definition lookups_kept (st st' : gdb) : Prop :=
  forall m, registered (reg st) m ->
            chain_find m (varobj_table (reg st') (varobj_hash m))
            = chain_find m (varobj_table (reg st) (varobj_hash m)).

(** The sessions [s] and [s'] differ at most in the next free address. *)
Definition same_session (s s' : session) : Prop :=
  deprecated_selected_frame s' = deprecated_selected_frame s
  /\ scheduler_mode s' = scheduler_mode s
  /\ input_radix s' = input_radix s
  /\ innermost_block s' = innermost_block s
  /\ trace s' = trace s.

(** The child [c] is as create_child makes the child [i] of [parent], and
    is found under its object name in [st']. *)
Definition created_child (parent : varobj) (i : Z) (c : varobj) (st' : gdb)
  : Prop :=
  exists pn n,
    obj_name parent = Some pn
    /\ name c = Some n
    /\ obj_name c = Some (pn ++ "." ++ n)%string
    /\ index c = i
    /\ children c = []
    /\ chain_find (pn ++ "." ++ n)%string
         (varobj_table (reg st') (varobj_hash (pn ++ "." ++ n)%string))
       = Some {| vl_var := addr c; vl_obj_name := (pn ++ "." ++ n)%string |}.

(** ** Examples: a small debugger core *)

Module Demo.

(** Types: 1 = int, 2 = struct { int a; int b; }, 3 = int[3],
    4 = class B, 5 = class D : B { public: int n; private: int m; } with a
    virtual table pointer in field 1, 6 = D *, 7 = char. *)
Definition int_t : gdb_type :=
  {| code := TYPE_CODE_INT; length := 4; target_type := None; fields := [];
     n_baseclasses := 0; vptr_basetype := None; vptr_fieldno := -1;
     upper_bound_type := BOUND_SIMPLE |}.

Definition mkfield (n : string) (t : type_ptr) (priv prot : bool) : field :=
  {| field_name := n; field_type := t; field_private := priv;
     field_protected := prot |}.

Definition types (t : type_ptr) : gdb_type :=
  if t =? 2 then
    {| code := TYPE_CODE_STRUCT; length := 8; target_type := None;
       fields := [mkfield "a" 1 false false; mkfield "b" 1 false false];
       n_baseclasses := 0; vptr_basetype := None; vptr_fieldno := -1;
       upper_bound_type := BOUND_SIMPLE |}
  else if t =? 3 then
    {| code := TYPE_CODE_ARRAY; length := 12; target_type := Some 1;
       fields := []; n_baseclasses := 0; vptr_basetype := None;
       vptr_fieldno := -1; upper_bound_type := BOUND_SIMPLE |}
  else if t =? 4 then
    {| code := TYPE_CODE_STRUCT; length := 4; target_type := None;
       fields := [mkfield "x" 1 false false];
       n_baseclasses := 0; vptr_basetype := None; vptr_fieldno := -1;
       upper_bound_type := BOUND_SIMPLE |}
  else if t =? 5 then
    {| code := TYPE_CODE_STRUCT; length := 16; target_type := None;
       fields := [mkfield "B" 4 false false; mkfield "_vptr.D" 1 false false;
                  mkfield "n" 1 false false; mkfield "m" 1 true false];
       n_baseclasses := 1; vptr_basetype := Some 5; vptr_fieldno := 1;
       upper_bound_type := BOUND_SIMPLE |}
  else if t =? 6 then
    {| code := TYPE_CODE_PTR; length := 4; target_type := Some 5;
       fields := []; n_baseclasses := 0; vptr_basetype := None;
       vptr_fieldno := -1; upper_bound_type := BOUND_SIMPLE |}
  else if t =? 7 then
    {| code := TYPE_CODE_INT; length := 1; target_type := None; fields := [];
       n_baseclasses := 0; vptr_basetype := None; vptr_fieldno := -1;
       upper_bound_type := BOUND_SIMPLE |}
  else int_t.

Definition type_names (t : type_ptr) : string :=
  if t =? 2 then "struct {...}" else if t =? 3 then "int [3]"
  else if t =? 4 then "B" else if t =? 5 then "D" else if t =? 6 then "D *"
  else if t =? 7 then "char" else "int".

Definition frame_main : frame_info :=
  {| fi_id := 100; fi_pc := 4096; fi_base := 100; fi_block := None |}.
Definition frame_f : frame_info :=
  {| fi_id := 200; fi_pc := 8200; fi_base := 200;
     fi_block := Some {| startaddr := 8192; endaddr := 8256 |} |}.

Definition mkvalue (i : Z) (t : type_ptr) : value :=
  {| val_id := i; VALUE_TYPE := t; VALUE_LAZY := false |}.

(** A core with two live frames in which every expression parses as a C
    expression and evaluates, in any frame, to the int value 1. *)
Definition core : gdb_core :=
  {| type_at := types;
     check_typedef := fun t => t;
     lookup_pointer_type := fun t => t + 1000;
     lookup_reference_type := fun t => t + 2000;
     type_sprint := type_names;
     varobj_use_dynamic_type := true;
     varobj_runs_all_threads := false;
     parse_exp_1 := fun s _ =>
       Some {| exp_id := 1; first_opcode_is_OP_TYPE := false;
               la_language := language_c |};
     parse_innermost_block := fun _ _ old => old;
     evaluate_expression := fun _ _ => Some (mkvalue 1 1);
     evaluate_type := fun _ _ => Some (mkvalue 0 1);
     gdb_value_fetch_lazy := fun _ => true;
     gdb_value_equal := fun a b => Some (val_id a =? val_id b);
     value_assign := fun _ new => Some new;
     gdb_value_cast := fun _ v => Some v;
     value_cast := fun _ v => Some v;
     gdb_value_subscript := fun _ _ => None;
     gdb_value_struct_elt := fun _ _ => None;
     gdb_value_ind := fun _ => None;
     value_rtti_target_type := fun _ => Some None;
     safe_value_objc_target_type := fun _ _ => (false, None);
     frame_chain := [frame_f; frame_main];
     frame_find_by_id := fun id =>
       if id =? 100 then Some frame_main
       else if id =? 200 then Some frame_f else None;
     reinit_frame_cache := fun sel => sel |}.

Definition plain (a : ptr) (n objn : string) (idx : Z) (t : type_ptr)
    (kids : list varobj) : varobj :=
  Varobj a (Some n) None (Some objn) idx (Some t) None (Some (mkvalue a t)) 0
    (-1) kids false FORMAT_NATURAL false.

(** The root description of an object created for a C expression. *)
Definition c_root : varobj_root :=
  {| root_addr := 2; exp := Some {| exp_id := 1; first_opcode_is_OP_TYPE := false;
                                    la_language := language_c |};
     valid_block := None; frame := null_frame_id;
     use_selected_frame := false; in_scope := true;
     lang := Some vlang_c; rootvar := Some 1 |}.

Definition array_var : varobj := plain 1 "a" "var1" (-1) 3 [].

(** An object of type D * in a C++ program. *)
Definition class_var : varobj := plain 1 "p" "var1" (-1) 6 [].

(** A core in which no value can be read: every comparison fails. *)
Definition unreadable_core : gdb_core :=
  {| type_at := type_at core;
     check_typedef := check_typedef core;
     lookup_pointer_type := lookup_pointer_type core;
     lookup_reference_type := lookup_reference_type core;
     type_sprint := type_sprint core;
     varobj_use_dynamic_type := true;
     varobj_runs_all_threads := false;
     parse_exp_1 := parse_exp_1 core;
     parse_innermost_block := parse_innermost_block core;
     evaluate_expression := evaluate_expression core;
     evaluate_type := evaluate_type core;
     gdb_value_fetch_lazy := fun _ => false;
     gdb_value_equal := fun _ _ => None;
     value_assign := value_assign core;
     gdb_value_cast := gdb_value_cast core;
     value_cast := value_cast core;
     gdb_value_subscript := gdb_value_subscript core;
     gdb_value_struct_elt := gdb_value_struct_elt core;
     gdb_value_ind := gdb_value_ind core;
     value_rtti_target_type := value_rtti_target_type core;
     safe_value_objc_target_type := safe_value_objc_target_type core;
     frame_chain := frame_chain core;
     frame_find_by_id := frame_find_by_id core;
     reinit_frame_cache := reinit_frame_cache core |}.

Definition empty_registry : registry :=
  {| varobj_table := fun _ => []; rootlist := []; rootcount := 0 |}.

Definition session0 : session :=
  {| deprecated_selected_frame := Some frame_main;
     scheduler_mode := scheduler_locking_off; input_radix := 10;
     innermost_block := None; next_addr := 10; trace := [] |}.

Definition state0 : gdb := {| reg := empty_registry; ses := session0 |}.

(** A struct object "var1" with one materialised child "var1.a", both
    installed. *)
Definition child : varobj := plain 3 "a" "var1.a" 0 1 [].
Definition tree : varobj := plain 1 "s" "var1" (-1) 2 [child].
Definition tree_state : gdb :=
  snd (install_variable c_root child
         (snd (install_variable c_root tree state0))).

(** A core in which no expression can be evaluated, while the type of
    every expression is found to be char. *)
Definition failing_core : gdb_core :=
  {| type_at := type_at core;
     check_typedef := check_typedef core;
     lookup_pointer_type := lookup_pointer_type core;
     lookup_reference_type := lookup_reference_type core;
     type_sprint := type_sprint core;
     varobj_use_dynamic_type := true;
     varobj_runs_all_threads := false;
     parse_exp_1 := parse_exp_1 core;
     parse_innermost_block := parse_innermost_block core;
     evaluate_expression := fun _ _ => None;
     evaluate_type := fun _ _ => Some (mkvalue 0 7);
     gdb_value_fetch_lazy := gdb_value_fetch_lazy core;
     gdb_value_equal := gdb_value_equal core;
     value_assign := value_assign core;
     gdb_value_cast := gdb_value_cast core;
     value_cast := value_cast core;
     gdb_value_subscript := gdb_value_subscript core;
     gdb_value_struct_elt := gdb_value_struct_elt core;
     gdb_value_ind := gdb_value_ind core;
     value_rtti_target_type := value_rtti_target_type core;
     safe_value_objc_target_type := safe_value_objc_target_type core;
     frame_chain := frame_chain core;
     frame_find_by_id := frame_find_by_id core;
     reinit_frame_cache := reinit_frame_cache core |}.

Definition c_exp : expression :=
  {| exp_id := 1; first_opcode_is_OP_TYPE := false; la_language := language_c |}.

(** A local int "x" of the function f, watched in the frame of f. *)
Definition local_root : root_var :=
  {| rv_root :=
       {| root_addr := 2; exp := Some c_exp;
          valid_block := Some {| startaddr := 8192; endaddr := 8256 |};
          frame := 200; use_selected_frame := false; in_scope := true;
          lang := Some vlang_c; rootvar := Some 1 |};
     rv_var := plain 1 "x" "var1" (-1) 1 [] |}.

(** "x" watched in whatever frame is selected. *)
Definition floating_root : root_var :=
  {| rv_root :=
       {| root_addr := 2; exp := Some c_exp; valid_block := None;
          frame := 100; use_selected_frame := true; in_scope := true;
          lang := Some vlang_c; rootvar := Some 1 |};
     rv_var := plain 1 "x" "var1" (-1) 1 [] |}.

(** The state in which the object of [h] is the only installed object. *)
Definition installed (h : root_var) : gdb :=
  snd (install_variable (rv_root h) (rv_var h) state0).

(** The struct object "var1" recorded for an expression watched in the
    selected frame, which now evaluates to an int. *)
Definition retyped_root : root_var :=
  {| rv_root :=
       {| root_addr := 2; exp := Some c_exp; valid_block := None;
          frame := 100; use_selected_frame := true; in_scope := true;
          lang := Some vlang_c; rootvar := Some 1 |};
     rv_var := tree |}.

(** The struct object "var1" of a global, last seen out of scope. *)
Definition struct_root : root_var :=
  {| rv_root :=
       {| root_addr := 2; exp := Some c_exp; valid_block := None;
          frame := null_frame_id; use_selected_frame := false; in_scope := false;
          lang := Some vlang_c; rootvar := Some 1 |};
     rv_var := tree |}.

(** The first of two creation requests for the name "var1". *)
Definition first_create : outcome (option root_var) * gdb :=
  varobj_create core (Some "var1") (Some "x") 0 None USE_SELECTED_FRAME state0.

End Demo.

(** ** Examples: children, assignment, update *)

Module Examples.

(** lookup_struct_elt_type over the field tables of [Demo.types]. *)
Definition struct_elt_type (t : type_ptr) (n : string) : option type_ptr :=
  option_map field_type
    (find (fun f => String.eqb (field_name f) n) (fields (Demo.types t))).

(** The core [G] with another type memory. *)
Definition with_types (G : gdb_core) (ty : type_ptr -> gdb_type) : gdb_core :=
  {| type_at := ty;
     check_typedef := check_typedef G;
     lookup_pointer_type := lookup_pointer_type G;
     lookup_reference_type := lookup_reference_type G;
     type_sprint := type_sprint G;
     varobj_use_dynamic_type := varobj_use_dynamic_type G;
     varobj_runs_all_threads := varobj_runs_all_threads G;
     parse_exp_1 := parse_exp_1 G;
     parse_innermost_block := parse_innermost_block G;
     evaluate_expression := evaluate_expression G;
     evaluate_type := evaluate_type G;
     gdb_value_fetch_lazy := gdb_value_fetch_lazy G;
     gdb_value_equal := gdb_value_equal G;
     value_assign := value_assign G;
     gdb_value_cast := gdb_value_cast G;
     value_cast := value_cast G;
     gdb_value_subscript := gdb_value_subscript G;
     gdb_value_struct_elt := gdb_value_struct_elt G;
     gdb_value_ind := gdb_value_ind G;
     value_rtti_target_type := value_rtti_target_type G;
     safe_value_objc_target_type := safe_value_objc_target_type G;
     frame_chain := frame_chain G;
     frame_find_by_id := frame_find_by_id G;
     reinit_frame_cache := reinit_frame_cache G |}.

(** The core [G] with another parser. *)
Definition with_parser (G : gdb_core)
    (p : string -> option block -> option expression) : gdb_core :=
  {| type_at := type_at G;
     check_typedef := check_typedef G;
     lookup_pointer_type := lookup_pointer_type G;
     lookup_reference_type := lookup_reference_type G;
     type_sprint := type_sprint G;
     varobj_use_dynamic_type := varobj_use_dynamic_type G;
     varobj_runs_all_threads := varobj_runs_all_threads G;
     parse_exp_1 := p;
     parse_innermost_block := parse_innermost_block G;
     evaluate_expression := evaluate_expression G;
     evaluate_type := evaluate_type G;
     gdb_value_fetch_lazy := gdb_value_fetch_lazy G;
     gdb_value_equal := gdb_value_equal G;
     value_assign := value_assign G;
     gdb_value_cast := gdb_value_cast G;
     value_cast := value_cast G;
     gdb_value_subscript := gdb_value_subscript G;
     gdb_value_struct_elt := gdb_value_struct_elt G;
     gdb_value_ind := gdb_value_ind G;
     value_rtti_target_type := value_rtti_target_type G;
     safe_value_objc_target_type := safe_value_objc_target_type G;
     frame_chain := frame_chain G;
     frame_find_by_id := frame_find_by_id G;
     reinit_frame_cache := reinit_frame_cache G |}.

(** A core in which no expression parses. *)
Definition no_parse_core : gdb_core := with_parser Demo.core (fun _ _ => None).

(** Type 8: a Java class with the base class java.lang.Object and the
    public member count. *)
Definition java_types (t : type_ptr) : gdb_type :=
  if t =? 8 then
    {| code := TYPE_CODE_STRUCT; length := 8; target_type := None;
       fields := [Demo.mkfield "java.lang.Object" 4 false false;
                  Demo.mkfield "count" 1 false false];
       n_baseclasses := 1; vptr_basetype := None; vptr_fieldno := -1;
       upper_bound_type := BOUND_SIMPLE |}
  else Demo.types t.

Definition java_core : gdb_core := with_types Demo.core java_types.

Definition java_var : varobj := Demo.plain 1 "o" "var1" (-1) 8 [].

(** The struct object "var1" before any of its children is listed, and
    the state in which it is the only installed object. *)
Definition struct_var : varobj := Demo.plain 1 "s" "var1" (-1) 2 [].

Definition struct_state : gdb :=
  snd (install_variable Demo.c_root struct_var Demo.state0).

(** The root description of an object created for a C++ expression. *)
Definition cplus_root : varobj_root :=
  {| root_addr := 2;
     exp := Some {| exp_id := 1; first_opcode_is_OP_TYPE := false;
                    la_language := language_cplus |};
     valid_block := None; frame := null_frame_id;
     use_selected_frame := false; in_scope := true;
     lang := Some vlang_cplus; rootvar := Some 1 |}.

Definition class_state : gdb :=
  snd (install_variable cplus_root Demo.class_var Demo.state0).

(** The fake children "public" and "private" of [Demo.class_var]. *)
Definition bucket_var (a : ptr) (n : string) (idx : Z) : varobj :=
  Varobj a (Some n) None (Some ("var1." ++ n)%string) idx None None None 0
    (-1) [] true FORMAT_NATURAL false.

Definition public_bucket : varobj := bucket_var 4 "public" 1.
Definition private_bucket : varobj := bucket_var 5 "private" 2.

(** An int object whose stored value differs from the value 1 that every
    expression evaluates to. *)
Definition scalar_var : varobj := Demo.plain 5 "x" "var1" (-1) 1 [].

(** A state in which input_radix is 16. *)
Definition hex_state : gdb :=
  {| reg := Demo.empty_registry;
     ses := set_input_radix Demo.session0 16 |}.



(** Type 9: an array of 3000000000 chars, in a core that is [Demo.core]
    otherwise, and an object of that type. *)
Definition huge_types (t : type_ptr) : gdb_type :=
  if t =? 9 then
    {| code := TYPE_CODE_ARRAY; length := 3000000000; target_type := Some 7;
       fields := []; n_baseclasses := 0; vptr_basetype := None;
       vptr_fieldno := -1; upper_bound_type := BOUND_SIMPLE |}
  else Demo.types t.

Definition huge_core : gdb_core := with_types Demo.core huge_types.

Definition huge_array_var : varobj := Demo.plain 1 "big" "var1" (-1) 9 [].

End Examples.

(** * Properties *)

(** ** Child count of the generic/C strategy *)

Section ChildCount.

Variable G : gdb_core.

Lemma c_number_of_children_no_type (var : varobj) :
  get_type G var = None -> c_number_of_children G var = Some (-1).
Proof.
  intros H. unfold c_number_of_children. now rewrite H.
Qed.

Lemma int_of_unsigned_small (z : Z) :
  0 <= z <= INT_MAX -> int_of_unsigned z = z.
Proof.
  unfold int_of_unsigned, INT_MAX. intros H.
  rewrite Z.mod_small by lia. lia.
Qed.

(** Under the generic/C strategy (language unknown or C) the child count
    of an object whose type is known is, as long as the count is at most
    INT_MAX: for an array, length divided by element size when both lengths
    are positive and the upper bound can be determined, else -1; for a
    struct or union its field count; for a pointer to struct or union the
    field count of the pointee; for a pointer to function or void 0; for
    any other pointer 1; for every other type 0.  Array and pointer types
    are assumed to have a target type. *)
Lemma c_number_of_children_spec (r : varobj_root) (parent : option varobj)
    (var : varobj) (ty : type_ptr) :
  lang r = Some vlang_c \/ lang r = Some vlang_unknown ->
  get_type G var = Some ty ->
  (TYPE_CODE G ty = TYPE_CODE_ARRAY \/ TYPE_CODE G ty = TYPE_CODE_PTR ->
   get_target_type G (Some ty) <> None) ->
  generic_child_count G ty <= INT_MAX ->
  number_of_children G r parent var = Some (generic_child_count G ty).
Proof.
  intros Hl Hty Htg.
  assert (Hc : number_of_children G r parent var = c_number_of_children G var).
  { unfold number_of_children. destruct Hl as [-> | ->]; reflexivity. }
  rewrite Hc. unfold c_number_of_children, generic_child_count. rewrite Hty.
  destruct (TYPE_CODE G ty) eqn:Hcode; try (intros _; reflexivity).
  - (* pointer *)
    intros _.
    destruct (get_target_type G (Some ty)) as [tg|] eqn:Ht.
    + destruct (TYPE_CODE G tg); reflexivity.
    + exfalso. apply Htg; auto.
  - (* array *)
    destruct (get_target_type G (Some ty)) as [tg|] eqn:Ht.
    + destruct (0 <? TYPE_LENGTH G ty) eqn:Hl1; [|intros _; reflexivity].
      destruct (0 <? TYPE_LENGTH G tg) eqn:Hl2; [|intros _; reflexivity].
      cbn [andb].
      destruct (negb _); [|intros _; reflexivity].
      intros Hmax. f_equal. apply Z.ltb_lt in Hl1, Hl2.
      rewrite Z.quot_div_nonneg by lia.
      apply int_of_unsigned_small. split; [|exact Hmax].
      apply Z.div_pos; lia.
    + exfalso. apply Htg; auto.
Qed.

End ChildCount.

Lemma c_number_of_children_spec_witness :
  lang Demo.c_root = Some vlang_c
  /\ get_type Demo.core Demo.array_var = Some 3
  /\ number_of_children Demo.core Demo.c_root None Demo.array_var = Some 3.
Proof.
  split; [reflexivity|]. split; [reflexivity|].
  apply (c_number_of_children_spec Demo.core Demo.c_root None Demo.array_var 3).
  - left; reflexivity.
  - reflexivity.
  - intros _; discriminate.
  - vm_compute. discriminate.
Defined.

(** C7.  The child count of an array is not always its length divided by
    the element size.  For an object of the C strategy whose type is an
    array of 3000000000 chars (length 3000000000, element length 1, upper
    bound known) the quotient is 3000000000, and c_number_of_children,
    which stores the unsigned quotient in an int, returns -1294967296:
    neither the quotient nor the -1 that stands for an unknown count. *)
Theorem c_number_of_children_wraps :
  lang Demo.c_root = Some vlang_c
  /\ get_type Examples.huge_core Examples.huge_array_var = Some 9
  /\ TYPE_CODE Examples.huge_core 9 = TYPE_CODE_ARRAY
  /\ TYPE_LENGTH Examples.huge_core 9 = 3000000000
  /\ option_map (TYPE_LENGTH Examples.huge_core)
       (get_target_type Examples.huge_core (Some 9)) = Some 1
  /\ TYPE_ARRAY_UPPER_BOUND_TYPE Examples.huge_core 9 = BOUND_SIMPLE
  /\ generic_child_count Examples.huge_core 9 = 3000000000
  /\ number_of_children Examples.huge_core Demo.c_root None
       Examples.huge_array_var = Some (-1294967296).
Proof.
  (* the type of the object and the quotient of its lengths *)
  repeat (split; [vm_compute; reflexivity|]).
  (* the int that the code returns *)
  unfold number_of_children. cbn [lang Demo.c_root].
  vm_compute. reflexivity.
Qed.

(** ** Children of a C++ class object *)

Section ClassChildren.

Variable G : gdb_core.

Lemma class_num_children_loop_count (ty : type_ptr) (l : list field) :
  forall (i : Z) (k : vsections_count),
    class_num_children_loop G ty l i k =
    {| v_public := v_public k + section_count G ty v_public_s i l;
       v_private := v_private k + section_count G ty v_private_s i l;
       v_protected := v_protected k + section_count G ty v_protected_s i l |}.
Proof.
  induction l as [|f l IH]; intros i k.
  - destruct k; cbn. unfold section_count; cbn. f_equal; lia.
  - cbn [class_num_children_loop]. rewrite IH.
    unfold section_count. cbn [indexed_from filter fst].
    destruct (is_vptr_field G ty i); cbn [negb].
    + reflexivity.
    + cbn [map snd filter]. unfold field_access, TYPE_FIELD_PROTECTED_bit,
        TYPE_FIELD_PRIVATE_bit.
      destruct (field_protected f); [|destruct (field_private f)];
        destruct k; cbn [vsections_eqb set_v_protected set_v_private set_v_public
                         v_public v_private v_protected List.length];
        f_equal; lia.
Qed.

Lemma cplus_class_num_children_buckets (ty : type_ptr) :
  cplus_class_num_children G ty =
  {| v_public := Z.of_nat (List.length (bucket G ty v_public_s));
     v_private := Z.of_nat (List.length (bucket G ty v_private_s));
     v_protected := Z.of_nat (List.length (bucket G ty v_protected_s)) |}.
Proof.
  unfold cplus_class_num_children. rewrite class_num_children_loop_count.
  reflexivity.
Qed.

Lemma length_pos_cons {A} (l : list A) :
  (0 <? Z.of_nat (List.length l)) = match l with [] => false | _ :: _ => true end.
Proof.
  destruct l; [reflexivity|]. cbn [List.length]. apply Z.ltb_lt. lia.
Qed.

Lemma length_nonzero_cons {A} (l : list A) :
  negb (Z.of_nat (List.length l) =? 0) =
  match l with [] => false | _ :: _ => true end.
Proof.
  destruct l; cbn [List.length]; [reflexivity|].
  apply negb_true_iff, Z.eqb_neq. lia.
Qed.

Lemma base_class_names_length (ty : type_ptr) :
  0 <= TYPE_N_BASECLASSES G ty <= TYPE_NFIELDS G ty ->
  List.length (base_class_names G ty) = Z.to_nat (TYPE_N_BASECLASSES G ty).
Proof.
  intros H. unfold base_class_names, TYPE_NFIELDS in *.
  rewrite length_map, length_firstn. lia.
Qed.

Lemma class_child_names_base (ty : type_ptr) (i : Z) :
  0 <= i < TYPE_N_BASECLASSES G ty ->
  TYPE_N_BASECLASSES G ty <= TYPE_NFIELDS G ty ->
  option_map Some (TYPE_FIELD_NAME G ty i) =
  Some (nth_error (class_child_names G ty) (Z.to_nat i)).
Proof.
  intros Hi Hn. unfold TYPE_FIELD_NAME, TYPE_FIELD, class_child_names.
  destruct (i <? 0) eqn:E; [apply Z.ltb_lt in E; lia|].
  rewrite nth_error_app1.
  2:{ rewrite base_class_names_length by lia. lia. }
  unfold base_class_names. rewrite nth_error_map, nth_error_firstn.
  destruct (Nat.ltb_spec (Z.to_nat i) (Z.to_nat (TYPE_N_BASECLASSES G ty)));
    [|lia].
  unfold TYPE_NFIELDS in Hn.
  destruct (nth_error (fields (type_at G ty)) (Z.to_nat i)) eqn:En.
  - reflexivity.
  - apply nth_error_None in En. lia.
Qed.

Lemma class_child_names_section (ty : type_ptr) (i : Z) :
  0 <= TYPE_N_BASECLASSES G ty <= TYPE_NFIELDS G ty ->
  TYPE_N_BASECLASSES G ty <= i ->
  nth_error (class_child_names G ty) (Z.to_nat i) =
  nth_error (map section_name (nonempty_buckets G ty))
    (Z.to_nat (i - TYPE_N_BASECLASSES G ty)).
Proof.
  intros Hn Hi. unfold class_child_names.
  rewrite nth_error_app2 by (rewrite base_class_names_length by lia; lia).
  rewrite base_class_names_length by lia. f_equal. lia.
Qed.

(** C6.  For an object that is not an access-level node and whose type,
    after dereference, is a struct or union with its base classes in the
    first entries of the field table: the C++ child count is the number of
    direct base classes plus the number of non-empty access-level buckets
    (the virtual table pointer belongs to no bucket), and the name of
    child i is the i-th entry of the list made of the base-class names
    followed by the names of the non-empty buckets in the order public,
    private, protected. *)
Theorem cplus_class_children (parent gparent : option varobj) (var : varobj)
    (ty : type_ptr) :
  fake_child var = false ->
  fst (get_type_deref G var) = Some ty ->
  TYPE_CODE G ty = TYPE_CODE_STRUCT \/ TYPE_CODE G ty = TYPE_CODE_UNION ->
  0 <= TYPE_N_BASECLASSES G ty <= TYPE_NFIELDS G ty ->
  cplus_number_of_children G parent var =
    Some (TYPE_N_BASECLASSES G ty
          + Z.of_nat (List.length (nonempty_buckets G ty)))
  /\ forall i : Z,
       0 <= i < TYPE_N_BASECLASSES G ty
                + Z.of_nat (List.length (nonempty_buckets G ty)) ->
       cplus_make_name_of_child G gparent var i =
         Some (nth_error (class_child_names G ty) (Z.to_nat i)).
Proof.
  intros Hfake Hty Hcode Hn. split.
  - unfold cplus_number_of_children, CPLUS_FAKE_CHILD. rewrite Hfake, Hty.
    cbn [negb].
    assert (Hk :
      (let kids := cplus_class_num_children G ty in
       let children := 0 in
       let children := if negb (v_public kids =? 0) then children + 1 else children in
       let children := if negb (v_private kids =? 0) then children + 1 else children in
       let children := if negb (v_protected kids =? 0) then children + 1 else children in
       Some (children + TYPE_N_BASECLASSES G ty)) =
      Some (TYPE_N_BASECLASSES G ty
            + Z.of_nat (List.length (nonempty_buckets G ty)))).
    { cbv zeta. rewrite cplus_class_num_children_buckets.
      cbn [v_public v_private v_protected].
      rewrite !length_nonzero_cons. unfold nonempty_buckets. cbn [filter].
      destruct (bucket G ty v_public_s), (bucket G ty v_private_s),
        (bucket G ty v_protected_s); cbn [List.length]; f_equal; lia. }
    destruct Hcode as [-> | ->]; exact Hk.
  - intros i Hi.
    unfold cplus_make_name_of_child, CPLUS_FAKE_CHILD. rewrite Hfake, Hty.
    assert (Hk :
      (if i <? TYPE_N_BASECLASSES G ty
       then option_map Some (TYPE_FIELD_NAME G ty i)
       else
         let children := cplus_class_num_children G ty in
         let index := i - TYPE_N_BASECLASSES G ty in
         if index =? 0 then
           if 0 <? v_public children then Some (Some "public")
           else if 0 <? v_private children then Some (Some "private")
           else Some (Some "protected")
         else if index =? 1 then
           if 0 <? v_public children then
             if 0 <? v_private children then Some (Some "private")
             else Some (Some "protected")
           else if 0 <? v_private children then Some (Some "protected")
           else Some None
         else if index =? 2 then Some (Some "protected")
         else Some None) =
      Some (nth_error (class_child_names G ty) (Z.to_nat i))).
    { destruct (i <? TYPE_N_BASECLASSES G ty) eqn:Hb.
      - apply Z.ltb_lt in Hb. apply class_child_names_base; lia.
      - apply Z.ltb_ge in Hb. cbv zeta.
        rewrite class_child_names_section by lia.
        rewrite cplus_class_num_children_buckets.
        cbn [v_public v_private v_protected].
        rewrite !length_pos_cons.
        revert Hi. unfold nonempty_buckets. cbn [filter].
        set (j := i - TYPE_N_BASECLASSES G ty).
        assert (Hj : 0 <= j) by (subst j; lia).
        assert (Hij : i = TYPE_N_BASECLASSES G ty + j) by (subst j; lia).
        clearbody j. intros Hi.
        destruct (bucket G ty v_public_s), (bucket G ty v_private_s),
          (bucket G ty v_protected_s); cbn [List.length map section_name] in *;
          try lia;
          (assert (Hc : j = 0 \/ j = 1 \/ j = 2) by lia);
          destruct Hc as [-> | [-> | ->]]; try reflexivity; lia. }
    destruct Hcode as [-> | ->]; exact Hk.
Qed.

End ClassChildren.

Lemma cplus_class_children_witness :
  fake_child Demo.class_var = false
  /\ fst (get_type_deref Demo.core Demo.class_var) = Some 5
  /\ TYPE_CODE Demo.core 5 = TYPE_CODE_STRUCT
  /\ nonempty_buckets Demo.core 5 = [v_public_s; v_private_s]
  /\ cplus_number_of_children Demo.core None Demo.class_var = Some 3
  /\ cplus_make_name_of_child Demo.core None Demo.class_var 0 = Some (Some "B")
  /\ cplus_make_name_of_child Demo.core None Demo.class_var 1 = Some (Some "public")
  /\ cplus_make_name_of_child Demo.core None Demo.class_var 2 = Some (Some "private").
Proof.
  assert (H := cplus_class_children Demo.core None None Demo.class_var 5
                 eq_refl eq_refl (or_introl eq_refl)).
  destruct H as [Hn Hname].
  { vm_compute. split; discriminate. }
  split; [reflexivity|]. split; [reflexivity|]. split; [reflexivity|].
  split; [reflexivity|]. split; [exact Hn|].
  split; [|split].
  - apply (Hname 0). vm_compute. split; [discriminate | reflexivity].
  - apply (Hname 1). vm_compute. split; [discriminate | reflexivity].
  - apply (Hname 2). vm_compute. split; [discriminate | reflexivity].
Defined.

(** ** The safe comparison *)

Section SafeEqual.

Variable G : gdb_core.

(** C8.  my_value_equal always returns a result, 0 or 1, and a setting of
    its out-parameter, 0 or 1 (the function has no error outcome).  Two
    NULL values are equal and exactly one NULL value is unequal, with the
    out-parameter cleared.  For two values the out-parameter tells whether
    the new value fails when compared with itself; when exactly one of the
    two values fails in this way the result is unequal; when both fail,
    and the comparison of the two with each other fails with them, the
    result is equal. *)
Theorem my_value_equal_safe :
  (forall val1 val2 : option value,
     (fst (my_value_equal G val1 val2) = 0 \/ fst (my_value_equal G val1 val2) = 1)
     /\ (snd (my_value_equal G val1 val2) = 0
         \/ snd (my_value_equal G val1 val2) = 1))
  /\ my_value_equal G None None = (1, 0)
  /\ (forall v : value,
        my_value_equal G None (Some v) = (0, 0)
        /\ my_value_equal G (Some v) None = (0, 0))
  /\ (forall v1 v2 : value,
        snd (my_value_equal G (Some v1) (Some v2)) =
        match gdb_value_equal G v2 v2 with None => 1 | Some _ => 0 end)
  /\ (forall v1 v2 : value,
        (gdb_value_equal G v1 v1 = None <-> gdb_value_equal G v2 v2 <> None) ->
        fst (my_value_equal G (Some v1) (Some v2)) = 0)
  /\ (forall v1 v2 : value,
        gdb_value_equal G v1 v1 = None ->
        gdb_value_equal G v2 v2 = None ->
        gdb_value_equal G v1 v2 = None ->
        my_value_equal G (Some v1) (Some v2) = (1, 1)).
Proof.
  split; [|repeat split].
  - intros [v1|] [v2|]; cbn; auto.
    destruct (gdb_value_equal G v1 v1), (gdb_value_equal G v2 v2); cbn; auto;
      destruct (gdb_value_equal G v1 v2) as [[|]|]; cbn; auto.
  - intros v1 v2. unfold my_value_equal.
    destruct (gdb_value_equal G v1 v1), (gdb_value_equal G v2 v2); cbn;
      try reflexivity; destruct (gdb_value_equal G v1 v2) as [[|]|]; reflexivity.
  - intros v1 v2 [H1 H2]. unfold my_value_equal.
    destruct (gdb_value_equal G v1 v1) eqn:E1, (gdb_value_equal G v2 v2) eqn:E2;
      cbn; try reflexivity.
    + exfalso. assert (Hf : Some b = None) by (apply H2; discriminate).
      discriminate.
    + exfalso. apply H1; reflexivity.
  - intros v1 v2 H1 H2 H12. unfold my_value_equal. rewrite H1, H2, H12.
    reflexivity.
Qed.

End SafeEqual.


Lemma my_value_equal_safe_witness :
  gdb_value_equal Demo.unreadable_core (Demo.mkvalue 1 1) (Demo.mkvalue 1 1) = None
  /\ gdb_value_equal Demo.unreadable_core (Demo.mkvalue 2 1) (Demo.mkvalue 2 1) = None
  /\ my_value_equal Demo.unreadable_core
       (Some (Demo.mkvalue 1 1)) (Some (Demo.mkvalue 2 1)) = (1, 1).
Proof.
  split; [reflexivity|]. split; [reflexivity|].
  apply (proj2 (proj2 (proj2 (proj2 (proj2
           (my_value_equal_safe Demo.unreadable_core)))))); reflexivity.
Defined.

(** ** Assignment through an object that cannot be assigned *)

Section SetValue.

Variable G : gdb_core.

(** C10.  When the object has no value, or its language strategy says it
    is not editable, or its error flag is set (and the strategy can tell
    whether it is editable), varobj_set_value returns 1 and leaves the
    object and the whole debugger state as they were: nothing is parsed,
    evaluated or assigned (the trace of such calls is part of the state),
    and value, updated flag and error flag of the object are unchanged. *)
Theorem varobj_set_value_not_assignable (r : varobj_root) (var : varobj)
    (expression : string) (st : gdb) :
  value_ var = None
  \/ variable_editable G r var = Some false
  \/ (variable_editable G r var <> None /\ error var <> 0) ->
  varobj_set_value G r var expression st = (Ret (1, var), st).
Proof.
  intros H. destruct st as [rg ss]; destruct ss.
  unfold varobj_set_value, bind, get_ses, set_restore_scheduler_locking_mode,
    restore_scheduler_locking_mode, put_ses, modify_ses, ret. cbn.
  destruct (value_ var) as [cur|] eqn:Hv; [|reflexivity].
  destruct (variable_editable G r var) as [[|]|] eqn:He.
  - destruct H as [H | [H | [_ H]]]; try discriminate.
    apply Z.eqb_neq in H. rewrite H. reflexivity.
  - reflexivity.
  - destruct H as [H | [H | [H _]]]; try discriminate. now elim H.
Qed.

End SetValue.

Lemma varobj_set_value_not_assignable_witness :
  variable_editable Demo.core Demo.c_root Demo.array_var = Some false
  /\ varobj_set_value Demo.core Demo.c_root Demo.array_var "5" Demo.state0
     = (Ret (1, Demo.array_var), Demo.state0).
Proof.
  split; [reflexivity|].
  apply varobj_set_value_not_assignable. right; left; reflexivity.
Defined.

(** ** The registry *)

Lemma varobj_get_handle_registered (st : gdb) (n : string) :
  registered (reg st) n <->
  exists a, varobj_get_handle n st = (Ret a, st).
Proof.
  unfold registered, varobj_get_handle, bind, get_reg. cbn.
  destruct (chain_find n _) as [cv|]; split.
  - intros _. now exists (vl_var cv).
  - intros _. discriminate.
  - intros H. now elim H.
  - intros [a H]. discriminate.
Qed.

Lemma varobj_get_handle_not_registered (st : gdb) (n : string) :
  ~ registered (reg st) n <->
  varobj_get_handle n st = (Throw "Variable object not found", st).
Proof.
  unfold registered, varobj_get_handle, bind, get_reg. cbn.
  destruct (chain_find n _) as [cv|]; split.
  - intros H. elim H. discriminate.
  - intros H. discriminate.
  - reflexivity.
  - intros _ H. now apply H.
Qed.

Lemma ses_only_ret {A} (a : A) : ses_only (ret a).
Proof. intros st; cbn; auto. Qed.

Lemma ses_only_bind {A B} (c : M A) (k : A -> M B) :
  ses_only c -> (forall a, ses_only (k a)) -> ses_only (bind c k).
Proof.
  intros Hc Hk st. unfold bind. specialize (Hc st).
  destruct (c st) as [[a|msg|] st1]; cbn in *.
  - destruct Hc as [Hr _]. specialize (Hk a st1). rewrite <- Hr. exact Hk.
  - exact Hc.
  - exact Hc.
Qed.

Lemma ses_only_get_ses : ses_only get_ses.
Proof. intros st; cbn; auto. Qed.

Lemma ses_only_put_ses (s : session) : ses_only (put_ses s).
Proof. intros st; cbn; auto. Qed.

Lemma ses_only_modify_ses (f : session -> session) : ses_only (modify_ses f).
Proof. intros st; cbn; auto. Qed.

Lemma ses_only_throw_no_stack {A} : ses_only (@throw A "No stack.").
Proof. intros st; cbn; auto. Qed.

Ltac ses_only_tac :=
  repeat first
    [ apply ses_only_ret
    | apply ses_only_get_ses
    | apply ses_only_put_ses
    | apply ses_only_modify_ses
    | apply ses_only_throw_no_stack
    | apply ses_only_bind; [| intros ?]
    | match goal with
      | |- ses_only (match ?x with _ => _ end) => destruct x
      end ].

Section Create.

Variable G : gdb_core.

Lemma ses_only_new_root_variable : ses_only new_root_variable.
Proof. unfold new_root_variable, new_variable. ses_only_tac. Qed.

Lemma ses_only_select_frame fi : ses_only (select_frame fi).
Proof. unfold select_frame. ses_only_tac. Qed.

Lemma ses_only_get_selected_frame : ses_only (get_selected_frame G).
Proof. unfold get_selected_frame, select_frame. ses_only_tac. Qed.

Lemma ses_only_create_evaluate var ex fi id blk kind :
  ses_only (create_evaluate G var ex fi id blk kind).
Proof.
  unfold create_evaluate, gdb_evaluate_expression, gdb_evaluate_type.
  ses_only_tac;
    try apply ses_only_get_selected_frame; try apply ses_only_select_frame;
    ses_only_tac.
Qed.

Lemma ses_only_create_fill var e fr blk kind :
  ses_only (create_fill G var e fr blk kind).
Proof.
  unfold create_fill, gdb_parse_exp_1.
  ses_only_tac;
    try apply ses_only_create_evaluate; try apply ses_only_select_frame;
    ses_only_tac.
Qed.

End Create.

Lemma table_set_same tbl i c : table_set tbl i c i = c.
Proof. unfold table_set. now rewrite Z.eqb_refl. Qed.

Lemma table_set_other tbl i c j : j <> i -> table_set tbl i c j = tbl j.
Proof. unfold table_set. intros H. apply Z.eqb_neq in H. now rewrite H. Qed.

Lemma install_variable_registered (r : varobj_root) (var : varobj) (n : string)
    (st : gdb) :
  obj_name var = Some n ->
  registered (reg st) n ->
  install_variable r var st = (Throw "Duplicate variable object name", st).
Proof.
  intros Hn Hr. unfold install_variable. rewrite Hn.
  unfold bind, get_reg. unfold registered in Hr.
  destruct (chain_find n _); [reflexivity | now elim Hr].
Qed.

Lemma install_variable_fresh (r : varobj_root) (var : varobj) (n : string)
    (st : gdb) :
  obj_name var = Some n ->
  ~ registered (reg st) n ->
  exists rg', install_variable r var st = (Ret 1, set_reg st rg')
              /\ registered rg' n.
Proof.
  intros Hn Hr. unfold install_variable. rewrite Hn.
  unfold bind, get_reg, put_reg, ret. unfold registered in Hr.
  destruct (chain_find n (varobj_table (reg st) (varobj_hash n))) eqn:E.
  - elim Hr. discriminate.
  - eexists. split; [reflexivity|].
    unfold registered. destruct (is_root_p r var); cbn [varobj_table];
      rewrite table_set_same; cbn; rewrite String.eqb_refl; discriminate.
Qed.


Lemma bind_eq_ret {A B} (c : M A) (k : A -> M B) st a st' :
  c st = (Ret a, st') -> bind c k st = k a st'.
Proof. intros H. unfold bind. now rewrite H. Qed.

Lemma bind_eq_throw {A B} (c : M A) (k : A -> M B) st msg st' :
  c st = (Throw msg, st') -> bind c k st = (Throw msg, st').
Proof. intros H. unfold bind. now rewrite H. Qed.

Lemma bind_eq_undefined {A B} (c : M A) (k : A -> M B) st st' :
  c st = (Undefined, st') -> bind c k st = (Undefined, st').
Proof. intros H. unfold bind. now rewrite H. Qed.

Lemma registered_dec (rg : registry) (n : string) :
  {registered rg n} + {~ registered rg n}.
Proof.
  unfold registered. destruct (chain_find n _).
  - left; discriminate.
  - right; intros H; now apply H.
Qed.

Lemma new_root_variable_ret (st : gdb) :
  exists var st1, new_root_variable st = (Ret var, st1) /\ reg st1 = reg st.
Proof. do 2 eexists. split; reflexivity. Qed.

Section DuplicateName.

Variable G : gdb_core.

Lemma schedlock_cleanup_ret (m : scheduler_locking_mode) (st : gdb) :
  exists st',
    (if varobj_runs_all_threads G then ret tt
     else restore_scheduler_locking_mode m) st = (Ret tt, st')
    /\ reg st' = reg st.
Proof.
  destruct (varobj_runs_all_threads G); eexists; split; reflexivity.
Qed.

Lemma create_install_post (n : string) (m : scheduler_locking_mode)
    (filled : option root_var) (st0 st : gdb) :
  reg st = reg st0 ->
  create_named_post n st0
    (match filled with
     | Some var0 =>
         bind (install_variable
                 (rv_root (with_var var0 (set_obj_name (rv_var var0) (Some n))))
                 (rv_var (with_var var0 (set_obj_name (rv_var var0) (Some n)))))
           (fun ok =>
              if ok =? 0
              then bind (if varobj_runs_all_threads G then ret tt
                         else restore_scheduler_locking_mode m)
                     (fun _ => ret None)
              else bind (if varobj_runs_all_threads G then ret tt
                         else restore_scheduler_locking_mode m)
                     (fun _ => ret (Some (with_var var0
                                            (set_obj_name (rv_var var0) (Some n))))))
     | None =>
         bind (if varobj_runs_all_threads G then ret tt
               else restore_scheduler_locking_mode m)
           (fun _ => ret None)
     end st).
Proof.
  intros Hreg. unfold create_named_post. destruct filled as [var0|].
  - destruct (registered_dec (reg st) n) as [Hr | Hr].
    + rewrite (bind_eq_throw _ _ _ _ _
                 (install_variable_registered
                    (rv_root (with_var var0 (set_obj_name (rv_var var0) (Some n))))
                    (rv_var (with_var var0 (set_obj_name (rv_var var0) (Some n))))
                    n st eq_refl Hr)).
      cbn [fst snd].
      split; [intros _; split; [exact Hreg | auto] | intros v H; discriminate].
    + destruct (install_variable_fresh
                  (rv_root (with_var var0 (set_obj_name (rv_var var0) (Some n))))
                  (rv_var (with_var var0 (set_obj_name (rv_var var0) (Some n))))
                  n st eq_refl Hr) as [rg' [Hi Hr']].
      rewrite (bind_eq_ret _ _ _ _ _ Hi). cbn [Z.eqb].
      destruct (schedlock_cleanup_ret m (set_reg st rg')) as [st' [Hc Hreg']].
      rewrite (bind_eq_ret _ _ _ _ _ Hc). cbn [ret fst snd]. split.
      * intros H. elim Hr. now rewrite Hreg.
      * intros v _. now rewrite Hreg'.
  - destruct (schedlock_cleanup_ret m st) as [st' [Hc Hreg']].
    rewrite (bind_eq_ret _ _ _ _ _ Hc). cbn [ret fst snd]. split.
    + intros _. split; [congruence | auto].
    + intros v H; discriminate.
Qed.

Lemma varobj_create_named (n : string) (e : option string) (fr : CORE_ADDR)
    (blk : option block) (kind : varobj_type) (st : gdb) :
  create_named_post n st (varobj_create G (Some n) e fr blk kind st).
Proof.
  unfold varobj_create. unfold bind at 1.
  destruct (new_root_variable_ret st) as [var [st1 [E1 R1]]]. rewrite E1.
  unfold bind at 1. cbn [get_ses].
  set (m := scheduler_mode (ses st1)).
  unfold bind at 1.
  assert (Hs : exists st2,
             (if varobj_runs_all_threads G then ret tt
              else modify_ses (fun ss0 => set_scheduler_mode ss0 scheduler_locking_on))
               st1 = (Ret tt, st2) /\ reg st2 = reg st).
  { destruct (varobj_runs_all_threads G); eexists; split; try reflexivity;
      exact R1. }
  destruct Hs as [st2 [E2 R2]]. rewrite E2.
  unfold on_error. unfold bind at 1.
  assert (Hf : ses_only (match e with
                         | Some e0 => create_fill G var e0 fr blk kind
                         | None => ret (Some var)
                         end)).
  { destruct e; [apply ses_only_create_fill | apply ses_only_ret]. }
  specialize (Hf st2).
  destruct (match e with
            | Some e0 => create_fill G var e0 fr blk kind
            | None => ret (Some var)
            end st2) as [[filled|msg|] st3]; cbn [fst snd] in Hf;
    destruct Hf as [R3 O3]; try contradiction.
  - pose proof (create_install_post n m filled st st3) as Hp.
    assert (R3' : reg st3 = reg st) by congruence.
    specialize (Hp R3').
    match type of Hp with
    | create_named_post _ _ (?c st3) => destruct (c st3) as [[o|msg|] st4]
    end; try exact Hp.
    destruct (schedlock_cleanup_ret m st4) as [st5 [Hc R5]].
    rewrite Hc. cbn [snd]. unfold create_named_post in *. cbn [fst snd] in *.
    destruct Hp as [Hp1 Hp2]. split.
    + intros Hr. destruct (Hp1 Hr) as [Ha Hb]. split; [congruence | exact Hb].
    + intros v H; discriminate.
  - subst msg. destruct (schedlock_cleanup_ret m st3) as [st5 [Hc R5]].
    rewrite Hc. unfold create_named_post. cbn [fst snd]. split.
    + intros _. split; [congruence | auto].
    + intros v H; discriminate.
Qed.

(** C5.  When a creation request with the object name [n] has succeeded, a
    second creation request with the same name, whatever its expression,
    frame, block and kind, fails: it returns NULL or leaves through
    error (), in particular through "Duplicate variable object name" when
    it reaches install_variable.  The registry after it (hash table, list
    of roots and root count) is the registry before it, so the second
    object is not installed. *)
Theorem duplicate_name_create_fails (n : string)
    (e1 e2 : option string) (fr1 fr2 : CORE_ADDR) (blk1 blk2 : option block)
    (kind1 kind2 : varobj_type) (st0 : gdb) (v1 : root_var) (st1 : gdb) :
  varobj_create G (Some n) e1 fr1 blk1 kind1 st0 = (Ret (Some v1), st1) ->
  (fst (varobj_create G (Some n) e2 fr2 blk2 kind2 st1) = Ret None
   \/ fst (varobj_create G (Some n) e2 fr2 blk2 kind2 st1)
      = Throw "Duplicate variable object name"
   \/ fst (varobj_create G (Some n) e2 fr2 blk2 kind2 st1) = Throw "No stack.")
  /\ reg (snd (varobj_create G (Some n) e2 fr2 blk2 kind2 st1)) = reg st1.
Proof.
  intros H1.
  destruct (varobj_create_named n e1 fr1 blk1 kind1 st0) as [_ Hreg].
  rewrite H1 in Hreg. cbn [fst snd] in Hreg. specialize (Hreg v1 eq_refl).
  destruct (varobj_create_named n e2 fr2 blk2 kind2 st1) as [Hdup _].
  destruct (Hdup Hreg) as [Ha Hb]. split; assumption.
Qed.
End DuplicateName.

(** ** Deletion *)

(** Induction over an object and the children it owns. *)
Lemma varobj_tree_ind (P : varobj -> Prop) :
  (forall v, Forall P (children v) -> P v) -> forall v, P v.
Proof.
  intros H. fix IH 1. intros v. apply H.
  destruct v as [a n p o i t d vl e nc kids f fm u]. cbn [children].
  induction kids as [|c kids IHk]; constructor; [apply IH | exact IHk].
Qed.

Lemma chain_unlink_not_found n c :
  chain_find n c = None -> chain_unlink n c = c.
Proof.
  unfold chain_find. induction c as [|cv c IH]; cbn; [reflexivity|].
  destruct (String.eqb (vl_obj_name cv) n); [discriminate|].
  intros Hf. now rewrite IH.
Qed.

Lemma table_set_unlink n tbl i :
  table_set tbl (varobj_hash n) (chain_unlink n (tbl (varobj_hash n))) i =
  table_unlink n tbl i.
Proof.
  unfold table_set, table_unlink.
  destruct (i =? varobj_hash n) eqn:Ei; [|reflexivity].
  apply Z.eqb_eq in Ei. now subst i.
Qed.

Lemma uninstall_variable_table r v n rg i :
  varobj_table (uninstall_variable r v n rg) i = table_unlink n (varobj_table rg) i.
Proof.
  unfold uninstall_variable.
  destruct (chain_find n (varobj_table rg (varobj_hash n))) eqn:E.
  - destruct (is_root_p r v).
    + destruct (rootlist rg) as [|c rest]; cbn [varobj_table];
        [apply table_set_unlink|].
      destruct (rc_root c =? root_addr r); [apply table_set_unlink|].
      destruct (opt_ptr_eqb _ _); [apply table_set_unlink|].
      destruct (root_unlink _ _); apply table_set_unlink.
    + apply table_set_unlink.
  - unfold table_unlink. destruct (i =? varobj_hash n) eqn:Ei; [|reflexivity].
    apply Z.eqb_eq in Ei. subst i. now rewrite chain_unlink_not_found.
Qed.

Lemma table_unlink_ext n t1 t2 :
  (forall i, t1 i = t2 i) -> forall i, table_unlink n t1 i = table_unlink n t2 i.
Proof. intros H i. unfold table_unlink. now rewrite !H. Qed.

Lemma tables_unlink_ext names : forall t1 t2,
  (forall i, t1 i = t2 i) -> forall i, tables_unlink names t1 i = tables_unlink names t2 i.
Proof.
  induction names as [|n names IH]; intros t1 t2 H i; cbn; [apply H|].
  apply IH. now apply table_unlink_ext.
Qed.

Lemma tables_unlink_app a b t :
  tables_unlink (a ++ b) t = tables_unlink b (tables_unlink a t).
Proof. unfold tables_unlink. now rewrite fold_left_app. Qed.

Lemma deleted_post_refl acc : deleted_post [] acc acc.
Proof. destruct acc as [[stk cnt] rg]. cbn. repeat split; lia. Qed.

Lemma deleted_post_trans a b acc1 acc2 acc3 :
  deleted_post a acc1 acc2 -> deleted_post b acc2 acc3 ->
  deleted_post (a ++ b) acc1 acc3.
Proof.
  destruct acc1 as [[s1 c1] r1], acc2 as [[s2 c2] r2], acc3 as [[s3 c3] r3].
  cbn. intros [Hs1 [Hc1 Ht1]] [Hs2 [Hc2 Ht2]]. repeat split.
  - subst. rewrite map_app, rev_app_distr, app_assoc. reflexivity.
  - rewrite length_app. lia.
  - intros i. rewrite Ht2, tables_unlink_app. now apply tables_unlink_ext.
Qed.

Lemma delete_children_post r (l : list varobj) (b : bool) :
  Forall (fun v => forall rfp acc,
            deleted_post (subtree_names v) acc (delete_variable_1 r v false rfp acc)) l ->
  forall acc,
    deleted_post (flat_map subtree_names l) acc
      (fold_left (fun acc vc => delete_variable_1 r vc false b acc) l acc).
Proof.
  induction 1 as [|c l Hc Hl IH]; intros acc; cbn [fold_left flat_map].
  - apply deleted_post_refl.
  - eapply deleted_post_trans; [apply Hc | apply IH].
Qed.

Lemma delete_variable_1_eq r v ocp rfp acc :
  delete_variable_1 r v ocp rfp acc =
  let acc1 := fold_left (fun acc vc => delete_variable_1 r vc false ocp acc)
                (children v) acc in
  if ocp then acc1
  else match obj_name v with
       | None => acc1
       | Some n =>
           let '(resultp, delcount, rg) := acc1 in
           (cppush resultp (Some n), delcount + 1, uninstall_variable r v n rg)
       end.
Proof. destruct v; reflexivity. Qed.

Lemma delete_variable_1_post r (v : varobj) :
  forall rfp acc,
    deleted_post (subtree_names v) acc (delete_variable_1 r v false rfp acc).
Proof.
  induction v as [v IH] using varobj_tree_ind. intros rfp acc.
  rewrite delete_variable_1_eq. cbv zeta. cbn [negb].
  assert (Hn : subtree_names v =
               (flat_map subtree_names (children v) ++ opt_list (obj_name v))%list)
    by (destruct v; reflexivity).
  rewrite Hn.
  pose proof (delete_children_post r (children v) false IH acc) as Hk.
  destruct (obj_name v) as [n|]; cbn [opt_list].
  - eapply deleted_post_trans; [exact Hk|].
    destruct (fold_left _ _ _) as [[s c] rg]. cbn. repeat split; try lia.
    intros i. apply uninstall_variable_table.
  - rewrite app_nil_r. exact Hk.
Qed.

(** The loop of varobj_delete, one cppop at a time. *)
Lemma dellist_loop_cppop (result : cpstack) (mycount : Z) :
  dellist_loop result mycount =
  match cppop result with
  | None => None
  | Some (None, _) => Some []
  | Some (Some n, rest) =>
      if 0 <? mycount
      then option_map (cons n) (dellist_loop rest (mycount - 1))
      else Some [n]
  end.
Proof.
  destruct result as [|[n|] [|x rest]]; reflexivity.
Qed.

Lemma dellist_loop_all (l : list string) :
  forall (rest : cpstack) (k : Z),
    Z.of_nat (List.length l) <= k ->
    dellist_loop (map Some l ++ None :: rest)%list k = Some l.
Proof.
  induction l as [|n l IH]; intros rest k Hk; cbn [map app dellist_loop].
  - reflexivity.
  - cbn [List.length] in Hk.
    destruct (0 <? k) eqn:E; [|apply Z.ltb_ge in E; lia].
    rewrite IH by lia. reflexivity.
Qed.

Lemma chain_find_unlink_other n m c :
  n <> m -> chain_find n (chain_unlink m c) = chain_find n c.
Proof.
  intros Hnm. unfold chain_find. induction c as [|cv c IH]; cbn; [reflexivity|].
  destruct (String.eqb (vl_obj_name cv) m) eqn:Em.
  - apply String.eqb_eq in Em.
    destruct (String.eqb (vl_obj_name cv) n) eqn:En; [|reflexivity].
    apply String.eqb_eq in En. congruence.
  - cbn. now rewrite IH.
Qed.

Lemma chain_find_none_iff n c :
  chain_find n c = None <-> ~ In n (map vl_obj_name c).
Proof.
  unfold chain_find. induction c as [|cv c IH]; cbn.
  - split; auto.
  - destruct (String.eqb (vl_obj_name cv) n) eqn:En.
    + apply String.eqb_eq in En. split; [discriminate | intros H; elim H; auto].
    + apply String.eqb_neq in En. rewrite IH. tauto.
Qed.

Lemma chain_find_unlink_same n c :
  NoDup (map vl_obj_name c) -> chain_find n (chain_unlink n c) = None.
Proof.
  induction c as [|cv c IH]; cbn; intros Hd; [reflexivity|].
  inversion Hd as [|x l Hx Hl]; subst.
  destruct (String.eqb (vl_obj_name cv) n) eqn:En.
  - apply String.eqb_eq in En. subst n. now apply chain_find_none_iff.
  - unfold chain_find in *. cbn. rewrite En. now apply IH.
Qed.

Lemma chain_unlink_incl m c x :
  In x (map vl_obj_name (chain_unlink m c)) -> In x (map vl_obj_name c).
Proof.
  induction c as [|cv c IH]; cbn; [auto|].
  destruct (String.eqb (vl_obj_name cv) m); cbn; intuition.
Qed.

Lemma chain_unlink_nodup m c :
  NoDup (map vl_obj_name c) -> NoDup (map vl_obj_name (chain_unlink m c)).
Proof.
  induction c as [|cv c IH]; cbn; intros Hd; [constructor|].
  inversion Hd as [|x l Hx Hl]; subst.
  destruct (String.eqb (vl_obj_name cv) m); [assumption|].
  cbn. constructor; [|now apply IH].
  intros Hin. apply Hx. eapply chain_unlink_incl; eauto.
Qed.

Lemma table_unlink_ok m tbl : table_ok tbl -> table_ok (table_unlink m tbl).
Proof.
  intros H i. unfold table_unlink.
  destruct (i =? varobj_hash m); [apply chain_unlink_nodup|]; apply H.
Qed.

Lemma table_unlink_find_other n m tbl :
  n <> m ->
  chain_find n (table_unlink m tbl (varobj_hash n)) =
  chain_find n (tbl (varobj_hash n)).
Proof.
  intros Hnm. unfold table_unlink.
  destruct (varobj_hash n =? varobj_hash m); [|reflexivity].
  now apply chain_find_unlink_other.
Qed.

Lemma table_unlink_find_same n tbl :
  table_ok tbl -> chain_find n (table_unlink n tbl (varobj_hash n)) = None.
Proof.
  intros H. unfold table_unlink. rewrite Z.eqb_refl.
  apply chain_find_unlink_same, H.
Qed.

Lemma table_unlink_find_none n m tbl :
  chain_find n (tbl (varobj_hash n)) = None ->
  chain_find n (table_unlink m tbl (varobj_hash n)) = None.
Proof.
  intros H. destruct (string_dec n m) as [-> | Hnm].
  - unfold table_unlink. rewrite Z.eqb_refl.
    now rewrite chain_unlink_not_found.
  - now rewrite table_unlink_find_other.
Qed.

Lemma tables_unlink_cons m names tbl :
  tables_unlink (m :: names) tbl = tables_unlink names (table_unlink m tbl).
Proof. reflexivity. Qed.

Lemma tables_unlink_find_none names : forall n tbl,
  chain_find n (tbl (varobj_hash n)) = None ->
  chain_find n (tables_unlink names tbl (varobj_hash n)) = None.
Proof.
  induction names as [|m names IH]; intros n tbl H; [exact H|].
  rewrite tables_unlink_cons. apply IH. now apply table_unlink_find_none.
Qed.

Lemma tables_unlink_find_other names : forall n tbl,
  ~ In n names ->
  chain_find n (tables_unlink names tbl (varobj_hash n)) =
  chain_find n (tbl (varobj_hash n)).
Proof.
  induction names as [|m names IH]; intros n tbl H; [reflexivity|].
  rewrite tables_unlink_cons. cbn in H. rewrite IH by tauto.
  apply table_unlink_find_other. intros ->. tauto.
Qed.

Lemma tables_unlink_find_same names : forall n tbl,
  table_ok tbl -> In n names ->
  chain_find n (tables_unlink names tbl (varobj_hash n)) = None.
Proof.
  induction names as [|m names IH]; intros n tbl Hok Hin; [destruct Hin|].
  rewrite tables_unlink_cons.
  destruct (string_dec n m) as [-> | Hnm].
  - apply tables_unlink_find_none. now apply table_unlink_find_same.
  - apply IH; [now apply table_unlink_ok|].
    destruct Hin as [-> | Hin]; [congruence | exact Hin].
Qed.

Lemma subtree_names_eq v :
  subtree_names v =
  (flat_map subtree_names (children v) ++ opt_list (obj_name v))%list.
Proof. destruct v; reflexivity. Qed.

Lemma subobjects_eq v :
  subobjects v = v :: flat_map subobjects (children v).
Proof. destruct v; reflexivity. Qed.

Lemma occurs_before_embed a b l pre post :
  occurs_before a b l -> occurs_before a b (pre ++ l ++ post).
Proof.
  intros [l1 [l2 [-> Hin]]]. exists (pre ++ l1)%list, (l2 ++ post)%list.
  split.
  - now rewrite <- !app_assoc.
  - apply in_or_app; auto.
Qed.

Lemma rev_flat_map_split {A B} (f : A -> list B) (l : list A) (x : A) :
  In x l -> exists pre post, rev (flat_map f l) = (pre ++ rev (f x) ++ post)%list.
Proof.
  induction l as [|y l IH]; intros Hin; [destruct Hin|].
  cbn [flat_map]. rewrite rev_app_distr.
  destruct Hin as [-> | Hin].
  - exists (rev (flat_map f l)), []. now rewrite app_nil_r.
  - destruct (IH Hin) as [pre [post E]]. rewrite E.
    exists pre, (post ++ rev (f y))%list. now rewrite <- !app_assoc.
Qed.

Lemma parents_first_rev (v : varobj) :
  parents_first (rev (subtree_names v)) v.
Proof.
  induction v as [v IH] using varobj_tree_ind.
  intros u n d Hu Hn Hd. rewrite subobjects_eq in Hu.
  rewrite subtree_names_eq, rev_app_distr.
  destruct Hu as [<- | Hu].
  - rewrite Hn. cbn [opt_list rev app]. exists [], (rev (flat_map subtree_names (children v))).
    split; [reflexivity|]. apply -> in_rev. exact Hd.
  - apply in_flat_map in Hu. destruct Hu as [c [Hc Hu]].
    rewrite Forall_forall in IH. specialize (IH c Hc u n d Hu Hn Hd).
    destruct (rev_flat_map_split subtree_names (children v) c Hc) as [pre [post E]].
    rewrite E.
    replace (rev (opt_list (obj_name v)) ++ pre ++ rev (subtree_names c) ++ post)%list
      with ((rev (opt_list (obj_name v)) ++ pre) ++ rev (subtree_names c) ++ post)%list
      by now rewrite <- app_assoc.
    now apply occurs_before_embed.
Qed.

Lemma varobj_delete_eq r var st :
  varobj_delete r var true false st =
  let '(result, delcount, rg') :=
    delete_variable_1 r var false true ([None], 0, reg st) in
  match dellist_loop result delcount with
  | None => (Undefined, set_reg st rg')
  | Some names => (Ret (delcount, Some names, None), set_reg st rg')
  end.
Proof.
  unfold varobj_delete, delete_variable, bind, get_reg, put_reg, cppush.
  cbv beta zeta. unfold cpstack.
  destruct (delete_variable_1 r var false true ([None], 0, reg st)) as [[s c] rg'].
  cbn. destruct (dellist_loop s c); reflexivity.
Qed.

(** C3, as the code has it.  For an object whose subtree holds each object
    name once, all of them installed in a registry without duplicate
    names, varobj_delete with only_children false returns as count the
    number of names it removed from the registry, and a list that holds
    every object name of the subtree exactly once and is the reverse of
    the order of deletion: every object comes before its descendants.  The
    names of the list are exactly the names that were installed before and
    are not installed afterwards, so looking any of them up fails. *)
Theorem varobj_delete_parents_first (r : varobj_root) (var : varobj) (st : gdb) :
  registry_ok (reg st) ->
  NoDup (subtree_names var) ->
  (forall n, In n (subtree_names var) -> registered (reg st) n) ->
  exists st',
    varobj_delete r var true false st =
      (Ret (Z.of_nat (List.length (subtree_names var)),
            Some (rev (subtree_names var)), None), st')
    /\ NoDup (rev (subtree_names var))
    /\ parents_first (rev (subtree_names var)) var
    /\ (forall n, In n (rev (subtree_names var)) <->
                  registered (reg st) n /\ ~ registered (reg st') n).
Proof.
  intros Hok Hnd Hreg. rewrite varobj_delete_eq.
  pose proof (delete_variable_1_post r var true ([None], 0, reg st)) as Hp.
  destruct (delete_variable_1 r var false true ([None], 0, reg st))
    as [[s c] rg'].
  cbn in Hp. destruct Hp as [Hs [Hc Ht]]. subst s c.
  rewrite <- map_rev, dellist_loop_all by (rewrite length_rev; lia).
  try rewrite Z.add_0_l. eexists. split; [reflexivity|].
  split; [now apply NoDup_rev|]. split; [apply parents_first_rev|].
  intros n. cbn [reg set_reg]. unfold registered. rewrite Ht. split.
  - intros Hin. apply in_rev in Hin. split; [now apply Hreg|].
    intros H. apply H. now apply tables_unlink_find_same.
  - intros [H1 H2]. apply -> in_rev.
    destruct (in_dec string_dec n (subtree_names var)) as [Hin | Hin];
      [exact Hin|].
    exfalso. apply H2. now rewrite tables_unlink_find_other.
Qed.

Lemma registry_ok_install r var st :
  registry_ok (reg st) -> registry_ok (reg (snd (install_variable r var st))).
Proof.
  intros Hok. unfold install_variable.
  destruct (obj_name var) as [n|]; [|exact Hok].
  unfold bind, get_reg. cbn.
  destruct (chain_find n (varobj_table (reg st) (varobj_hash n))) eqn:E;
    [exact Hok|].
  cbn. intros i.
  assert (Hi : NoDup (map vl_obj_name
                        (table_set (varobj_table (reg st)) (varobj_hash n)
                           ({| vl_var := addr var; vl_obj_name := n |}
                              :: varobj_table (reg st) (varobj_hash n)) i))).
  { unfold table_set. destruct (i =? varobj_hash n) eqn:Ei; [|apply Hok].
    cbn. constructor; [|apply Hok]. now apply chain_find_none_iff. }
  destruct (is_root_p r var); exact Hi.
Qed.


Lemma registry_ok_empty : registry_ok Demo.empty_registry.
Proof. intros i. constructor. Qed.

Lemma varobj_delete_parents_first_witness :
  registry_ok (reg Demo.tree_state)
  /\ NoDup (subtree_names Demo.tree)
  /\ fst (varobj_delete Demo.c_root Demo.tree true false Demo.tree_state)
     = Ret (2, Some ["var1"; "var1.a"], None).
Proof.
  assert (Hok : registry_ok (reg Demo.tree_state)).
  { unfold Demo.tree_state. do 2 apply registry_ok_install.
    apply registry_ok_empty. }
  assert (Hnd : NoDup (subtree_names Demo.tree)).
  { cbn. repeat constructor; cbn; intuition discriminate. }
  split; [exact Hok|]. split; [exact Hnd|].
  destruct (varobj_delete_parents_first Demo.c_root Demo.tree Demo.tree_state
              Hok Hnd) as [st' [E _]].
  - intros n Hin. cbn in Hin.
    destruct Hin as [<- | [<- | []]]; vm_compute; discriminate.
  - rewrite E. reflexivity.
Defined.

(** C3 as stated fails: for "var1" with the child "var1.a" the list is
    "var1", "var1.a", where the descendant comes after its ancestor. *)
Lemma varobj_delete_not_children_first :
  fst (varobj_delete Demo.c_root Demo.tree true false Demo.tree_state)
    = Ret (2, Some ["var1"; "var1.a"], None)
  /\ ~ children_first ["var1"; "var1.a"] Demo.tree.
Proof.
  split; [vm_compute; reflexivity|].
  intros H.
  destruct (H Demo.tree "var1" "var1.a") as [l1 [l2 [E Hin]]].
  - left; reflexivity.
  - reflexivity.
  - left; reflexivity.
  - destruct l1 as [|x [|y l1]]; cbn in E.
    + discriminate.
    + inversion E; subst. destruct Hin.
    + inversion E as [[Hx Hy]]. destruct l1; discriminate.
Qed.

(** ** Update *)

Lemma bind_ret_inv {A B} (c : M A) (k : A -> M B) st b st' :
  bind c k st = (Ret b, st') ->
  exists a st1, c st = (Ret a, st1) /\ k a st1 = (Ret b, st').
Proof.
  unfold bind. destruct (c st) as [[a|msg|] st1]; intros H; try discriminate.
  now exists a, st1.
Qed.

Lemma on_error_ret_inv {A} (c : M A) (cl : M unit) st a st' :
  on_error c cl st = (Ret a, st') -> c st = (Ret a, st').
Proof.
  unfold on_error. destruct (c st) as [[x|msg|] st1]; intros H;
    try discriminate; exact H.
Qed.

Ltac minv_prim H :=
  first
    [ apply bind_ret_inv in H;
      let a := fresh "a" in let s := fresh "s" in let H1 := fresh "E" in
      destruct H as (a & s & H1 & H)
    | apply on_error_ret_inv in H
    | (unfold ret, get_ses, put_ses, modify_ses, get_reg, put_reg, throw,
         undefined, lift in H; progress (inversion H; subst; clear H)) ].

Ltac minv :=
  repeat match goal with
    | H : bind _ _ _ = (Ret _, _) |- _ => minv_prim H
    | H : on_error _ _ _ = (Ret _, _) |- _ => minv_prim H
    | H : ret _ _ = (Ret _, _) |- _ => inversion H; subst; clear H
    | H : get_ses _ = (Ret _, _) |- _ => inversion H; subst; clear H
    | H : put_ses _ _ = (Ret _, _) |- _ => inversion H; subst; clear H
    | H : modify_ses _ _ = (Ret _, _) |- _ => inversion H; subst; clear H
    | H : get_reg _ = (Ret _, _) |- _ => inversion H; subst; clear H
    | H : put_reg _ _ = (Ret _, _) |- _ => inversion H; subst; clear H
    | H : throw _ _ = (Ret _, _) |- _ => discriminate H
    | H : undefined _ = (Ret _, _) |- _ => discriminate H
    | H : select_frame _ _ = (Ret _, _) |- _ =>
        unfold select_frame in H
    | H : (match ?x with _ => _ end) _ = (Ret _, _) |- _ =>
        let E := fresh "E" in destruct x eqn:E
    | H : (if ?x then _ else _) _ = (Ret _, _) |- _ =>
        let E := fresh "E" in destruct x eqn:E
    end.



Lemma ses_only_on_error {A} (c : M A) (cl : M unit) :
  ses_only c -> ses_only cl -> ses_only (on_error c cl).
Proof.
  intros Hc Hcl st. unfold on_error. specialize (Hc st).
  destruct (c st) as [[a|msg|] st1]; cbn in *; try exact Hc.
  destruct Hc as [Hr Hm]. split; [|exact Hm].
  destruct (Hcl st1) as [Hr' _]. congruence.
Qed.

Lemma delete_variable_1_children_post r v rfp acc :
  deleted_post (descendant_names v) acc (delete_variable_1 r v true rfp acc).
Proof.
  rewrite delete_variable_1_eq. cbv zeta. cbn match.
  apply delete_children_post. apply Forall_forall. intros c _ rfp' acc'.
  apply delete_variable_1_post.
Qed.

Lemma varobj_delete_table r v wl oc st x st' :
  varobj_delete r v wl oc st = (Ret x, st') ->
  ses st' = ses st
  /\ forall i, varobj_table (reg st') i =
               tables_unlink (if oc then descendant_names v else subtree_names v)
                 (varobj_table (reg st)) i.
Proof.
  unfold varobj_delete, delete_variable. intros H. minv.
  all: match goal with
       | H : context [delete_variable_1 ?r ?v ?oc ?rfp ?acc] |- _ =>
           pose proof (delete_variable_1_children_post r v rfp acc) as Hc;
           pose proof (delete_variable_1_post r v rfp acc) as Hn;
           destruct (delete_variable_1 r v oc rfp acc) as [[stk cnt] rg'] eqn:Ed
       end.
  all: minv; cbn [reg ses set_reg].
  all: repeat match goal with
         | H : (_, _) = (_, _) |- _ => inversion H; subst; clear H
         end.
  all: split; [reflexivity|].
  all: destruct oc;
    [ rewrite Ed in Hc; destruct Hc as (_ & _ & Ht); exact Ht
    | rewrite Ed in Hn; destruct Hn as (_ & _ & Ht); exact Ht ].
Qed.

Lemma table_set_cons_find_other tbl n a d :
  d <> n ->
  chain_find d
    (table_set tbl (varobj_hash n)
       ({| vl_var := a; vl_obj_name := n |} :: tbl (varobj_hash n))
       (varobj_hash d)) =
  chain_find d (tbl (varobj_hash d)).
Proof.
  intros Hd. unfold table_set.
  destruct (varobj_hash d =? varobj_hash n) eqn:Eh; [|reflexivity].
  apply Z.eqb_eq in Eh. rewrite Eh. unfold chain_find. cbn.
  destruct (String.eqb n d) eqn:En; [|reflexivity].
  apply String.eqb_eq in En. congruence.
Qed.

Lemma install_variable_find_other r var n st k st' d :
  install_variable r var st = (Ret k, st') ->
  obj_name var = Some n -> d <> n ->
  chain_find d (varobj_table (reg st') (varobj_hash d)) =
  chain_find d (varobj_table (reg st) (varobj_hash d)).
Proof.
  unfold install_variable. intros H Hn Hd. rewrite Hn in H. minv.
  cbn [reg set_reg]. destruct (is_root_p r var); cbn [varobj_table];
    now apply table_set_cons_find_other.
Qed.

Lemma tables_unlink_ok names : forall tbl,
  table_ok tbl -> table_ok (tables_unlink names tbl).
Proof.
  induction names as [|m names IH]; intros tbl H; [exact H|].
  rewrite tables_unlink_cons. apply IH. now apply table_unlink_ok.
Qed.

Lemma unlinked_find_none tbl tbl' names d :
  (forall i, tbl' i = tables_unlink names tbl i) ->
  chain_find d (tbl (varobj_hash d)) = None ->
  chain_find d (tbl' (varobj_hash d)) = None.
Proof. intros H Hf. rewrite H. now apply tables_unlink_find_none. Qed.

Lemma unlinked_find_same tbl tbl' names d :
  (forall i, tbl' i = tables_unlink names tbl i) ->
  table_ok tbl -> In d names ->
  chain_find d (tbl' (varobj_hash d)) = None.
Proof. intros H Hok Hin. rewrite H. now apply tables_unlink_find_same. Qed.

Lemma unlinked_ok tbl tbl' names :
  (forall i, tbl' i = tables_unlink names tbl i) ->
  table_ok tbl -> table_ok tbl'.
Proof. intros H Hok i. rewrite H. now apply tables_unlink_ok. Qed.

Lemma descendant_in_subtree v d :
  In d (descendant_names v) -> In d (subtree_names v).
Proof.
  intros H. rewrite subtree_names_eq. apply in_or_app. now left.
Qed.

Lemma descendant_not_self v d n :
  NoDup (subtree_names v) -> obj_name v = Some n ->
  In d (descendant_names v) -> d <> n.
Proof.
  intros Hnd Hn Hd ->. rewrite subtree_names_eq, Hn in Hnd. cbn in Hnd.
  apply NoDup_remove_2 in Hnd. apply Hnd. rewrite app_nil_r. exact Hd.
Qed.

Section Update.

Variable G : gdb_core.

Lemma create_evaluate_children var ex fi id blk kind st var' old st' :
  create_evaluate G var ex fi id blk kind st = (Ret (var', old), st') ->
  children (rv_var var') = children (rv_var var).
Proof.
  unfold create_evaluate, gdb_evaluate_expression, gdb_evaluate_type,
    get_selected_frame.
  intros H. minv; reflexivity.
Qed.

Lemma create_fill_children var e fr blk kind st var' st' :
  create_fill G var e fr blk kind st = (Ret (Some var'), st') ->
  children (rv_var var') = children (rv_var var).
Proof.
  unfold create_fill, gdb_parse_exp_1.
  intros H. minv;
    try match goal with
      | H : create_evaluate _ _ _ _ _ _ _ _ = _ |- _ =>
          apply create_evaluate_children in H
      end; cbn in *; try congruence;
    destruct (varobj_type_eqb kind USE_SELECTED_FRAME); cbn in *; congruence.
Qed.

Lemma varobj_create_children objname e fr blk kind st var st' :
  varobj_create G objname e fr blk kind st = (Ret (Some var), st') ->
  children (rv_var var) = [].
Proof.
  unfold varobj_create, new_root_variable, new_variable,
    restore_scheduler_locking_mode.
  intros H. minv;
    try match goal with
      | H : create_fill _ _ _ _ _ _ _ = _ |- _ =>
          apply create_fill_children in H
      end; cbn in *; try congruence.
  all: try match goal with
      | H : install_variable _ _ _ = _ |- _ => clear H
       end.
Qed.

Lemma varobj_delete_survivor r v wl st n names sv st' :
  varobj_delete r v wl true st = (Ret (n, names, sv), st') ->
  sv = Some (set_children v []).
Proof.
  unfold varobj_delete, delete_variable. intros H. minv.
  all: destruct (delete_variable_1 _ _ _ _ _) as [[? ?] ?]; minv; reflexivity.
Qed.

Lemma c_value_of_root_cases h tc st new h' tc' st' :
  c_value_of_root G h tc st = (Ret (Some new, h', tc'), st') ->
  rv_root h' = rv_root h
  /\ ((tc' = tc /\ children (rv_var h') = children (rv_var h))
      \/ (tc' = VAROBJ_DYNAMIC_TYPE_CHANGED /\ children (rv_var h') = [])).
Proof.
  unfold c_value_of_root, set_restore_scheduler_locking_mode,
    restore_scheduler_locking_mode, gdb_evaluate_expression.
  intros H. minv.
  all: try match goal with
         | H : varobj_delete _ _ _ _ _ = _ |- _ =>
             apply varobj_delete_survivor in H; subst
       end.
  all: repeat match goal with
         | H : (let '(_, _) := ?x in _) = _ |- _ => destruct x
         | H : (let '(_, _) := ?x in _) _ = _ |- _ => destruct x
         end.
  all: minv.
  all: cbn; split; [reflexivity|].
  all: repeat match goal with
         | H : (if ?b then _ else _) = (_, _) |- _ => destruct b
         | H : (let '(_, _) := ?x in _) = (_, _) |- _ => destruct x
         | H : (_, _) = (_, _) |- _ => inversion H; subst; clear H
         end.
  all: cbn; auto.
Qed.

Lemma value_of_root_cases h tc0 st new h' tc' st' :
  value_of_root G h tc0 st = (Ret (Some new, h', tc'), st') ->
  (tc' = VAROBJ_TYPE_UNCHANGED /\ in_scope (rv_root h') = in_scope (rv_root h))
  \/ (tc' <> VAROBJ_TYPE_UNCHANGED /\ children (rv_var h') = []).
Proof.
  unfold value_of_root, java_value_of_root, cplus_value_of_root.
  intros H. minv.
  all: try match goal with
         | H : varobj_create _ _ _ _ _ _ _ = _ |- _ =>
             apply varobj_create_children in H
         end.
  all: match goal with
       | H : c_value_of_root _ _ _ _ = _ |- _ =>
           apply c_value_of_root_cases in H;
           destruct H as [Hr [[-> Hc] | [-> Hc]]]
       end.
  all: try (right; split; [discriminate | cbn in *; congruence]).
  all: left; split; [reflexivity|]; rewrite Hr; try reflexivity.
  all: repeat match goal with
         | |- context [match ?x with _ => _ end] => destruct x
         end; reflexivity.
Qed.

Lemma update_walk_eq r cis gp parent v w :
  update_walk G r cis gp parent v w =
  bind (value_of_child G r gp parent v (index v))
    (fun x =>
       let '(new, v1, child_type_changed) := x in
       let '(changed_p, error2) :=
         if negb (type_unchanged child_type_changed) then (true, w_error2 w)
         else value_changed_test G cis v1 new (w_error2 w) in
       let w1 :=
         if changed_p then
           {| w_result := varobj_add_to_changelist (w_result w) v1 child_type_changed;
              w_changed := w_changed w + 1;
              w_error2 := error2 |}
         else
           {| w_result := w_result w; w_changed := w_changed w;
              w_error2 := error2 |} in
       let v2 := if changed_p then set_updated v1 false else v1 in
       let v3 := set_error v2 error2 in
       let v4 := set_value v3 new in
       if type_unchanged child_type_changed then
         bind (walk_list (update_walk G r cis (Some parent) v4) (children v) w1)
           (fun y => let '(kids', w2) := y in ret (set_children v4 kids', w2))
       else
         bind (varobj_delete r v4 false true)
           (fun y => let '(_, _, survivor) := y in
                     ret (match survivor with Some v' => v' | None => v4 end, w1))).
Proof. destruct v; reflexivity. Qed.

Lemma value_changed_test_true cis v new e2 e2' :
  value_changed_test G cis v new e2 = (true, e2') ->
  cis = true \/ varobj_value_is_changeable_p G v = true.
Proof.
  unfold value_changed_test. destruct cis; [auto|].
  destruct (varobj_value_is_changeable_p G v); [auto|]. discriminate.
Qed.

Lemma walk_list_entries (P : varobj_changelist -> Prop)
    (visit : varobj -> walk -> M (varobj * walk)) (l : list varobj) :
  Forall (fun c => forall w st c' w' st',
            visit c w st = (Ret (c', w'), st') ->
            P (w_result w) -> P (w_result w')) l ->
  forall w st l' w' st',
    walk_list visit l w st = (Ret (l', w'), st') ->
    P (w_result w) -> P (w_result w').
Proof.
  induction 1 as [|c l Hc Hl IH]; intros w st l' w' st' H Hw; cbn in H.
  - minv. exact Hw.
  - minv. eapply Hc; [eassumption|]. eapply IH; eassumption.
Qed.

Lemma update_walk_entries r cis (v : varobj) :
  forall gp parent w st v' w' st',
    update_walk G r cis gp parent v w st = (Ret (v', w'), st') ->
    Forall (entry_ok G cis) (w_result w) -> Forall (entry_ok G cis) (w_result w').
Proof.
  induction v as [v IH] using varobj_tree_ind.
  intros gp parent w st v' w' st' H Hw.
  rewrite update_walk_eq in H. minv. cbv zeta in H.
  assert (Hw1 : Forall (entry_ok G cis)
                  (w_result
                     (if b
                      then {| w_result := varobj_add_to_changelist (w_result w) v1 v0;
                              w_changed := w_changed w + 1; w_error2 := z |}
                      else {| w_result := w_result w; w_changed := w_changed w;
                              w_error2 := z |}))).
  { destruct b; cbn [w_result]; [|exact Hw].
    unfold varobj_add_to_changelist. apply Forall_app. split; [exact Hw|].
    constructor; [|constructor]. intros Hch. cbn in Hch |- *.
    destruct (type_unchanged v0) eqn:Etc; cbn [negb] in E2.
    - right. apply value_changed_test_true in E2.
      destruct E2 as [Hc | Hc]; [exact Hc | congruence].
    - left. intros ->. discriminate. }
  destruct (type_unchanged v0) eqn:Etc; minv.
  - eapply (walk_list_entries (Forall (entry_ok G cis))); [| eassumption | exact Hw1].
    eapply Forall_impl; [|exact IH]. intros c Hc w0 st0 c' w0' st0' Hv.
    eapply Hc; eassumption.
  - exact Hw1.
Qed.

Lemma update_children_entries r cis root_ l w st l' w' st' :
  update_children G r cis root_ l w st = (Ret (l', w'), st') ->
  Forall (entry_ok G cis) (w_result w) -> Forall (entry_ok G cis) (w_result w').
Proof.
  unfold update_children. intros H Hw.
  eapply (walk_list_entries (Forall (entry_ok G cis))); [| exact H | exact Hw].
  apply Forall_forall. intros c _ w0 st0 c' w0' st0' Hv.
  eapply update_walk_entries; eassumption.
Qed.

(** C4.  In the change list of an update, an element for an object of
    struct, union or array type either carries a type-change tag or is
    there because the root was out of scope before the update and came
    into scope: the comparison of the old and the new value never puts
    such an object on the list (and neither does its updated flag). *)
Theorem varobj_update_composite_unchanged (varp : root_var) (error2 : Z)
    (st : gdb) (res : Z) (varp' : root_var) (cl : varobj_changelist) (st' : gdb) :
  varobj_update G varp false error2 st = (Ret (res, varp', Some cl), st') ->
  forall e ty,
    In e cl ->
    get_type G (cl_var e) = Some ty ->
    TYPE_CODE G ty = TYPE_CODE_STRUCT \/ TYPE_CODE G ty = TYPE_CODE_UNION
    \/ TYPE_CODE G ty = TYPE_CODE_ARRAY ->
    cl_type_changed e <> VAROBJ_TYPE_UNCHANGED
    \/ in_scope (rv_root varp) = false.
Proof.
  intros H e ty Hin Hty Hcode.
  assert (Hch : varobj_value_is_changeable_p G (cl_var e) = false).
  { unfold varobj_value_is_changeable_p. rewrite Hty.
    destruct (CPLUS_FAKE_CHILD (Some (cl_var e))); [reflexivity|].
    destruct Hcode as [-> | [-> | ->]]; reflexivity. }
  assert (Hall : Forall (entry_ok G (negb (in_scope (rv_root varp)))) cl
                 \/ exists tc, tc <> VAROBJ_TYPE_UNCHANGED
                               /\ forall e', In e' cl -> cl_type_changed e' = tc).
  { unfold varobj_update in H. cbn [negb] in H.
    destruct (negb (is_root_p (rv_root varp) (rv_var varp))); [minv|].
    minv.
    all: match goal with
         | H : value_of_root _ _ _ _ = _ |- _ =>
             apply value_of_root_cases in H;
             destruct H as [[-> Hs] | [Htc Hk]]
         end.
    all: try (left; rewrite <- Hs;
              eapply update_children_entries; [eassumption|];
              cbn [type_unchanged negb] in *;
              match goal with
              | H : match value_changed_test ?g ?c ?v ?n ?e with _ => _ end = _
                |- _ => destruct (value_changed_test g c v n e) as [[|] e2'] eqn:Et;
                        inversion H; subst; cbn [w_result]
              end;
              [ constructor; [|constructor]; intros Hc; right; cbn in Hc;
                apply value_changed_test_true in Et;
                destruct Et as [Et | Et]; [exact Et | congruence]
              | constructor ]).
    all: right; exists v; split; [exact Htc|];
      destruct (type_unchanged v) eqn:Ev;
        [destruct v; try discriminate; now elim Htc|];
      cbn [negb] in *;
      match goal with
      | H : (_, _) = (_, _) |- _ => inversion H; subst; clear H
      end;
      cbn [children set_value set_error] in *;
      match goal with
      | H : update_children _ _ _ _ ?k _ _ = _ |- _ =>
          replace k with (@nil varobj) in H by (now rewrite Hk);
          unfold update_children in H; cbn in H; minv
      end;
      cbn; intros e' [<- | []]; reflexivity. }
  destruct Hall as [Hall | [tc [Htc Hall]]].
  - rewrite Forall_forall in Hall. destruct (Hall e Hin Hch) as [Hl | Hr].
    + left; exact Hl.
    + right. now apply negb_true_iff in Hr.
  - left. now rewrite (Hall e Hin).
Qed.

Lemma update_type_changed_result (varp : root_var) (error2 : Z) (st : gdb)
    (new : value) (varp1 : root_var) (tc : varobj_type_change) (st1 : gdb) :
  is_root_p (rv_root varp) (rv_var varp) = true ->
  value_of_root G varp VAROBJ_TYPE_CHANGED st = (Ret (Some new, varp1, tc), st1) ->
  tc <> VAROBJ_TYPE_UNCHANGED ->
  exists st2,
    varobj_update G varp false error2 st =
      (Ret (-2,
            {| rv_root := set_in_scope (rv_root varp1) true;
               rv_var := set_children
                           (set_value (set_error (rv_var varp1) 0) (Some new)) [] |},
            Some [{| cl_var := set_error (rv_var varp1) 0;
                     cl_type_changed := tc |}]), st2)
    /\ children (rv_var varp1) = []
    /\ reg st2 = reg st1.
Proof.
  intros Hroot Hv Htc.
  assert (Hk : children (rv_var varp1) = []).
  { destruct (value_of_root_cases _ _ _ _ _ _ _ Hv) as [[-> _] | [_ Hk]];
      [now elim Htc | exact Hk]. }
  assert (Hu : type_unchanged tc = false) by (destruct tc; [now elim Htc| |]; reflexivity).
  unfold varobj_update. rewrite Hroot. cbn [negb].
  unfold bind at 1. cbn [get_ses].
  rewrite (bind_eq_ret _ _ _ _ _ Hv).
  rewrite Hu. cbn [negb].
  cbn [children set_value set_error]. rewrite Hk.
  unfold update_children. cbn [walk_list].
  unfold bind at 1. cbn [ret].
  unfold bind, select_frame, modify_ses, ret.
  destruct (frame_find_by_id G (get_frame_id (deprecated_selected_frame (ses st))))
    as [fi|]; eexists; (split; [reflexivity | split; [reflexivity|reflexivity]]).
Qed.

Lemma ses_only_varobj_create_unnamed e fr blk kind :
  ses_only (varobj_create G None e fr blk kind).
Proof.
  unfold varobj_create, restore_scheduler_locking_mode.
  apply ses_only_bind; [apply ses_only_new_root_variable | intros var].
  apply ses_only_bind; [apply ses_only_get_ses | intros ss].
  apply ses_only_bind; [ses_only_tac | intros _].
  apply ses_only_on_error; [|ses_only_tac].
  apply ses_only_bind.
  - destruct e; [apply ses_only_create_fill | apply ses_only_ret].
  - intros filled. ses_only_tac.
Qed.

Lemma c_value_of_root_table h tc st new h' tc' st' :
  c_value_of_root G h tc st = (Ret (Some new, h', tc'), st') ->
  (tc' = tc /\ forall i, varobj_table (reg st') i = varobj_table (reg st) i)
  \/ (tc' = VAROBJ_DYNAMIC_TYPE_CHANGED
      /\ forall i, varobj_table (reg st') i =
                   tables_unlink (descendant_names (rv_var h))
                     (varobj_table (reg st)) i).
Proof.
  unfold c_value_of_root, set_restore_scheduler_locking_mode,
    restore_scheduler_locking_mode, gdb_evaluate_expression.
  intros H. minv.
  all: try match goal with
         | H : varobj_delete _ _ _ _ _ = _ |- _ =>
             apply varobj_delete_table in H; destruct H as [Hs Ht]
       end.
  all: repeat match goal with
         | H : (let '(_, _) := ?x in _) = _ |- _ => destruct x
         | H : (let '(_, _) := ?x in _) _ = _ |- _ => destruct x
         end.
  all: minv.
  all: cbn [reg ses set_ses set_reg] in *.
  all: first [ right; split; [reflexivity|]; exact Ht
             | left; split; [reflexivity|]; intros i; reflexivity ].
Qed.

Lemma value_of_root_discards h tc0 st new h' tc' st' :
  value_of_root G h tc0 st = (Ret (Some new, h', tc'), st') ->
  tc' <> VAROBJ_TYPE_UNCHANGED ->
  registry_ok (reg st) ->
  NoDup (subtree_names (rv_var h)) ->
  forall d, In d (descendant_names (rv_var h)) -> ~ registered (reg st') d.
Proof.
  unfold value_of_root, java_value_of_root, cplus_value_of_root.
  intros H Htc Hok Hnd d Hd Hreg. apply Hreg. clear Hreg.
  unfold registry_ok in Hok. minv.
  all: try match goal with
         | H : varobj_create _ None ?e ?fr ?blk ?kind ?st = (_, ?s) |- _ =>
             let Hr := fresh "Hr" in
             pose proof (proj1 (ses_only_varobj_create_unnamed e fr blk kind st)) as Hr;
             rewrite H in Hr; cbn [snd] in Hr; clear H
         end.
  all: try match goal with
         | H : varobj_delete _ _ _ _ _ = _ |- _ =>
             apply varobj_delete_table in H; destruct H as [_ Hdel]
         end.
  all: match goal with
       | H : c_value_of_root _ _ _ _ = _ |- _ =>
           apply c_value_of_root_table in H;
           destruct H as [[-> Hcv] | [-> Hcv]]
       end.
  all: try (now elim Htc).
  all: try match goal with
         | Hr : reg _ = reg _ |- _ => rewrite Hr in *
         end.
  all: try match goal with
         | Hi : install_variable _ _ _ = _ |- _ =>
             eapply (install_variable_find_other _ _ _ _ _ _ d) in Hi;
             [ | reflexivity
               | eapply descendant_not_self; [exact Hnd | eassumption | exact Hd] ]
         end.
  (* the re-created object replaced the old one *)
  all: try match goal with
         | Hi : chain_find ?x _ = chain_find ?x _ |- _ =>
             first
               [ eapply unlinked_find_none; [exact Hcv|]; rewrite Hi;
                 eapply unlinked_find_same;
                 [exact Hdel | exact Hok | now apply descendant_in_subtree]
               | rewrite Hcv, Hi;
                 eapply unlinked_find_same;
                 [exact Hdel | exact Hok | now apply descendant_in_subtree] ]
         end.
  (* the dynamic type changed *)
  all: eapply unlinked_find_same; [exact Hcv | | ];
    [ first [ exact Hok | eapply unlinked_ok; [exact Hdel | exact Hok] ]
    | repeat match goal with
        | |- context [match ?x with _ => _ end] => destruct x
        end; exact Hd ].
Qed.

(** C2.  When re-evaluation of a root yields a value and reports a type
    change, varobj_update returns -2 instead of a count and its change
    list holds exactly one element, for the root and with the type-change
    tag.  The root then has no children: the materialised subtree is gone,
    and (in a registry without duplicate names, for a tree that holds each
    object name once) none of the names of the former descendants is
    installed any more. *)
Theorem varobj_update_type_changed (varp : root_var) (error2 : Z) (st : gdb)
    (new : value) (varp1 : root_var) (tc : varobj_type_change) (st1 : gdb) :
  is_root_p (rv_root varp) (rv_var varp) = true ->
  value_of_root G varp VAROBJ_TYPE_CHANGED st = (Ret (Some new, varp1, tc), st1) ->
  tc <> VAROBJ_TYPE_UNCHANGED ->
  exists st2,
    varobj_update G varp false error2 st =
      (Ret (-2,
            {| rv_root := set_in_scope (rv_root varp1) true;
               rv_var := set_children
                           (set_value (set_error (rv_var varp1) 0) (Some new)) [] |},
            Some [{| cl_var := set_error (rv_var varp1) 0;
                     cl_type_changed := tc |}]), st2)
    /\ children (rv_var varp1) = []
    /\ (registry_ok (reg st) ->
        NoDup (subtree_names (rv_var varp)) ->
        forall d, In d (descendant_names (rv_var varp)) ->
                  ~ registered (reg st2) d).
Proof.
  intros Hroot Hv Htc.
  destruct (update_type_changed_result varp error2 st new varp1 tc st1
              Hroot Hv Htc) as [st2 [Hu [Hk Hreg]]].
  exists st2. split; [exact Hu|]. split; [exact Hk|].
  intros Hok Hnd d Hd. rewrite Hreg.
  eapply value_of_root_discards; eassumption.
Qed.


(** X30.  On the exit of varobj_update that stores a change list the frame
    that was selected at entry is selected again, provided it still
    exists. *)
Lemma varobj_update_restores_frame (varp : root_var) (error2 : Z) (st : gdb)
    (res : Z) (varp' : root_var) (cl : varobj_changelist) (st' : gdb)
    (fi : frame_info) :
  varobj_update G varp false error2 st = (Ret (res, varp', Some cl), st') ->
  frame_find_by_id G (get_frame_id (deprecated_selected_frame (ses st))) = Some fi ->
  deprecated_selected_frame (ses st') = Some fi.
Proof.
  intros H Hf. unfold varobj_update in H. cbn [negb] in H.
  destruct (negb (is_root_p (rv_root varp) (rv_var varp))); [minv|].
  minv; cbn; congruence.
Qed.

End Update.

Lemma varobj_update_type_changed_witness :
  is_root_p (rv_root Demo.retyped_root) (rv_var Demo.retyped_root) = true
  /\ subtree_names (rv_var Demo.retyped_root) = ["var1.a"; "var1"]
  /\ (exists new varp1,
        fst (value_of_root Demo.core Demo.retyped_root VAROBJ_TYPE_CHANGED
               Demo.tree_state)
        = Ret (Some new, varp1, VAROBJ_TYPE_CHANGED)
        /\ exists varp2 e,
             fst (varobj_update Demo.core Demo.retyped_root false 0 Demo.tree_state)
             = Ret (-2, varp2, Some [e])
             /\ children (rv_var varp2) = [])
  /\ ~ registered
         (reg (snd (varobj_update Demo.core Demo.retyped_root false 0
                      Demo.tree_state)))
         "var1.a".
Proof.
  split; [reflexivity|]. split; [reflexivity|].
  destruct (value_of_root Demo.core Demo.retyped_root VAROBJ_TYPE_CHANGED
              Demo.tree_state) as [o st1] eqn:Ev.
  assert (Ho : o = Ret (Some (Demo.mkvalue 1 1),
                        match o with Ret (_, h, _) => h | _ => Demo.retyped_root end,
                        VAROBJ_TYPE_CHANGED)).
  { apply (f_equal fst) in Ev. cbn [fst] in Ev. rewrite <- Ev.
    vm_compute. reflexivity. }
  set (varp1 := match o with Ret (_, h, _) => h | _ => Demo.retyped_root end) in Ho.
  rewrite Ho in Ev.
  destruct (varobj_update_type_changed Demo.core Demo.retyped_root 0
              Demo.tree_state _ _ _ _ eq_refl Ev) as [st2 [Hu [Hk Hd]]].
  { discriminate. }
  split.
  - cbn [fst]. exists (Demo.mkvalue 1 1), varp1. split; [exact Ho|].
    rewrite Hu. cbn [fst]. do 2 eexists. split; reflexivity.
  - rewrite Hu. cbn [snd]. apply Hd.
    + unfold Demo.tree_state. do 2 apply registry_ok_install.
      apply registry_ok_empty.
    + cbn. repeat constructor; cbn; intuition discriminate.
    + cbn. auto.
Defined.

Lemma varobj_update_composite_unchanged_witness :
  in_scope (rv_root Demo.struct_root) = false
  /\ exists varp' e1 e2,
       fst (varobj_update Demo.core Demo.struct_root false 0 Demo.tree_state)
       = Ret (2, varp', Some [e1; e2])
       /\ get_type Demo.core (cl_var e1) = Some 2
       /\ TYPE_CODE Demo.core 2 = TYPE_CODE_STRUCT
       /\ cl_type_changed e1 = VAROBJ_TYPE_UNCHANGED
       /\ (cl_type_changed e1 <> VAROBJ_TYPE_UNCHANGED
           \/ in_scope (rv_root Demo.struct_root) = false).
Proof.
  split; [reflexivity|].
  destruct (varobj_update Demo.core Demo.struct_root false 0 Demo.tree_state)
    as [o st'] eqn:Eu.
  assert (Ho : exists varp' e1 e2,
             o = Ret (2, varp', Some [e1; e2])
             /\ get_type Demo.core (cl_var e1) = Some 2
             /\ cl_type_changed e1 = VAROBJ_TYPE_UNCHANGED).
  { apply (f_equal fst) in Eu. cbn [fst] in Eu. rewrite <- Eu.
    vm_compute. do 3 eexists. split; [reflexivity|]. split; reflexivity. }
  destruct Ho as [varp' [e1 [e2 [-> [Hty Htag]]]]].
  exists varp', e1, e2. cbn [fst].
  split; [reflexivity|]. split; [exact Hty|]. split; [reflexivity|].
  split; [exact Htag|].
  apply (varobj_update_composite_unchanged Demo.core Demo.struct_root 0
           Demo.tree_state 2 varp' [e1; e2] st' Eu e1 2).
  - left; reflexivity.
  - exact Hty.
  - left; reflexivity.
Defined.

(** C1 at a root that re-evaluation replaces.  The object "var1" watches
    "x" in the selected frame and is in scope, with type int.  Now "x"
    cannot be evaluated and its type is char: re-evaluation replaces the
    object by a re-created one, which is out of scope, and varobj_update
    returns 0 instead of -3. *)
Lemma varobj_update_replaced_root_no_scope_exit :
  in_scope (rv_root Demo.floating_root) = true
  /\ exists varp',
       fst (varobj_update Demo.failing_core Demo.floating_root false 0
              (Demo.installed Demo.floating_root))
       = Ret (0, varp', None)
       /\ in_scope (rv_root varp') = false
       /\ type (rv_var Demo.floating_root) = Some 1
       /\ type (rv_var varp') = Some 7.
Proof.
  split; [reflexivity|]. vm_compute. eexists. repeat split.
Qed.

(** C9 at a root whose evaluation fails.  The object "var1" watches a local
    of the function f in the frame of f, and the frame of main is selected.
    Re-evaluation selects the frame of f, evaluation fails there, and
    varobj_update returns -3 with the frame of f still selected. *)
Lemma varobj_update_leaves_frame_selected :
  deprecated_selected_frame (ses (Demo.installed Demo.local_root))
  = Some Demo.frame_main
  /\ (exists varp',
        fst (varobj_update Demo.failing_core Demo.local_root false 0
               (Demo.installed Demo.local_root))
        = Ret (-3, varp', None))
  /\ deprecated_selected_frame
       (ses (snd (varobj_update Demo.failing_core Demo.local_root false 0
                    (Demo.installed Demo.local_root))))
     = Some Demo.frame_f.
Proof.
  split; [reflexivity|]. split; [vm_compute; eexists; reflexivity|].
  vm_compute. reflexivity.
Qed.

Lemma duplicate_name_create_fails_witness :
  (exists v1, Demo.first_create = (Ret (Some v1), snd Demo.first_create))
  /\ fst (varobj_create Demo.core (Some "var1") (Some "y") 0 None
            USE_CURRENT_FRAME (snd Demo.first_create))
     = Throw "Duplicate variable object name"
  /\ reg (snd (varobj_create Demo.core (Some "var1") (Some "y") 0 None
                 USE_CURRENT_FRAME (snd Demo.first_create)))
     = reg (snd Demo.first_create).
Proof.
  assert (H1 : exists v1,
             Demo.first_create = (Ret (Some v1), snd Demo.first_create)).
  { destruct Demo.first_create as [o st1] eqn:E. cbn [snd].
    assert (Ho : exists v1, o = Ret (Some v1)).
    { apply (f_equal fst) in E. cbn [fst] in E. rewrite <- E.
      vm_compute. eexists. reflexivity. }
    destruct Ho as [v1 ->]. now exists v1. }
  split; [exact H1|]. destruct H1 as [v1 H1].
  destruct (duplicate_name_create_fails Demo.core "var1" (Some "x") (Some "y")
              0 0 None None USE_SELECTED_FRAME USE_CURRENT_FRAME
              Demo.state0 v1 (snd Demo.first_create) H1) as [_ Hreg].
  split; [vm_compute; reflexivity | exact Hreg].
Defined.

(** * Further properties *)

(** ** The hash table and the list of roots *)

Lemma hash_loop_range (s : string) :
  forall index i,
    0 <= index < VAROBJ_TABLE_SIZE ->
    0 <= hash_loop s index i < VAROBJ_TABLE_SIZE.
Proof.
  induction s as [|c s IH]; intros index i H; cbn [hash_loop].
  - exact H.
  - apply IH. apply Z.mod_pos_bound. reflexivity.
Qed.

(** X1.  The bucket index computed from an object name by varobj_get_handle,
    install_variable and uninstall_variable lies inside varobj_table:
    it is at least 0 and less than VAROBJ_TABLE_SIZE, for every name. *)
Theorem varobj_hash_in_table (objname : string) :
  0 <= varobj_hash objname < VAROBJ_TABLE_SIZE.
Proof.
  unfold varobj_hash. apply hash_loop_range. unfold VAROBJ_TABLE_SIZE. lia.
Qed.

Lemma install_variable_inv (r : varobj_root) (var : varobj) (st : gdb)
    (k : Z) (st' : gdb) :
  install_variable r var st = (Ret k, st') ->
  exists n,
    obj_name var = Some n
    /\ chain_find n (varobj_table (reg st) (varobj_hash n)) = None
    /\ k = 1
    /\ ses st' = ses st
    /\ varobj_table (reg st') =
       table_set (varobj_table (reg st)) (varobj_hash n)
         ({| vl_var := addr var; vl_obj_name := n |}
            :: varobj_table (reg st) (varobj_hash n))
    /\ rootlist (reg st') =
       (if is_root_p r var
        then {| rc_root := root_addr r; rc_rootvar := rootvar r |}
               :: rootlist (reg st)
        else rootlist (reg st))
    /\ rootcount (reg st') =
       (if is_root_p r var then rootcount (reg st) + 1 else rootcount (reg st)).
Proof.
  unfold install_variable. intros H.
  destruct (obj_name var) as [n|]; [|discriminate H].
  exists n. split; [reflexivity|].
  unfold bind, get_reg in H.
  destruct (chain_find n (varobj_table (reg st) (varobj_hash n)));
    [discriminate H|].
  split; [reflexivity|].
  cbn in H. inversion H; subst; clear H. cbn.
  destruct (is_root_p r var); cbn; repeat split.
Qed.

Lemma install_variable_lookup (r : varobj_root) (var : varobj) (n : string)
    (st : gdb) (k : Z) (st' : gdb) :
  obj_name var = Some n ->
  install_variable r var st = (Ret k, st') ->
  varobj_get_handle n st' = (Ret (addr var), st').
Proof.
  intros Hn H. apply install_variable_inv in H.
  destruct H as (n' & Hn' & _ & _ & _ & Ht & _).
  rewrite Hn in Hn'. inversion Hn'; subst n'.
  unfold varobj_get_handle, bind, get_reg. rewrite Ht, table_set_same.
  unfold chain_find. cbn. rewrite String.eqb_refl. reflexivity.
Qed.

(** X2.  Installing an object and looking its name up is a round trip:
    after install_variable has returned, varobj_get_handle finds the
    installed object under its name, and the lookup of every other name
    gives what it gave before. *)
Theorem install_then_lookup (r : varobj_root) (var : varobj) (n : string)
    (st : gdb) (k : Z) (st' : gdb) :
  obj_name var = Some n ->
  install_variable r var st = (Ret k, st') ->
  varobj_get_handle n st' = (Ret (addr var), st')
  /\ forall m, m <> n ->
       fst (varobj_get_handle m st') = fst (varobj_get_handle m st).
Proof.
  intros Hn H. split; [eapply install_variable_lookup; eassumption|].
  intros m Hm.
  pose proof (install_variable_find_other r var n st k st' m H Hn Hm) as Hf.
  unfold varobj_get_handle, bind, get_reg. rewrite Hf.
  destruct (chain_find m (varobj_table (reg st) (varobj_hash m))); reflexivity.
Qed.

Lemma install_then_lookup_witness :
  obj_name Demo.tree = Some "var1"
  /\ fst (install_variable Demo.c_root Demo.tree Demo.state0) = Ret 1
  /\ fst (varobj_get_handle "var1"
            (snd (install_variable Demo.c_root Demo.tree Demo.state0)))
     = Ret 1
  /\ fst (varobj_get_handle "var2"
            (snd (install_variable Demo.c_root Demo.tree Demo.state0)))
     = Throw "Variable object not found".
Proof.
  split; [reflexivity|]. split; [reflexivity|].
  destruct (install_variable Demo.c_root Demo.tree Demo.state0)
    as [o st'] eqn:E.
  assert (Ho : o = Ret 1).
  { apply (f_equal fst) in E. cbn [fst] in E. rewrite <- E. reflexivity. }
  subst o. cbn [snd].
  destruct (install_then_lookup Demo.c_root Demo.tree "var1" Demo.state0 1 st'
              eq_refl E) as [H1 H2].
  split.
  - rewrite H1. reflexivity.
  - rewrite (H2 "var2"); [reflexivity | discriminate].
Defined.

(** X3.  Uninstalling an object right after installing it restores the
    registry: every hash chain, the list of roots and rootcount are what
    they were before install_variable. *)
Theorem uninstall_after_install (r : varobj_root) (var : varobj) (n : string)
    (st : gdb) (k : Z) (st' : gdb) :
  obj_name var = Some n ->
  install_variable r var st = (Ret k, st') ->
  (forall i, varobj_table (uninstall_variable r var n (reg st')) i
             = varobj_table (reg st) i)
  /\ rootlist (uninstall_variable r var n (reg st')) = rootlist (reg st)
  /\ rootcount (uninstall_variable r var n (reg st')) = rootcount (reg st).
Proof.
  intros Hn H. apply install_variable_inv in H.
  destruct H as (n' & Hn' & Hnone & _ & _ & Ht & Hl & Hc).
  rewrite Hn in Hn'. inversion Hn'; subst n'. clear Hn'.
  unfold uninstall_variable. rewrite Ht, table_set_same.
  assert (Hf : chain_find n
                 ({| vl_var := addr var; vl_obj_name := n |}
                    :: varobj_table (reg st) (varobj_hash n))
               = Some {| vl_var := addr var; vl_obj_name := n |}).
  { unfold chain_find. cbn. now rewrite String.eqb_refl. }
  rewrite Hf. cbn [chain_unlink vl_obj_name]. rewrite String.eqb_refl.
  assert (Htbl : forall i,
             table_set
               (table_set (varobj_table (reg st)) (varobj_hash n)
                  ({| vl_var := addr var; vl_obj_name := n |}
                     :: varobj_table (reg st) (varobj_hash n)))
               (varobj_hash n) (varobj_table (reg st) (varobj_hash n)) i
             = varobj_table (reg st) i).
  { intros i. unfold table_set.
    destruct (i =? varobj_hash n) eqn:E; [|reflexivity].
    apply Z.eqb_eq in E. now subst i. }
  rewrite Hl, Hc.
  destruct (is_root_p r var); cbn.
  - rewrite Z.eqb_refl. cbn. split; [exact Htbl|]. split; [reflexivity|lia].
  - split; [exact Htbl|]. split; reflexivity.
Qed.

Lemma uninstall_after_install_witness :
  obj_name Demo.tree = Some "var1"
  /\ fst (install_variable Demo.c_root Demo.tree Demo.state0) = Ret 1
  /\ rootcount (reg (snd (install_variable Demo.c_root Demo.tree Demo.state0)))
     = 1
  /\ rootcount
       (uninstall_variable Demo.c_root Demo.tree "var1"
          (reg (snd (install_variable Demo.c_root Demo.tree Demo.state0))))
     = 0.
Proof.
  split; [reflexivity|]. split; [reflexivity|]. split; [reflexivity|].
  destruct (install_variable Demo.c_root Demo.tree Demo.state0)
    as [o st'] eqn:E.
  assert (Ho : o = Ret 1).
  { apply (f_equal fst) in E. cbn [fst] in E. rewrite <- E. reflexivity. }
  subst o. cbn [snd].
  destruct (uninstall_after_install Demo.c_root Demo.tree "var1" Demo.state0 1
              st' eq_refl E) as (_ & _ & Hc).
  rewrite Hc. reflexivity.
Defined.

Lemma registered_uninstall_other (r : varobj_root) (var : varobj)
    (n m : string) (rg : registry) :
  m <> n ->
  (registered (uninstall_variable r var n rg) m <-> registered rg m).
Proof.
  intros Hm. unfold registered. rewrite uninstall_variable_table.
  rewrite table_unlink_find_other by exact Hm. tauto.
Qed.

(** X4.  In a registry whose hash chains hold each name once,
    uninstall_variable makes the name unknown: afterwards the name is not
    found, every other name is found exactly when it was found before, and
    the chains still hold each name once. *)
Theorem uninstall_variable_unregisters (r : varobj_root) (var : varobj)
    (n : string) (rg : registry) :
  registry_ok rg ->
  ~ registered (uninstall_variable r var n rg) n
  /\ registry_ok (uninstall_variable r var n rg)
  /\ forall m, m <> n ->
       (registered (uninstall_variable r var n rg) m <-> registered rg m).
Proof.
  intros Hok. split; [|split].
  - unfold registered. rewrite uninstall_variable_table.
    rewrite table_unlink_find_same by exact Hok. intros H. now apply H.
  - intros i. rewrite uninstall_variable_table.
    now apply table_unlink_ok.
  - intros m Hm. now apply registered_uninstall_other.
Qed.

Lemma uninstall_variable_unregisters_witness :
  registry_ok (reg Demo.tree_state)
  /\ registered (reg Demo.tree_state) "var1.a"
  /\ ~ registered
         (uninstall_variable Demo.c_root Demo.child "var1.a"
            (reg Demo.tree_state)) "var1.a"
  /\ registered
       (uninstall_variable Demo.c_root Demo.child "var1.a"
          (reg Demo.tree_state)) "var1".
Proof.
  assert (Hok : registry_ok (reg Demo.tree_state)).
  { unfold Demo.tree_state. do 2 apply registry_ok_install.
    apply registry_ok_empty. }
  split; [exact Hok|].
  split; [unfold registered; vm_compute; discriminate|].
  destruct (uninstall_variable_unregisters Demo.c_root Demo.child "var1.a"
              (reg Demo.tree_state) Hok) as (H1 & _ & H3).
  split; [exact H1|].
  apply (H3 "var1"); [discriminate|].
  unfold registered; vm_compute; discriminate.
Defined.

Lemma varobj_list_loop_all (l : list root_cell) :
  forall k, Z.of_nat (List.length l) <= k ->
            varobj_list_loop l k = map rc_rootvar l.
Proof.
  induction l as [|c l IH]; intros k Hk; cbn [varobj_list_loop map].
  - reflexivity.
  - cbn [List.length] in Hk.
    assert (H0 : (0 <? k) = true) by (apply Z.ltb_lt; lia).
    rewrite H0. f_equal. apply IH. lia.
Qed.

Lemma varobj_list_tally (rg : registry) :
  roots_tally rg ->
  varobj_list rg = Some (rootcount rg, map rc_rootvar (rootlist rg)).
Proof.
  unfold roots_tally, varobj_list. intros H.
  assert (H0 : (rootcount rg + 1 <=? 0) = false) by (apply Z.leb_gt; lia).
  rewrite H0. rewrite varobj_list_loop_all by lia. reflexivity.
Qed.

Lemma opt_ptr_eqb_some (o : option ptr) (a : ptr) :
  opt_ptr_eqb o (Some a) = true -> o = Some a.
Proof.
  destruct o as [x|]; cbn; [|discriminate].
  intros H. apply Z.eqb_eq in H. now subst.
Qed.

(** X5.  varobj_list reports the roots, the most recently installed first.
    When rootcount is the length of the list of roots, installing a root
    object makes varobj_list return one more object, the new one first and
    then the ones it returned before; installing a child changes nothing
    of what varobj_list returns. *)
Theorem varobj_list_after_install (r : varobj_root) (var : varobj) (st : gdb)
    (k : Z) (st' : gdb) :
  roots_tally (reg st) ->
  install_variable r var st = (Ret k, st') ->
  varobj_list (reg st)
    = Some (rootcount (reg st), map rc_rootvar (rootlist (reg st)))
  /\ (is_root_p r var = true ->
      varobj_list (reg st')
      = Some (rootcount (reg st) + 1,
              Some (addr var) :: map rc_rootvar (rootlist (reg st))))
  /\ (is_root_p r var = false -> varobj_list (reg st') = varobj_list (reg st)).
Proof.
  intros Ht H. apply install_variable_inv in H.
  destruct H as (n & _ & _ & _ & _ & _ & Hl & Hc).
  split; [now apply varobj_list_tally|]. split.
  - intros Hr. rewrite Hr in Hl, Hc.
    rewrite varobj_list_tally.
    + rewrite Hl, Hc. cbn [map rc_rootvar].
      unfold is_root_p in Hr. apply opt_ptr_eqb_some in Hr. now rewrite Hr.
    + unfold roots_tally in *. rewrite Hl, Hc. cbn [List.length]. lia.
  - intros Hr. rewrite Hr in Hl, Hc.
    unfold varobj_list. now rewrite Hl, Hc.
Qed.

Lemma varobj_list_after_install_witness :
  roots_tally (reg Demo.state0)
  /\ fst (install_variable Demo.c_root Demo.tree Demo.state0) = Ret 1
  /\ varobj_list (reg Demo.state0) = Some (0, [])
  /\ varobj_list
       (reg (snd (install_variable Demo.c_root Demo.tree Demo.state0)))
     = Some (1, [Some 1]).
Proof.
  split; [reflexivity|]. split; [reflexivity|].
  destruct (install_variable Demo.c_root Demo.tree Demo.state0)
    as [o st'] eqn:E.
  assert (Ho : o = Ret 1).
  { apply (f_equal fst) in E. cbn [fst] in E. rewrite <- E. reflexivity. }
  subst o. cbn [snd].
  destruct (varobj_list_after_install Demo.c_root Demo.tree Demo.state0 1 st'
              eq_refl E) as (H1 & H2 & _).
  split; [exact H1|]. exact (H2 eq_refl).
Defined.

Lemma root_unlink_length (a : ptr) (l l' : list root_cell) :
  root_unlink a l = Some l' -> List.length l = S (List.length l').
Proof.
  revert l'. induction l as [|c l IH]; intros l' H; cbn in H.
  - discriminate.
  - destruct (opt_ptr_eqb (rc_rootvar c) (Some a)).
    + inversion H; subst. reflexivity.
    + destruct (root_unlink a l) as [l0|]; cbn in H; [|discriminate].
      inversion H; subst. cbn. f_equal. now apply IH.
Qed.

(** X6.  uninstall_variable keeps rootcount equal to the length of the
    list of roots, provided that a root in the list whose rootvar is the
    object is the root of the object (the branch that empties the whole
    list is then never taken with other roots behind it). *)
Theorem uninstall_variable_tally (r : varobj_root) (var : varobj) (n : string)
    (rg : registry) :
  roots_tally rg ->
  (forall c, In c (rootlist rg) -> rc_rootvar c = Some (addr var) ->
             rc_root c = root_addr r) ->
  roots_tally (uninstall_variable r var n rg).
Proof.
  unfold roots_tally, uninstall_variable. intros Ht Hc.
  destruct (chain_find n (varobj_table rg (varobj_hash n))); [|exact Ht].
  destruct (is_root_p r var); [|exact Ht].
  destruct (rootlist rg) as [|c rest] eqn:El; cbn [rootlist rootcount].
  - exact Ht.
  - cbn [List.length] in Ht.
    destruct (rc_root c =? root_addr r) eqn:E1; cbn [rootlist rootcount].
    + lia.
    + destruct (opt_ptr_eqb (rc_rootvar c) (Some (addr var))) eqn:E2.
      * apply opt_ptr_eqb_some in E2.
        apply Z.eqb_neq in E1. exfalso. apply E1. apply Hc; [now left|exact E2].
      * destruct (root_unlink (addr var) rest) as [rest'|] eqn:E3;
          cbn [rootlist rootcount List.length].
        -- apply root_unlink_length in E3. lia.
        -- exact Ht.
Qed.

Lemma uninstall_variable_tally_witness :
  roots_tally (reg Demo.tree_state)
  /\ rootcount (reg Demo.tree_state) = 1
  /\ roots_tally
       (uninstall_variable Demo.c_root Demo.tree "var1" (reg Demo.tree_state))
  /\ rootcount
       (uninstall_variable Demo.c_root Demo.tree "var1" (reg Demo.tree_state))
     = 0.
Proof.
  split; [reflexivity|]. split; [reflexivity|].
  split; [|reflexivity].
  apply uninstall_variable_tally; [reflexivity|].
  intros c [<-|[]] _. reflexivity.
Defined.

(** ** Generated names *)

Lemma string_of_int_inj (a b : Z) :
  string_of_int a = string_of_int b -> a = b.
Proof.
  unfold string_of_int. intros H.
  assert (Hnil : forall z, Z.to_int z <> Decimal.Pos Decimal.Nil
                           /\ Z.to_int z <> Decimal.Neg Decimal.Nil).
  { intros z. split; intros E; pose proof (f_equal Z.of_int E) as E';
      rewrite DecimalZ.of_to in E'; cbn in E'; subst z; discriminate E. }
  apply (f_equal NilZero.int_of_string) in H.
  rewrite !NilZero.isi in H by apply Hnil.
  inversion H as [H']. now apply DecimalZ.to_int_inj.
Qed.

(** X7.  The names that varobj_gen_name generates are unique: calls made
    at different values of its counter return different names, and each
    call that does not overflow the counter advances it by one. *)
Theorem varobj_gen_name_unique (id1 id2 : Z) (n1 n2 : string) (id1' id2' : Z) :
  varobj_gen_name id1 = Some (n1, id1') ->
  varobj_gen_name id2 = Some (n2, id2') ->
  id1' = id1 + 1 /\ (id1 <> id2 -> n1 <> n2).
Proof.
  unfold varobj_gen_name. intros H1 H2.
  destruct (id1 <? INT_MAX); [|discriminate].
  destruct (id2 <? INT_MAX); [|discriminate].
  inversion H1; subst. inversion H2; subst. split; [reflexivity|].
  intros Hne Heq. apply Hne.
  cbn in Heq. inversion Heq as [H].
  apply string_of_int_inj in H. lia.
Qed.

Lemma varobj_gen_name_unique_witness :
  varobj_gen_name 0 = Some ("var1", 1)
  /\ varobj_gen_name 1 = Some ("var2", 2)
  /\ "var1" <> "var2".
Proof.
  split; [reflexivity|]. split; [reflexivity|].
  apply (varobj_gen_name_unique 0 1 "var1" "var2" 1 2 eq_refl eq_refl).
  lia.
Defined.

(** ** Java child names *)

(** X8.  A child name made by java_make_name_of_child never contains a
    period: it is the name that cplus_make_name_of_child makes, of the
    same length, with every period replaced. *)
Theorem java_child_name_no_period (G : gdb_core) (gparent : option varobj)
    (parent : varobj) (index_ : Z) (n : string) :
  java_make_name_of_child G gparent parent index_ = Some (Some n) ->
  ~ In "."%char (list_ascii_of_string n)
  /\ exists n0,
       cplus_make_name_of_child G gparent parent index_ = Some (Some n0)
       /\ String.length n = String.length n0.
Proof.
  unfold java_make_name_of_child. intros H.
  destruct (cplus_make_name_of_child G gparent parent index_) as [[n0|]|];
    try discriminate.
  inversion H; subst n; clear H. split.
  - unfold escape_periods. rewrite list_ascii_of_string_of_list_ascii.
    intros Hin. apply in_map_iff in Hin. destruct Hin as [c [Hc _]].
    destruct (Ascii.eqb c "."%char) eqn:E.
    + discriminate Hc.
    + subst c. now rewrite Ascii.eqb_refl in E.
  - exists n0. split; [reflexivity|].
    unfold escape_periods. induction n0 as [|c s IH]; cbn; [reflexivity|].
    now rewrite IH.
Qed.

(** ** Editable objects *)

(** X9.  An object that variable_editable accepts is one whose value
    varobj_value_is_changeable_p lets varobj_update compare: an editable
    object is changeable.  For the C strategy, which does not look at the
    fake_child flag, this holds for objects that are not fake children. *)
Theorem editable_is_changeable (G : gdb_core) (r : varobj_root) (var : varobj) :
  variable_editable G r var = Some true ->
  fake_child var = false \/ lang r = Some vlang_cplus
  \/ lang r = Some vlang_java ->
  varobj_value_is_changeable_p G var = true.
Proof.
  unfold variable_editable, java_variable_editable, cplus_variable_editable,
    c_variable_editable, varobj_value_is_changeable_p, CPLUS_FAKE_CHILD.
  intros H Hf.
  assert (Hfake : fake_child var = false).
  { destruct Hf as [Hf|[Hf|Hf]]; [exact Hf| |]; rewrite Hf in H;
      destruct (fake_child var); [discriminate|reflexivity
                                 |discriminate|reflexivity]. }
  rewrite Hfake in *.
  destruct (lang r) as [[| | |]|]; try discriminate;
    destruct (get_type G var) as [ty|]; try discriminate;
    destruct (TYPE_CODE G ty); try discriminate; reflexivity.
Qed.

(** ** The list of children of an object *)

Lemma set_children_same (v : varobj) : set_children v (children v) = v.
Proof. destruct v; reflexivity. Qed.

(** Saving a child in its parent makes child_exists find it under
    its index and leaves the children of every other index as they were;
    removing it again restores the parent. *)
Lemma save_child_round_trip (parent child : varobj) :
  child_exists (save_child_in_parent parent child) (index child) = Some child
  /\ (forall i, i <> index child ->
        child_exists (save_child_in_parent parent child) i
        = child_exists parent i)
  /\ remove_child_from_parent (save_child_in_parent parent child) child
     = Some parent.
Proof.
  unfold child_exists, save_child_in_parent, remove_child_from_parent.
  destruct parent; cbn. rewrite !Z.eqb_refl. repeat split.
  intros i Hi. apply Z.eqb_neq in Hi. rewrite Z.eqb_sym in Hi.
  rewrite Z.eqb_sym. now rewrite Z.eqb_sym, Hi.
Qed.

(** ** The number of children *)

Lemma number_of_children_set_num_children (G : gdb_core) (r : varobj_root)
    (parent : option varobj) (var : varobj) (n : Z) :
  number_of_children G r parent (set_num_children var n)
  = number_of_children G r parent var.
Proof. destruct var; reflexivity. Qed.

(** X10.  varobj_get_num_children is stable: a second call on the object
    that a first call leaves behind returns the same number and leaves the
    object as it is. *)
Theorem varobj_get_num_children_stable (G : gdb_core) (r : varobj_root)
    (parent : option varobj) (var : varobj) (n : Z) (var' : varobj) :
  varobj_get_num_children G r parent var = Some (n, var') ->
  varobj_get_num_children G r parent var' = Some (n, var').
Proof.
  unfold varobj_get_num_children. intros H.
  destruct (exp r); [|inversion H; subst; reflexivity].
  destruct (num_children var =? -1) eqn:E.
  - destruct (number_of_children G r parent var) as [k|] eqn:Ek;
      cbn in H; [|discriminate].
    inversion H; subst n var'; clear H.
    rewrite number_of_children_set_num_children, Ek.
    destruct var; cbn.
    destruct (k =? -1) eqn:E2; reflexivity.
  - inversion H; subst n var'; clear H. now rewrite E.
Qed.

Lemma varobj_get_num_children_stable_witness :
  varobj_get_num_children Demo.core Demo.c_root None Demo.array_var
  = Some (3, set_num_children Demo.array_var 3)
  /\ varobj_get_num_children Demo.core Demo.c_root None
       (set_num_children Demo.array_var 3)
     = Some (3, set_num_children Demo.array_var 3).
Proof.
  split; [reflexivity|].
  apply (varobj_get_num_children_stable Demo.core Demo.c_root None
           Demo.array_var 3 (set_num_children Demo.array_var 3)).
  reflexivity.
Defined.

(** ** Children of an access-level bucket of a C++ class *)

Section Buckets.

Variable G : gdb_core.

Lemma fake_child_type_index_done (t : type_ptr) (sel : field -> bool)
    (l : list field) (i idx : Z) :
  idx < 0 -> fake_child_type_index G t sel l i idx = Some (i - 1).
Proof.
  intros H. apply Z.ltb_lt in H. destruct l; cbn; now rewrite H.
Qed.

Lemma selected_members_cons (t : type_ptr) (sel : field -> bool) (i : Z)
    (f : field) (l : list field) :
  selected_members G t sel i (f :: l) =
  if negb (is_vptr_field G t i) && sel f
  then f :: selected_members G t sel (i + 1) l
  else selected_members G t sel (i + 1) l.
Proof.
  unfold selected_members. cbn [indexed_from filter fst snd].
  destruct (negb (is_vptr_field G t i) && sel f); reflexivity.
Qed.

(** The loop of cplus_make_name_of_child stops at the entry of the
    [idx]-th selected member. *)
Lemma fake_child_type_index_found (t : type_ptr) (sel : field -> bool)
    (l : list field) :
  forall i idx f,
    0 <= idx ->
    nth_error (selected_members G t sel i l) (Z.to_nat idx) = Some f ->
    exists k, fake_child_type_index G t sel l i idx = Some k
              /\ i <= k
              /\ nth_error l (Z.to_nat (k - i)) = Some f.
Proof.
  induction l as [|g l IH]; intros i idx f Hidx Hnth.
  - unfold selected_members in Hnth. cbn in Hnth.
    destruct (Z.to_nat idx); discriminate.
  - rewrite selected_members_cons in Hnth.
    cbn [fake_child_type_index].
    assert (H0 : (idx <? 0) = false) by (apply Z.ltb_ge; lia).
    rewrite H0.
    destruct (is_vptr_field G t i) eqn:Ev; cbn [negb andb] in Hnth.
    + destruct (IH (i + 1) idx f Hidx Hnth) as (k & Hk & Hle & Hn).
      exists k. split; [exact Hk|]. split; [lia|].
      replace (Z.to_nat (k - i)) with (S (Z.to_nat (k - (i + 1)))) by lia.
      exact Hn.
    + destruct (sel g) eqn:Es.
      * destruct (Z.eq_dec idx 0) as [->|Hne].
        -- cbn in Hnth. inversion Hnth; subst g.
           rewrite fake_child_type_index_done by lia.
           exists i. split; [f_equal; lia|]. split; [lia|].
           now rewrite Z.sub_diag.
        -- replace (Z.to_nat idx) with (S (Z.to_nat (idx - 1))) in Hnth by lia.
           cbn [nth_error] in Hnth.
           destruct (IH (i + 1) (idx - 1) f ltac:(lia) Hnth)
             as (k & Hk & Hle & Hn).
           exists k. split; [exact Hk|]. split; [lia|].
           replace (Z.to_nat (k - i)) with (S (Z.to_nat (k - (i + 1)))) by lia.
           exact Hn.
      * destruct (IH (i + 1) idx f Hidx Hnth) as (k & Hk & Hle & Hn).
        exists k. split; [exact Hk|]. split; [lia|].
        replace (Z.to_nat (k - i)) with (S (Z.to_nat (k - (i + 1)))) by lia.
        exact Hn.
Qed.

(** The loop runs past the table when there is no [idx]-th selected
    member. *)
Lemma fake_child_type_index_none (t : type_ptr) (sel : field -> bool)
    (l : list field) :
  forall i idx,
    0 <= idx ->
    nth_error (selected_members G t sel i l) (Z.to_nat idx) = None ->
    fake_child_type_index G t sel l i idx = None.
Proof.
  induction l as [|g l IH]; intros i idx Hidx Hnth.
  - cbn. assert (H0 : (idx <? 0) = false) by (apply Z.ltb_ge; lia).
    now rewrite H0.
  - rewrite selected_members_cons in Hnth.
    cbn [fake_child_type_index].
    assert (H0 : (idx <? 0) = false) by (apply Z.ltb_ge; lia).
    rewrite H0.
    destruct (is_vptr_field G t i) eqn:Ev; cbn [negb andb] in Hnth.
    + now apply IH.
    + destruct (sel g) eqn:Es.
      * destruct (Z.eq_dec idx 0) as [->|Hne]; [discriminate Hnth|].
        replace (Z.to_nat idx) with (S (Z.to_nat (idx - 1))) in Hnth by lia.
        cbn [nth_error] in Hnth. apply IH; [lia|exact Hnth].
      * now apply IH.
Qed.

(** The loop of cplus_real_type_index_for_fake_child_index stops at the
    same entry, and returns -1 when there is none. *)
Lemma real_type_index_loop_spec (t : type_ptr) (sel : field -> bool)
    (l : list field) :
  forall i nf idx,
    0 <= idx ->
    real_type_index_loop G t sel l i nf (nf + idx) =
    match fake_child_type_index G t sel l i idx with
    | Some k => k
    | None => -1
    end.
Proof.
  induction l as [|g l IH]; intros i nf idx Hidx.
  - cbn. assert (H0 : (idx <? 0) = false) by (apply Z.ltb_ge; lia).
    now rewrite H0.
  - cbn [real_type_index_loop fake_child_type_index].
    assert (H0 : (idx <? 0) = false) by (apply Z.ltb_ge; lia).
    rewrite H0.
    destruct (is_vptr_field G t i) eqn:Ev.
    + now apply IH.
    + destruct (sel g) eqn:Es.
      * destruct (Z.eq_dec idx 0) as [->|Hne].
        -- rewrite Z.add_0_r, Z.eqb_refl.
           rewrite fake_child_type_index_done by lia. lia.
        -- assert (H1 : (nf =? nf + idx) = false) by (apply Z.eqb_neq; lia).
           rewrite H1.
           replace (nf + idx) with (nf + 1 + (idx - 1)) by lia.
           apply IH. lia.
      * now apply IH.
Qed.

Lemma fake_child_type_index_ext (t : type_ptr) (sel sel' : field -> bool)
    (l : list field) :
  (forall f, sel f = sel' f) ->
  forall i idx,
    fake_child_type_index G t sel l i idx
    = fake_child_type_index G t sel' l i idx.
Proof.
  intros He. induction l as [|g l IH]; intros i idx; cbn; [reflexivity|].
  rewrite He. destruct (idx <? 0); [reflexivity|].
  destruct (is_vptr_field G t i); [apply IH|].
  destruct (sel' g); apply IH.
Qed.

Lemma make_name_of_bucket_child (gp parent : varobj) (ty : type_ptr)
    (s : vsections) (index_ : Z) :
  fake_child parent = true ->
  name parent = Some (section_name s) ->
  fst (get_type_deref G gp) = Some ty ->
  TYPE_CODE G ty = TYPE_CODE_STRUCT \/ TYPE_CODE G ty = TYPE_CODE_UNION ->
  cplus_make_name_of_child G (Some gp) parent index_ =
  match fake_child_type_index G ty (bucket_test s)
          (skipn (Z.to_nat (TYPE_N_BASECLASSES G ty)) (fields (type_at G ty)))
          (TYPE_N_BASECLASSES G ty) index_ with
  | None => None
  | Some type_index => option_map Some (TYPE_FIELD_NAME G ty type_index)
  end.
Proof.
  intros Hf Hn Hty Hc. unfold cplus_make_name_of_child, CPLUS_FAKE_CHILD.
  rewrite Hf, Hty, Hn.
  assert (Hsel :
    fake_child_type_index G ty
      (if (section_name s =? "private")%string then TYPE_FIELD_PRIVATE_bit
       else if (section_name s =? "protected")%string
            then TYPE_FIELD_PROTECTED_bit
            else fun f => negb (TYPE_FIELD_PRIVATE_bit f)
                          && negb (TYPE_FIELD_PROTECTED_bit f))
      (skipn (Z.to_nat (TYPE_N_BASECLASSES G ty)) (fields (type_at G ty)))
      (TYPE_N_BASECLASSES G ty) index_
    = fake_child_type_index G ty (bucket_test s)
        (skipn (Z.to_nat (TYPE_N_BASECLASSES G ty)) (fields (type_at G ty)))
        (TYPE_N_BASECLASSES G ty) index_).
  { destruct s; cbn [section_name String.eqb Ascii.eqb Bool.eqb bucket_test];
      try reflexivity.
    apply fake_child_type_index_ext. intros f. apply andb_comm. }
  destruct Hc as [Hc|Hc]; rewrite Hc; rewrite Hsel; reflexivity.
Qed.

(** X11.  cplus_make_name_of_child and
    cplus_real_type_index_for_fake_child_index select the same member:
    for a child of the bucket "public", "private" or "protected" of a
    class, the child name is the name of the field at the index that
    cplus_real_type_index_for_fake_child_index returns, and where that
    function returns -1 the loop of cplus_make_name_of_child runs past the
    end of the field table. *)
Theorem cplus_real_type_index_agrees (gp parent : varobj) (ty : type_ptr)
    (s : vsections) (num : Z) :
  fake_child parent = true ->
  name parent = Some (section_name s) ->
  fst (get_type_deref G gp) = Some ty ->
  TYPE_CODE G ty = TYPE_CODE_STRUCT \/ TYPE_CODE G ty = TYPE_CODE_UNION ->
  0 <= TYPE_N_BASECLASSES G ty ->
  0 <= num ->
  (cplus_real_type_index_for_fake_child_index G ty s num = -1 ->
   cplus_make_name_of_child G (Some gp) parent num = None)
  /\ (cplus_real_type_index_for_fake_child_index G ty s num <> -1 ->
      cplus_make_name_of_child G (Some gp) parent num =
      option_map Some
        (TYPE_FIELD_NAME G ty
           (cplus_real_type_index_for_fake_child_index G ty s num))).
Proof.
  intros Hf Hn Hty Hc Hnb Hnum.
  rewrite (make_name_of_bucket_child gp parent ty s num Hf Hn Hty Hc).
  change (cplus_real_type_index_for_fake_child_index G ty s num)
    with (real_type_index_loop G ty (bucket_test s)
            (skipn (Z.to_nat (TYPE_N_BASECLASSES G ty)) (fields (type_at G ty)))
            (TYPE_N_BASECLASSES G ty) 0 num).
  pose proof (real_type_index_loop_spec ty (bucket_test s)
                (skipn (Z.to_nat (TYPE_N_BASECLASSES G ty))
                   (fields (type_at G ty)))
                (TYPE_N_BASECLASSES G ty) 0 num Hnum) as Hs.
  rewrite Z.add_0_l in Hs. rewrite Hs.
  destruct (nth_error
              (selected_members G ty (bucket_test s) (TYPE_N_BASECLASSES G ty)
                 (skipn (Z.to_nat (TYPE_N_BASECLASSES G ty))
                    (fields (type_at G ty))))
              (Z.to_nat num)) as [f|] eqn:En.
  - destruct (fake_child_type_index_found _ _ _ _ _ _ Hnum En)
      as (k & Hk & Hle & _).
    rewrite Hk. split; [lia|reflexivity].
  - rewrite (fake_child_type_index_none _ _ _ _ _ Hnum En).
    split; [reflexivity|]. intros H. now elim H.
Qed.

Lemma selected_members_bucket (ty : type_ptr) (s : vsections) :
  (s = v_private_s ->
   forall f, In f (member_fields G ty) ->
             field_private f = true -> field_protected f = false) ->
  selected_members G ty (bucket_test s) (TYPE_N_BASECLASSES G ty)
    (skipn (Z.to_nat (TYPE_N_BASECLASSES G ty)) (fields (type_at G ty)))
  = bucket G ty s.
Proof.
  unfold selected_members, bucket, member_fields.
  generalize (indexed_from (TYPE_N_BASECLASSES G ty)
                (skipn (Z.to_nat (TYPE_N_BASECLASSES G ty))
                   (fields (type_at G ty)))).
  intros l Hex. induction l as [|[i f] l IH]; [reflexivity|].
  cbn [filter fst snd map] in *.
  destruct (is_vptr_field G ty i) eqn:Ev; cbn [negb andb map filter].
  - apply IH. intros Hs g Hg. apply Hex; [exact Hs|]. exact Hg.
  - cbn [map filter] in Hex.
    assert (Heq : bucket_test s f = vsections_eqb (field_access f) s).
    { unfold field_access, TYPE_FIELD_PROTECTED_bit, TYPE_FIELD_PRIVATE_bit.
      destruct s; cbn [bucket_test];
        unfold TYPE_FIELD_PROTECTED_bit, TYPE_FIELD_PRIVATE_bit.
      - destruct (field_protected f), (field_private f); reflexivity.
      - destruct (field_private f) eqn:Ep.
        + rewrite (Hex eq_refl f (or_introl eq_refl) Ep). reflexivity.
        + destruct (field_protected f); reflexivity.
      - destruct (field_protected f), (field_private f); reflexivity. }
    rewrite Heq.
    assert (IH' : map snd
                    (filter (fun p => negb (is_vptr_field G ty (fst p))
                                      && bucket_test s (snd p)) l)
                  = filter (fun f0 => vsections_eqb (field_access f0) s)
                      (map snd
                         (filter (fun p => negb (is_vptr_field G ty (fst p)))
                            l))).
    { apply IH. intros Hs g Hg. apply Hex; [exact Hs|]. now right. }
    destruct (vsections_eqb (field_access f) s) eqn:Ea;
      cbn [map filter fst snd]; rewrite Ea, IH'; reflexivity.
Qed.

Lemma TYPE_FIELD_NAME_skipn (ty : type_ptr) (k : Z) (f : field) :
  0 <= TYPE_N_BASECLASSES G ty -> TYPE_N_BASECLASSES G ty <= k ->
  nth_error (skipn (Z.to_nat (TYPE_N_BASECLASSES G ty)) (fields (type_at G ty)))
    (Z.to_nat (k - TYPE_N_BASECLASSES G ty)) = Some f ->
  TYPE_FIELD_NAME G ty k = Some (field_name f).
Proof.
  intros Hnb Hk Hn. unfold TYPE_FIELD_NAME, TYPE_FIELD.
  assert (H0 : (k <? 0) = false) by (apply Z.ltb_ge; lia).
  rewrite H0. rewrite nth_error_skipn in Hn.
  replace (Z.to_nat (TYPE_N_BASECLASSES G ty)
           + Z.to_nat (k - TYPE_N_BASECLASSES G ty))%nat
    with (Z.to_nat k) in Hn by lia.
  now rewrite Hn.
Qed.

(** X12.  The children of a bucket of a C++ class are its members of that
    access level: for the fake child "public", "private" or "protected" of
    an object of class type, cplus_number_of_children is the number of
    members of that level (the fields after the base classes, without the
    virtual table pointer), and the name of child [i] is the name of the
    [i]-th of them in declaration order.  For "private" this needs that no
    member is marked both private and protected. *)
Theorem cplus_bucket_children (gp var : varobj) (ty : type_ptr) (s : vsections) :
  fake_child var = true ->
  name var = Some (section_name s) ->
  fst (get_type_deref G gp) = Some ty ->
  TYPE_CODE G ty = TYPE_CODE_STRUCT \/ TYPE_CODE G ty = TYPE_CODE_UNION ->
  0 <= TYPE_N_BASECLASSES G ty ->
  (s = v_private_s ->
   forall f, In f (member_fields G ty) ->
             field_private f = true -> field_protected f = false) ->
  cplus_number_of_children G (Some gp) var
  = Some (Z.of_nat (List.length (bucket G ty s)))
  /\ forall i f,
       0 <= i ->
       nth_error (bucket G ty s) (Z.to_nat i) = Some f ->
       cplus_make_name_of_child G (Some gp) var i = Some (Some (field_name f)).
Proof.
  intros Hf Hn Hty Hc Hnb Hex. split.
  - unfold cplus_number_of_children, CPLUS_FAKE_CHILD. rewrite Hf. cbn [negb].
    rewrite Hty, Hn, cplus_class_num_children_buckets.
    destruct s; reflexivity.
  - intros i f Hi Hnth.
    rewrite (make_name_of_bucket_child gp var ty s i Hf Hn Hty Hc).
    rewrite <- (selected_members_bucket ty s Hex) in Hnth.
    destruct (fake_child_type_index_found _ _ _ _ _ _ Hi Hnth)
      as (k & Hk & Hle & Hfield).
    rewrite Hk.
    now rewrite (TYPE_FIELD_NAME_skipn ty k f Hnb Hle Hfield).
Qed.

End Buckets.

(** ** Components of the state that a computation leaves alone *)

Lemma preserves_ret {A X} (f : gdb -> X) (a : A) : preserves f (ret a).
Proof. intros st. reflexivity. Qed.

Lemma preserves_throw {A X} (f : gdb -> X) (msg : string) :
  preserves f (@throw A msg).
Proof. intros st. reflexivity. Qed.

Lemma preserves_undefined {A X} (f : gdb -> X) : preserves f (@undefined A).
Proof. intros st. reflexivity. Qed.

Lemma preserves_lift {A X} (f : gdb -> X) (o : outcome A) :
  preserves f (lift o).
Proof. intros st. reflexivity. Qed.

Lemma preserves_get_ses {X} (f : gdb -> X) : preserves f get_ses.
Proof. intros st. reflexivity. Qed.

Lemma preserves_get_reg {X} (f : gdb -> X) : preserves f get_reg.
Proof. intros st. reflexivity. Qed.

Lemma preserves_bind {A B X} (f : gdb -> X) (c : M A) (k : A -> M B) :
  preserves f c -> (forall a, preserves f (k a)) -> preserves f (bind c k).
Proof.
  intros Hc Hk st. unfold bind. specialize (Hc st).
  destruct (c st) as [[a|msg|] st1]; cbn [snd] in *.
  - now rewrite Hk.
  - exact Hc.
  - exact Hc.
Qed.

Lemma preserves_on_error {A X} (f : gdb -> X) (c : M A) (cl : M unit) :
  preserves f c -> preserves f cl -> preserves f (on_error c cl).
Proof.
  intros Hc Hcl st. unfold on_error. specialize (Hc st).
  destruct (c st) as [[a|msg|] st1]; cbn [snd] in *.
  - exact Hc.
  - now rewrite Hcl.
  - exact Hc.
Qed.

Ltac preserves_leaf := solve [intros ?; reflexivity].

Ltac preserves_with tac :=
  repeat first
    [ tac
    | apply preserves_ret
    | apply preserves_throw
    | apply preserves_undefined
    | apply preserves_lift
    | apply preserves_get_ses
    | apply preserves_get_reg
    | match goal with
      | |- preserves _ (gdb_evaluate_expression _ _) => preserves_leaf
      | |- preserves _ (gdb_evaluate_type _ _) => preserves_leaf
      | |- preserves _ (gdb_parse_exp_1 _ _ _) => preserves_leaf
      | |- preserves _ (gdb_value_assign _ _ _) => preserves_leaf
      | |- preserves _ new_variable => preserves_leaf
      | |- preserves _ new_root_variable => preserves_leaf
      | |- preserves _ (select_frame _) => preserves_leaf
      | |- preserves _ (modify_ses _) => preserves_leaf
      | |- preserves _ (put_ses _) => preserves_leaf
      | |- preserves _ (put_reg _) => preserves_leaf
      | |- preserves _ (match ?x with _ => _ end) => destruct x
      end
    | apply preserves_bind; [| intros ?]
    | apply preserves_on_error ].

Ltac preserves_tac := preserves_with fail.

Lemma defined_ret {A} (a : A) : defined (ret a).
Proof. intros st; discriminate. Qed.

Lemma defined_throw {A} (msg : string) : defined (@throw A msg).
Proof. intros st; discriminate. Qed.

Lemma defined_bind {A B} (c : M A) (k : A -> M B) :
  defined c -> (forall a, defined (k a)) -> defined (bind c k).
Proof.
  intros Hc Hk st. unfold bind. specialize (Hc st).
  destruct (c st) as [[a|msg|] st1]; cbn [fst] in *.
  - apply Hk.
  - discriminate.
  - now elim Hc.
Qed.

Lemma defined_on_error {A} (c : M A) (cl : M unit) :
  defined c -> defined (on_error c cl).
Proof.
  intros Hc st. unfold on_error. specialize (Hc st).
  destruct (c st) as [[a|msg|] st1]; cbn [fst] in *;
    [discriminate|discriminate|now elim Hc].
Qed.

Lemma ses_only_defined {A} (c : M A) : ses_only c -> defined c.
Proof.
  intros H st. destruct (H st) as [_ Ho]. intros E. now rewrite E in Ho.
Qed.

(** ** Deleting the children of an object *)

(** X13.  varobj_delete with only_children set deletes the descendants and
    keeps the object: it returns the number of named descendants, lists
    their names in the reverse of the order of deletion, and leaves the
    object without children.  In a registry whose chains hold each name
    once no descendant name is found afterwards, and every other name, the
    object's own included, is found exactly when it was found before. *)
Theorem varobj_delete_only_children (r : varobj_root) (var : varobj) (st : gdb) :
  registry_ok (reg st) ->
  exists st',
    varobj_delete r var true true st =
      (Ret (Z.of_nat (List.length (descendant_names var)),
            Some (rev (descendant_names var)),
            Some (set_children var [])), st')
    /\ ses st' = ses st
    /\ (forall d, In d (descendant_names var) -> ~ registered (reg st') d)
    /\ (forall m, ~ In m (descendant_names var) ->
                  (registered (reg st') m <-> registered (reg st) m)).
Proof.
  intros Hok.
  pose proof (delete_variable_1_children_post r var true ([None], 0, reg st))
    as Hpost.
  destruct (delete_variable_1 r var true true ([None], 0, reg st))
    as [[stk cnt] rg'] eqn:Ed.
  cbn in Hpost. destruct Hpost as (Hstk & Hcnt & Htbl).
  exists (set_reg st rg').
  assert (Hrun : varobj_delete r var true true st =
                 (Ret (Z.of_nat (List.length (descendant_names var)),
                       Some (rev (descendant_names var)),
                       Some (set_children var [])), set_reg st rg')).
  { unfold varobj_delete, delete_variable, bind, get_reg, put_reg, cppush.
    cbv beta zeta. unfold cpstack in *. rewrite Ed. cbv beta iota.
    subst stk cnt.
    rewrite <- map_rev, dellist_loop_all by (rewrite length_rev; lia).
    try rewrite Z.add_0_l. reflexivity. }
  split; [exact Hrun|]. split; [reflexivity|]. split.
  - intros d Hd. unfold registered. cbn [reg set_reg]. rewrite Htbl.
    rewrite tables_unlink_find_same; [intros H; now apply H|exact Hok|exact Hd].
  - intros m Hm. unfold registered. cbn [reg set_reg]. rewrite Htbl.
    rewrite tables_unlink_find_other by exact Hm. tauto.
Qed.

Lemma varobj_delete_only_children_witness :
  registry_ok (reg Demo.tree_state)
  /\ fst (varobj_delete Demo.c_root Demo.tree true true Demo.tree_state)
     = Ret (1, Some ["var1.a"], Some (set_children Demo.tree []))
  /\ ~ registered
         (reg (snd (varobj_delete Demo.c_root Demo.tree true true
                      Demo.tree_state))) "var1.a"
  /\ registered
       (reg (snd (varobj_delete Demo.c_root Demo.tree true true
                    Demo.tree_state))) "var1".
Proof.
  assert (Hok : registry_ok (reg Demo.tree_state)).
  { unfold Demo.tree_state. do 2 apply registry_ok_install.
    apply registry_ok_empty. }
  split; [exact Hok|].
  destruct (varobj_delete_only_children Demo.c_root Demo.tree Demo.tree_state
              Hok) as (st' & Hrun & _ & Hgone & Hkept).
  rewrite Hrun. cbn [fst snd].
  split; [reflexivity|]. split.
  - apply Hgone. cbn. auto.
  - apply Hkept.
    + cbn. intros [H|[]]. discriminate H.
    + unfold registered. vm_compute. discriminate.
Defined.

(** ** varobj_set_value *)

Section SetValueMore.

Variable G : gdb_core.

Local Opaque my_value_equal.

(** The three exits of varobj_set_value. *)
Lemma varobj_set_value_inv (r : varobj_root) (var : varobj) (e : string)
    (st : gdb) (res : Z) (var' : varobj) (st' : gdb) :
  varobj_set_value G r var e st = (Ret (res, var'), st') ->
  (* not assignable *)
  (res = 1 /\ var' = var /\ st' = st
   /\ (value_ var = None \/ variable_editable G r var = Some false
       \/ error var <> 0))
  (* the expression does not parse or evaluate, or the assignment fails *)
  \/ (res = 0
      /\ reg st' = reg st
      /\ ses st' =
         set_scheduler_mode
           (set_input_radix (ses st') 10) (scheduler_mode (ses st))
      /\ deprecated_selected_frame (ses st')
         = deprecated_selected_frame (ses st)
      /\ (var' = var \/ var' = set_updated var true))
  (* assigned *)
  \/ (res = 1
      /\ reg st' = reg st
      /\ scheduler_mode (ses st') = scheduler_mode (ses st)
      /\ input_radix (ses st') = input_radix (ses st)
      /\ deprecated_selected_frame (ses st')
         = deprecated_selected_frame (ses st)
      /\ exists cur ex new val,
           value_ var = Some cur
           /\ variable_editable G r var = Some true
           /\ error var = 0
           /\ parse_exp_1 G e None = Some ex
           /\ evaluate_expression G ex (deprecated_selected_frame (ses st))
              = Some new
           /\ value_assign G cur new = Some val
           /\ var' =
              set_value
                (if fst (my_value_equal G (Some cur) (Some new)) =? 0
                 then set_updated var true else var)
                (Some val)
           /\ trace (ses st') =
              (trace (ses st)
                 ++ [EvParse e None; EvEvaluate ex; EvAssign cur new])%list).
Proof.
  unfold varobj_set_value, set_restore_scheduler_locking_mode,
    restore_scheduler_locking_mode, gdb_parse_exp_1, gdb_evaluate_expression,
    gdb_value_assign.
  intros H. destruct st as [rg ss]. destruct ss.
  minv; cbn in *.
  all: try (left; repeat split; auto; fail).
  all: try (left; repeat split; auto;
            match goal with
            | E : negb (_ =? 0) = true |- _ =>
                right; right; intros Hz; rewrite Hz in E; discriminate E
            end).
  all: try (right; left; repeat split; auto; fail).
  all: try (right; left; repeat split; auto;
            match goal with
            | |- context [if ?c then _ else _] => destruct c; auto
            end; fail).
  right; right. repeat split.
  do 4 eexists. repeat split; try eassumption.
  - match goal with
    | E : negb (?x =? 0) = false |- ?x = 0 =>
        apply Z.eqb_eq; destruct (x =? 0); [reflexivity|discriminate E]
    end.
  - match goal with
    | E : my_value_equal _ _ _ = _ |- _ => rewrite E
    end. cbn [fst]. reflexivity.
  - rewrite <- !app_assoc. reflexivity.
Qed.

Local Transparent my_value_equal.

(** X14.  varobj_set_value restores what it sets temporarily whenever it
    returns: the scheduler-locking mode is the one found at entry, the
    registry and the selected frame are untouched, the result is 0 or 1,
    and when the result is 1 input_radix is the one found at entry. *)
Theorem varobj_set_value_restores (r : varobj_root) (var : varobj) (e : string)
    (st : gdb) (res : Z) (var' : varobj) (st' : gdb) :
  varobj_set_value G r var e st = (Ret (res, var'), st') ->
  scheduler_mode (ses st') = scheduler_mode (ses st)
  /\ reg st' = reg st
  /\ deprecated_selected_frame (ses st') = deprecated_selected_frame (ses st)
  /\ (res = 0 \/ res = 1)
  /\ (res = 1 -> input_radix (ses st') = input_radix (ses st)).
Proof.
  intros H. apply varobj_set_value_inv in H.
  destruct H as [(-> & -> & -> & _)
                |[(-> & Hr & Hs & Hf & _)|(-> & Hr & Hm & Hi & Hf & _)]].
  - repeat split; auto.
  - repeat split; auto; [now rewrite Hs|discriminate].
  - repeat split; auto.
Qed.

(** X15.  When varobj_set_value returns 0 (the expression does not parse or
    evaluate, or the assignment fails) the object keeps its value and its
    error flag, and input_radix is left at 10: only the successful exit
    puts the saved radix back. *)
Theorem varobj_set_value_failure (r : varobj_root) (var : varobj) (e : string)
    (st : gdb) (var' : varobj) (st' : gdb) :
  varobj_set_value G r var e st = (Ret (0, var'), st') ->
  value_ var' = value_ var
  /\ error var' = error var
  /\ input_radix (ses st') = 10.
Proof.
  intros H. apply varobj_set_value_inv in H.
  destruct H as [(E & _)|[(_ & _ & Hs & _ & Hv)|(E & _)]];
    try discriminate E.
  rewrite Hs. destruct Hv as [->| ->]; destruct var; repeat split.
Qed.

(** X16.  When varobj_set_value assigns, the object holds the value that
    the assignment returns, and it is marked updated when the value it held
    differs from the one assigned (my_value_equal); a mark that is already
    there stays. *)
Theorem varobj_set_value_assigns (r : varobj_root) (var : varobj) (e : string)
    (st : gdb) (var' : varobj) (st' : gdb) (cur : value) :
  varobj_set_value G r var e st = (Ret (1, var'), st') ->
  value_ var = Some cur ->
  variable_editable G r var = Some true ->
  error var = 0 ->
  exists ex new val,
    parse_exp_1 G e None = Some ex
    /\ evaluate_expression G ex (deprecated_selected_frame (ses st)) = Some new
    /\ value_assign G cur new = Some val
    /\ value_ var' = Some val
    /\ updated var' =
       (updated var || (fst (my_value_equal G (Some cur) (Some new)) =? 0))
    /\ trace (ses st') =
       (trace (ses st) ++ [EvParse e None; EvEvaluate ex; EvAssign cur new])%list.
Proof.
  intros H Hv Hed Herr. apply varobj_set_value_inv in H.
  destruct H as [(_ & _ & _ & [Hn|[Hn|Hn]])|[(E & _)|(_ & _ & _ & _ & _ & H)]].
  - rewrite Hv in Hn. discriminate.
  - rewrite Hed in Hn. discriminate.
  - now elim Hn.
  - discriminate E.
  - destruct H as (cur' & ex & new & val & Hc & _ & _ & Hp & He & Ha & Hvar & Ht).
    rewrite Hv in Hc. inversion Hc; subst cur'.
    exists ex, new, val. repeat split; auto.
    + subst var'. destruct var; reflexivity.
    + subst var'.
      destruct (fst (my_value_equal G (Some cur) (Some new)) =? 0);
        destruct var; cbn; [now rewrite orb_true_r|now rewrite orb_false_r].
Qed.

(** X17.  An assignment that changes the value is reported by the next
    update: after varobj_set_value has marked an editable object updated,
    the test that varobj_update applies to it succeeds whatever value the
    object is then found to have, even one equal to the stored value. *)
Theorem varobj_set_value_then_update (r : varobj_root) (var : varobj)
    (e : string) (st : gdb) (res : Z) (var' : varobj) (st' : gdb) :
  varobj_set_value G r var e st = (Ret (res, var'), st') ->
  variable_editable G r var = Some true ->
  fake_child var = false \/ lang r = Some vlang_cplus
  \/ lang r = Some vlang_java ->
  updated var' = true ->
  forall (new' : option value) (error2 : Z),
    value_changed_test G false var' new' error2 = (true, error2).
Proof.
  intros H Hed Hf Hup new' error2.
  assert (Hch : varobj_value_is_changeable_p G var' = true).
  { assert (Hsame : varobj_value_is_changeable_p G var'
                    = varobj_value_is_changeable_p G var).
    { apply varobj_set_value_inv in H.
      destruct H as [(_ & -> & _)
                    |[(_ & _ & _ & _ & [->| ->])|(_ & _ & _ & _ & _ & H)]].
      - reflexivity.
      - reflexivity.
      - destruct var; reflexivity.
      - destruct H as (cur & ex & new & val & _ & _ & _ & _ & _ & _ & -> & _).
        destruct (fst (my_value_equal G (Some cur) (Some new)) =? 0);
          destruct var; reflexivity. }
    rewrite Hsame.
    unfold variable_editable, java_variable_editable, cplus_variable_editable,
      c_variable_editable, varobj_value_is_changeable_p, CPLUS_FAKE_CHILD
      in *.
    assert (Hfake : fake_child var = false).
    { destruct Hf as [Hf|[Hf|Hf]]; [exact Hf| |]; rewrite Hf in Hed;
        destruct (fake_child var); [discriminate|reflexivity
                                   |discriminate|reflexivity]. }
    rewrite Hfake in *.
    destruct (lang r) as [[| | |]|]; try discriminate;
      destruct (get_type G var) as [ty|]; try discriminate;
      destruct (TYPE_CODE G ty); try discriminate; reflexivity. }
  unfold value_changed_test. now rewrite Hch, Hup.
Qed.

End SetValueMore.

(** ** varobj_create *)

Section CreateMore.

Variable G : gdb_core.

Lemma preserves_mode_create_fill var e fr blk kind :
  preserves (fun st => scheduler_mode (ses st))
    (create_fill G var e fr blk kind).
Proof.
  unfold create_fill, create_evaluate, get_selected_frame.
  preserves_tac.
Qed.

Lemma preserves_mode_install r var :
  preserves (fun st => scheduler_mode (ses st)) (install_variable r var).
Proof. unfold install_variable. preserves_tac. Qed.

Lemma defined_install_named r var n :
  obj_name var = Some n -> defined (install_variable r var).
Proof.
  intros Hn st. unfold install_variable. rewrite Hn.
  unfold bind, get_reg.
  destruct (chain_find n (varobj_table (reg st) (varobj_hash n)));
    discriminate.
Qed.

(** X18.  varobj_create restores the scheduler-locking mode on every exit:
    whether it returns an object, returns NULL or leaves through error (),
    the mode afterwards is the mode found at entry. *)
Theorem varobj_create_restores_scheduler (objname expression : option string)
    (frame_ : CORE_ADDR) (blk : option block) (kind : varobj_type) (st : gdb) :
  scheduler_mode
    (ses (snd (varobj_create G objname expression frame_ blk kind st)))
  = scheduler_mode (ses st).
Proof.
  destruct (varobj_runs_all_threads G) eqn:Er.
  - (* nothing sets the mode *)
    assert (Hp : preserves (fun st => scheduler_mode (ses st))
                   (varobj_create G objname expression frame_ blk kind)).
    { unfold varobj_create. rewrite Er.
      preserves_with
        ltac:(first [ apply preserves_mode_create_fill
                    | apply preserves_mode_install ]). }
    apply Hp.
  - unfold varobj_create. rewrite Er.
    unfold bind at 1. cbn [new_root_variable].
    destruct (new_root_variable st) as [[var| |] st0] eqn:En;
      try (unfold new_root_variable, new_variable in En; cbn in En;
           discriminate En).
    assert (Hm0 : scheduler_mode (ses st0) = scheduler_mode (ses st)).
    { unfold new_root_variable, new_variable in En. cbn in En.
      inversion En; subst. reflexivity. }
    unfold bind at 1. cbn [get_ses]. unfold bind at 1.
    cbn [modify_ses]. rewrite Hm0.
    set (st1 := set_ses st0 (set_scheduler_mode (ses st0) scheduler_locking_on)).
    set (m := scheduler_mode (ses st)).
    assert (Hcl : forall {A} (a : A) s,
               scheduler_mode
                 (ses (snd (bind (restore_scheduler_locking_mode m)
                              (fun _ => ret a) s))) = m).
    { intros A a s. reflexivity. }
    unfold on_error.
    destruct expression as [e|].
    + unfold bind at 1.
      pose proof (ses_only_defined _
                    (ses_only_create_fill G var e frame_ blk kind) st1) as Hd.
      destruct (create_fill G var e frame_ blk kind st1)
        as [[[var'|]|msg|] st2]; cbn [fst] in Hd.
      * destruct objname as [n|]; [|apply Hcl].
        unfold bind at 1.
        pose proof (defined_install_named
                      (rv_root (with_var var' (set_obj_name (rv_var var') (Some n))))
                      (rv_var (with_var var' (set_obj_name (rv_var var') (Some n))))
                      n ltac:(destruct var' as [? []]; reflexivity) st2) as Hi.
        destruct (install_variable _ _ st2) as [[ok| |] st3]; cbn [fst] in Hi.
        -- destruct (ok =? 0); apply Hcl.
        -- reflexivity.
        -- now elim Hi.
      * apply Hcl.
      * reflexivity.
      * now elim Hd.
    + unfold bind at 1. cbn [ret].
      destruct objname as [n|]; [|apply Hcl].
      unfold bind at 1.
      pose proof (defined_install_named
                    (rv_root (with_var var (set_obj_name (rv_var var) (Some n))))
                    (rv_var (with_var var (set_obj_name (rv_var var) (Some n))))
                    n ltac:(destruct var as [? []]; reflexivity) st1) as Hi.
      destruct (install_variable _ _ st1) as [[ok| |] st3]; cbn [fst] in Hi.
      * destruct (ok =? 0); apply Hcl.
      * reflexivity.
      * now elim Hi.
Qed.

Lemma install_variable_fail r var st o st' :
  install_variable r var st = (o, st') ->
  (forall k, o <> Ret k) -> st' = st.
Proof.
  unfold install_variable. intros H Ho.
  destruct (obj_name var) as [n|]; [|now inversion H].
  unfold bind, get_reg in H.
  destruct (chain_find n (varobj_table (reg st) (varobj_hash n)));
    [now inversion H|].
  cbn in H. inversion H; subst. now elim (Ho 1).
Qed.

Lemma varobj_get_handle_reg (n : string) (st1 st2 : gdb) :
  reg st1 = reg st2 ->
  fst (varobj_get_handle n st1) = fst (varobj_get_handle n st2).
Proof.
  intros H. unfold varobj_get_handle, bind, get_reg. rewrite H.
  destruct (chain_find n (varobj_table (reg st2) (varobj_hash n)));
    reflexivity.
Qed.

Lemma create_fill_rootvar var e fr blk kind st var' st' :
  create_fill G var e fr blk kind st = (Ret (Some var'), st') ->
  rootvar (rv_root var') = Some (addr (rv_var var'))
  /\ addr (rv_var var') = addr (rv_var var).
Proof.
  unfold create_fill. intros H. minv.
  all: cbn [rv_root rv_var with_root set_rootvar rootvar]; split;
    try reflexivity.
  all: repeat match goal with
         | H : create_evaluate _ _ _ _ _ _ _ _ = _ |- _ =>
             unfold create_evaluate in H; minv
         end.
  all: cbn; try reflexivity.
  all: repeat match goal with
         | |- context [let '(_, _) := ?x in _] => destruct x
         | |- context [if ?x then _ else _] => destruct x
         end; cbn; reflexivity.
Qed.

(** What varobj_create has done when it returns an object of a given
    name: the state in which the object was installed. *)
Lemma varobj_create_named_inv n e fr blk kind st v st' :
  varobj_create G (Some n) e fr blk kind st = (Ret (Some v), st') ->
  exists st1 k st2,
    reg st1 = reg st
    /\ install_variable (rv_root v) (rv_var v) st1 = (Ret k, st2)
    /\ reg st' = reg st2
    /\ obj_name (rv_var v) = Some n
    /\ (e <> None -> is_root_p (rv_root v) (rv_var v) = true).
Proof.
  unfold varobj_create, new_root_variable, new_variable,
    restore_scheduler_locking_mode.
  intros H. minv.
  all: match goal with
       | H : install_variable ?r ?x ?s1 = (Ret ?k, ?s2) |- _ =>
           exists s1, k, s2
       end.
  all: cbn [reg set_ses set_reg ses].
  all: repeat match goal with
         | H : create_fill _ ?v ?e ?fr ?blk ?kind ?s = (Ret _, ?s') |- _ =>
             pose proof (proj1 (ses_only_create_fill G v e fr blk kind s))
               as Hreg;
             rewrite H in Hreg; cbn [snd reg set_ses] in Hreg;
             pose proof (create_fill_rootvar _ _ _ _ _ _ _ _ H) as [Hrv _];
             clear H
         end.
  all: repeat split; auto.
  all: try (intros _; unfold is_root_p; cbn [rv_root rv_var with_var];
            match goal with
            | H : rootvar _ = Some _ |- _ => rewrite H
            end;
            match goal with
            | |- context [addr (set_obj_name ?x _)] => destruct x
            end; cbn; apply Z.eqb_refl).
  all: try (intros Hne; now elim Hne).
Qed.

(** X19.  Creating a named object and looking the name up is a round
    trip: when varobj_create returns an object for an object name,
    varobj_get_handle finds that object under the name, the object carries
    the name and has no children, and every other name is found exactly
    when it was found before.  When rootcount is the length of the list of
    roots and an expression was given, varobj_list then returns the new
    object first, followed by the roots it returned before. *)
Theorem varobj_create_then_lookup (n : string) (e : option string)
    (fr : CORE_ADDR) (blk : option block) (kind : varobj_type) (st : gdb)
    (v : root_var) (st' : gdb) :
  varobj_create G (Some n) e fr blk kind st = (Ret (Some v), st') ->
  fst (varobj_get_handle n st') = Ret (addr (rv_var v))
  /\ obj_name (rv_var v) = Some n
  /\ children (rv_var v) = []
  /\ (forall m, m <> n -> (registered (reg st') m <-> registered (reg st) m))
  /\ (e <> None -> roots_tally (reg st) ->
      varobj_list (reg st')
      = Some (rootcount (reg st) + 1,
              Some (addr (rv_var v)) :: map rc_rootvar (rootlist (reg st)))).
Proof.
  intros H.
  pose proof (varobj_create_children G _ _ _ _ _ _ _ _ H) as Hkids.
  apply varobj_create_named_inv in H.
  destruct H as (st1 & k & st2 & Hr1 & Hi & Hr2 & Hn & Hroot).
  split; [|split; [exact Hn|split; [exact Hkids|split]]].
  - rewrite (varobj_get_handle_reg n st' st2 Hr2).
    now rewrite (install_variable_lookup _ _ n _ _ _ Hn Hi).
  - intros m Hm. unfold registered. rewrite Hr2.
    rewrite (install_variable_find_other _ _ n _ _ _ m Hi Hn Hm).
    rewrite Hr1. tauto.
  - intros He Ht. rewrite Hr2.
    assert (Ht1 : roots_tally (reg st1)) by now rewrite Hr1.
    pose proof (install_variable_inv _ _ _ _ _ Hi)
      as (n' & _ & _ & _ & _ & _ & Hl & Hc).
    rewrite (Hroot He) in Hl, Hc.
    rewrite varobj_list_tally.
    + rewrite Hl, Hc, Hr1. cbn [map rc_rootvar].
      pose proof (Hroot He) as Hp. unfold is_root_p in Hp.
      apply opt_ptr_eqb_some in Hp. now rewrite Hp.
    + unfold roots_tally in *. rewrite Hl, Hc. cbn [List.length]. lia.
Qed.

Lemma varobj_create_named_cases (n : string) (e : option string)
    (fr : CORE_ADDR) (blk : option block) (kind : varobj_type) (st : gdb)
    (o : outcome (option root_var)) (st' : gdb) :
  varobj_create G (Some n) e fr blk kind st = (o, st') ->
  (exists v, o = Ret (Some v)) \/ reg st' = reg st.
Proof.
  unfold varobj_create. intros H.
  unfold bind at 1 in H.
  destruct (new_root_variable st) as [[var| |] st0] eqn:En;
    try (unfold new_root_variable, new_variable in En; cbn in En;
         discriminate En).
  assert (Hr0 : reg st0 = reg st).
  { unfold new_root_variable, new_variable in En. cbn in En.
    inversion En; subst. reflexivity. }
  unfold bind at 1 in H. cbn [get_ses] in H. unfold bind at 1 in H.
  set (cl := if varobj_runs_all_threads G then ret tt
             else restore_scheduler_locking_mode (scheduler_mode (ses st0)))
    in H.
  assert (Hcl : forall s, exists s', cl s = (Ret tt, s') /\ reg s' = reg s).
  { intros s. unfold cl. destruct (varobj_runs_all_threads G); eexists;
      split; reflexivity. }
  destruct ((if varobj_runs_all_threads G then ret tt
             else modify_ses
                    (fun ss => set_scheduler_mode ss scheduler_locking_on)) st0)
    as [[[]| |] st1] eqn:Epre;
    try (destruct (varobj_runs_all_threads G); discriminate Epre).
  assert (Hr1 : reg st1 = reg st0).
  { destruct (varobj_runs_all_threads G); inversion Epre; subst; reflexivity. }
  unfold on_error in H. unfold bind at 1 in H.
  set (filled := match e with
                 | Some e0 => create_fill G var e0 fr blk kind
                 | None => ret (Some var)
                 end) in H.
  assert (Hfill : reg (snd (filled st1)) = reg st1).
  { unfold filled. destruct e as [e0|]; [|reflexivity].
    apply (ses_only_create_fill G var e0 fr blk kind st1). }
  destruct (filled st1) as [[[var'|]|msg|] st2]; cbn [snd] in Hfill.
  - unfold bind at 1 in H.
    destruct (install_variable
                (rv_root (with_var var' (set_obj_name (rv_var var') (Some n))))
                (rv_var (with_var var' (set_obj_name (rv_var var') (Some n))))
                st2) as [[ok| |] st3] eqn:Ei.
    + left.
      pose proof (install_variable_inv _ _ _ _ _ Ei) as (_ & _ & _ & Hk & _).
      subst ok. change (1 =? 0) with false in H. cbv iota in H.
      unfold bind in H. destruct (Hcl st3) as (s' & Hs' & _).
      rewrite Hs' in H. inversion H; subst. eexists; reflexivity.
    + right. pose proof (install_variable_fail _ _ _ _ _ Ei) as Hst.
      destruct (Hcl st3) as (s' & Hs' & Hrs'). rewrite Hs' in H.
      inversion H; subst. cbn [snd]. rewrite Hrs', Hst by discriminate.
      congruence.
    + right. pose proof (install_variable_fail _ _ _ _ _ Ei) as Hst.
      inversion H; subst. rewrite Hst by discriminate. congruence.
  - right. unfold bind in H. destruct (Hcl st2) as (s' & Hs' & Hrs').
    rewrite Hs' in H. inversion H; subst. congruence.
  - right. destruct (Hcl st2) as (s' & Hs' & Hrs').
    rewrite Hs' in H. inversion H; subst. cbn [snd]. congruence.
  - right. inversion H; subst. congruence.
Qed.

(** X20.  A creation that does not return an object leaves the registry
    as it was: whenever varobj_create returns NULL or leaves through
    error (), no name has been installed and the list of roots is
    unchanged.  The same holds for every creation without an object name. *)
Theorem varobj_create_failure_registry (objname e : option string)
    (fr : CORE_ADDR) (blk : option block) (kind : varobj_type) (st : gdb) :
  (objname = None
   \/ forall v, fst (varobj_create G objname e fr blk kind st) <> Ret (Some v)) ->
  reg (snd (varobj_create G objname e fr blk kind st)) = reg st.
Proof.
  intros Hfail.
  destruct objname as [n|];
    [|apply (ses_only_varobj_create_unnamed G e fr blk kind st)].
  destruct Hfail as [Hfail|Hfail]; [discriminate Hfail|].
  destruct (varobj_create G (Some n) e fr blk kind st) as [o st'] eqn:Ec.
  cbn [fst snd] in *.
  destruct (varobj_create_named_cases _ _ _ _ _ _ _ _ Ec) as [[v Hv]|Hr];
    [|exact Hr].
  now elim (Hfail v).
Qed.

End CreateMore.

(** ** More on varobj_update *)

Lemma walk_extends_refl S w : walk_extends S w w.
Proof.
  exists []. rewrite app_nil_r. cbn.
  split; [reflexivity|]. split; [lia|constructor].
Qed.

Lemma walk_extends_trans S w1 w2 w3 :
  walk_extends S w1 w2 -> walk_extends S w2 w3 -> walk_extends S w1 w3.
Proof.
  intros (t1 & H1 & C1 & F1) (t2 & H2 & C2 & F2).
  exists (t1 ++ t2)%list. rewrite H2, H1, app_assoc. split; [reflexivity|].
  split; [rewrite length_app; lia|]. apply Forall_app. now split.
Qed.

Lemma walk_extends_incl S S' w w' :
  incl S S' -> walk_extends S w w' -> walk_extends S' w w'.
Proof.
  intros Hi (t & H & C & F). exists t. repeat split; auto.
  eapply Forall_impl; [|exact F]. intros e He. now apply Hi.
Qed.

Lemma no_new_names_refl st : no_new_names st st.
Proof. intros n H; exact H. Qed.

Lemma no_new_names_trans st1 st2 st3 :
  no_new_names st1 st2 -> no_new_names st2 st3 -> no_new_names st1 st3.
Proof. intros H1 H2 n H. apply H1, H2, H. Qed.


Lemma no_new_names_unlink st st' names :
  (forall i, varobj_table (reg st') i =
             tables_unlink names (varobj_table (reg st)) i) ->
  no_new_names st st'.
Proof.
  intros Ht n Hn Hnone. apply Hn. rewrite Ht.
  now apply tables_unlink_find_none.
Qed.

Lemma tree_addrs_eq v :
  tree_addrs v = addr v :: flat_map tree_addrs (children v).
Proof.
  unfold tree_addrs. rewrite subobjects_eq. cbn [map]. f_equal.
  induction (children v) as [|c l IH]; [reflexivity|].
  cbn [flat_map]. now rewrite map_app, IH.
Qed.

Section UpdateMore.

Variable G : gdb_core.

Lemma value_of_child_inv r gp parent child idx st new v1 tc st' :
  value_of_child G r gp parent child idx st = (Ret (new, v1, tc), st') ->
  st' = st
  /\ ((tc = VAROBJ_TYPE_UNCHANGED /\ v1 = child)
      \/ (tc = VAROBJ_DYNAMIC_TYPE_CHANGED
          /\ exists dyn, v1 = set_dynamic_type child dyn)).
Proof.
  unfold value_of_child. intros H. minv.
  all: repeat match goal with
         | H : lift _ _ = _ |- _ => unfold lift in H; inversion H; subst; clear H
         end.
  all: repeat match goal with
         | H : context [let '(_, _) := ?x in _] |- _ => destruct x eqn:?
         | H : context [if ?x then _ else _] |- _ => destruct x eqn:?
         end.
  all: minv.
  all: repeat match goal with
         | H : (_, _) = (_, _) |- _ => inversion H; subst; clear H
         end.
  all: split; [reflexivity|].
  all: first [ left; split; reflexivity
             | right; split; [reflexivity|eexists; reflexivity] ].
Qed.

(** The walk over a list of children, for a relation between the walk
    states and one between each object and what becomes of it. *)
Lemma walk_list_rel (R : walk * gdb -> walk * gdb -> Prop)
    (RV : varobj -> varobj -> Prop)
    (visit : varobj -> walk -> M (varobj * walk)) (l : list varobj) :
  (forall x, R x x) ->
  (forall x y z, R x y -> R y z -> R x z) ->
  Forall (fun c => forall w st c' w' st',
            visit c w st = (Ret (c', w'), st') ->
            RV c c' /\ R (w, st) (w', st')) l ->
  forall w st l' w' st',
    walk_list visit l w st = (Ret (l', w'), st') ->
    Forall2 RV l l' /\ R (w, st) (w', st').
Proof.
  intros Hrefl Htrans Hall. induction Hall as [|c l Hc Hl IH];
    intros w st l' w' st' H; cbn [walk_list] in H.
  - inversion H; subst. split; [constructor|apply Hrefl].
  - minv.
    match goal with
    | E : walk_list _ _ _ _ = _ |- _ => destruct (IH _ _ _ _ _ E) as [Hf Hr1]
    end.
    match goal with
    | E : visit _ _ _ = _ |- _ => destruct (Hc _ _ _ _ _ E) as [Hv Hr2]
    end.
    split; [now constructor|]. eapply Htrans; eassumption.
Qed.

Lemma walked_refl S x : walked S x x.
Proof. split; [apply walk_extends_refl|apply no_new_names_refl]. Qed.

Lemma walked_trans S x y z : walked S x y -> walked S y z -> walked S x z.
Proof.
  intros [H1 H2] [H3 H4].
  split; [eapply walk_extends_trans|eapply no_new_names_trans]; eassumption.
Qed.

Lemma flat_map_tree_addrs_incl (l l' : list varobj) :
  Forall2 same_objects l l' ->
  incl (flat_map tree_addrs l') (flat_map tree_addrs l).
Proof.
  induction 1 as [|c c' l l' [_ Hc] _ IH]; cbn [flat_map].
  - apply incl_refl.
  - apply incl_app; [now apply incl_appl|now apply incl_appr].
Qed.

Lemma update_walk_objects r cis (v : varobj) :
  forall gp parent w st v' w' st',
    update_walk G r cis gp parent v w st = (Ret (v', w'), st') ->
    same_objects v v' /\ walked (tree_addrs v) (w, st) (w', st').
Proof.
  induction v as [v IHv] using varobj_tree_ind.
  intros gp parent w st v' w' st' H.
  rewrite update_walk_eq in H.
  apply bind_ret_inv in H. destruct H as ([[new v1] tc] & s & E & H).
  apply value_of_child_inv in E. destruct E as [-> Hv1].
  assert (Ha1 : addr v1 = addr v).
  { destruct Hv1 as [[_ ->]|[_ [dyn ->]]]; [reflexivity|].
    destruct v; reflexivity. }
  destruct (if negb (type_unchanged tc) then (true, w_error2 w)
            else value_changed_test G cis v1 new (w_error2 w))
    as [changed_p error2] eqn:Etest.
  cbv zeta in H.
  set (w1 := if changed_p
             then {| w_result := varobj_add_to_changelist (w_result w) v1 tc;
                     w_changed := w_changed w + 1; w_error2 := error2 |}
             else {| w_result := w_result w; w_changed := w_changed w;
                     w_error2 := error2 |}) in *.
  set (v4 := set_value (set_error (if changed_p then set_updated v1 false
                                   else v1) error2) new) in *.
  assert (Ha4 : addr v4 = addr v).
  { unfold v4. destruct changed_p; destruct v1; cbn in *; exact Ha1. }
  assert (Hw1 : walk_extends (tree_addrs v) w w1).
  { unfold w1. destruct changed_p.
    - exists [{| cl_var := v1; cl_type_changed := tc |}]. cbn.
      split; [reflexivity|]. split; [lia|]. constructor; [|constructor].
      cbn. rewrite tree_addrs_eq, Ha1. now left.
    - exists []. cbn. rewrite app_nil_r.
      split; [reflexivity|]. split; [lia|constructor]. }
  destruct (type_unchanged tc) eqn:Etc.
  - apply bind_ret_inv in H. destruct H as ([kids' w2] & s & E & H).
    inversion H; subst v' w2 s; clear H.
    assert (Hwalk : Forall2 same_objects (children v) kids'
                    /\ walked (flat_map tree_addrs (children v))
                         (w1, st) (w', st')).
    { eapply (walk_list_rel
                (walked (flat_map tree_addrs (children v))) same_objects);
        [apply walked_refl|apply walked_trans| |exact E].
      rewrite Forall_forall in IHv |- *. intros c Hc w0 st0 c' w0' st0' Hvis.
      destruct (IHv c Hc _ _ _ _ _ _ _ Hvis) as [Hso [Hwe Hnn]].
      split; [exact Hso|]. split; [|exact Hnn].
      eapply walk_extends_incl; [|exact Hwe].
      intros a Ha. apply in_flat_map. exists c. now split. }
    destruct Hwalk as [Hkids [Hwe Hnn]]. cbn [fst snd] in *.
    split.
    + split.
      * destruct v4; exact Ha4.
      * rewrite (tree_addrs_eq (set_children v4 kids')), (tree_addrs_eq v).
        replace (addr (set_children v4 kids')) with (addr v)
          by (destruct v4; cbn in *; now rewrite Ha4).
        replace (children (set_children v4 kids')) with kids'
          by (destruct v4; reflexivity).
        intros a [<-|Ha]; [now left|right].
        now apply (flat_map_tree_addrs_incl _ _ Hkids).
    + split; [|exact Hnn]. cbn [fst].
      eapply walk_extends_trans; [exact Hw1|].
      eapply walk_extends_incl; [|exact Hwe].
      rewrite (tree_addrs_eq v). now apply incl_tl.
  - apply bind_ret_inv in H. destruct H as ([[cnt names] survivor] & s & E & H).
    inversion H; subst v' w' s; clear H.
    pose proof (varobj_delete_survivor _ _ _ _ _ _ _ _ E) as ->.
    pose proof (varobj_delete_table _ _ _ _ _ _ _ E) as [_ Ht].
    split.
    + split.
      * destruct v4; exact Ha4.
      * rewrite (tree_addrs_eq (set_children v4 [])), (tree_addrs_eq v).
        replace (addr (set_children v4 [])) with (addr v)
          by (destruct v4; cbn in *; now rewrite Ha4).
        replace (children (set_children v4 [])) with (@nil varobj)
          by (destruct v4; reflexivity).
        intros a [<-|[]]. now left.
    + split; [exact Hw1|]. cbn [snd].
      eapply no_new_names_unlink. exact Ht.
Qed.

Lemma varobj_update_inv varp error2 st res varp' cl st' :
  varobj_update G varp false error2 st = (Ret (res, varp', Some cl), st') ->
  exists new varp1 tc st1 kids w st2,
    value_of_root G varp VAROBJ_TYPE_CHANGED st = (Ret (Some new, varp1, tc), st1)
    /\ update_children G (set_in_scope (rv_root varp1) true)
         (negb (in_scope (rv_root varp1)))
         (set_value (fst (update_root_step G varp1 new tc error2)) (Some new))
         (children (fst (update_root_step G varp1 new tc error2)))
         (snd (update_root_step G varp1 new tc error2)) st1
       = (Ret (kids, w), st2)
    /\ reg st' = reg st2
    /\ res = (if negb (type_unchanged tc) then -2 else w_changed w)
    /\ cl = w_result w
    /\ varp' =
       {| rv_root := set_in_scope (rv_root varp1) true;
          rv_var := set_children
                      (set_value (fst (update_root_step G varp1 new tc error2))
                         (Some new)) kids |}.
Proof.
  unfold varobj_update. cbn [negb]. intros H.
  destruct (negb (is_root_p (rv_root varp) (rv_var varp)));
    [inversion H|].
  apply bind_ret_inv in H. destruct H as (ss & s0 & E0 & H).
  inversion E0; subst ss s0; clear E0.
  apply bind_ret_inv in H. destruct H as ([[new varp1] tc] & st1 & Ev & H).
  destruct new as [new|]; [|inversion H].
  exists new, varp1, tc, st1.
  cbv zeta in H.
  assert (Hstep :
    (if negb (type_unchanged tc)
     then (set_error (rv_var varp1) 0,
           {| w_result := varobj_add_to_changelist varobj_changelist_init
                            (set_error (rv_var varp1) 0) tc;
              w_changed := 1; w_error2 := error2 |})
     else
       let '(changed_p, error2') :=
         value_changed_test G (negb (in_scope (rv_root varp1)))
           (set_error (rv_var varp1) 0) (Some new) error2 in
       if changed_p
       then (set_error (set_updated (set_error (rv_var varp1) 0) false) error2',
             {| w_result := varobj_add_to_changelist varobj_changelist_init
                              (set_error (rv_var varp1) 0) tc;
                w_changed := 1; w_error2 := error2' |})
       else (set_error (rv_var varp1) 0,
             {| w_result := varobj_changelist_init; w_changed := 0;
                w_error2 := error2' |}))
    = update_root_step G varp1 new tc error2) by reflexivity.
  rewrite Hstep in H.
  destruct (update_root_step G varp1 new tc error2) as [var1 w0].
  cbn [fst snd].
  apply bind_ret_inv in H. destruct H as ([kids w] & st2 & Ew & H).
  exists kids, w, st2.
  replace (children var1) with (children (set_value var1 (Some new)))
    by (destruct var1; reflexivity).
  split; [exact Ev|]. split; [exact Ew|].
  apply bind_ret_inv in H. destruct H as ([] & st3 & Ef & H).
  inversion H; subst; clear H.
  assert (Hr : reg st' = reg st2).
  { destruct (frame_find_by_id G
                (get_frame_id (deprecated_selected_frame (ses st))));
      inversion Ef; subst; reflexivity. }
  repeat split; auto.
Qed.



Lemma update_children_nil r cis root_ w st l' w' st' :
  update_children G r cis root_ [] w st = (Ret (l', w'), st') ->
  l' = [] /\ w' = w /\ st' = st.
Proof.
  unfold update_children. cbn. intros H. inversion H; subst. auto.
Qed.

Lemma update_children_objects r cis root_ l w st l' w' st' :
  update_children G r cis root_ l w st = (Ret (l', w'), st') ->
  Forall2 same_objects l l'
  /\ walked (flat_map tree_addrs l) (w, st) (w', st').
Proof.
  unfold update_children. intros H.
  eapply (walk_list_rel (walked (flat_map tree_addrs l)) same_objects);
    [apply walked_refl|apply walked_trans| |exact H].
  rewrite Forall_forall. intros c Hc w0 st0 c' w0' st0' Hvis.
  destruct (update_walk_objects _ _ _ _ _ _ _ _ _ _ Hvis) as [Hso [Hwe Hnn]].
  split; [exact Hso|]. split; [|exact Hnn].
  eapply walk_extends_incl; [|exact Hwe].
  intros a Ha. apply in_flat_map. exists c. now split.
Qed.

(** X21.  The number that varobj_update returns is the number of elements
    of the change list it stores, except when the type of the root has
    changed: then the result is -2 and the list has exactly one element. *)
Theorem varobj_update_count (varp : root_var) (error2 : Z) (st : gdb)
    (res : Z) (varp' : root_var) (cl : varobj_changelist) (st' : gdb) :
  varobj_update G varp false error2 st = (Ret (res, varp', Some cl), st') ->
  (res = -2 /\ List.length cl = 1%nat)
  \/ (res <> -2 /\ res = Z.of_nat (List.length cl)).
Proof.
  intros H. apply varobj_update_inv in H.
  destruct H as (new & varp1 & tc & st1 & kids & w & st2
                 & Ev & Ew & _ & -> & -> & _).
  destruct (type_unchanged tc) eqn:Etc; cbn [negb].
  - right.
    apply update_children_objects in Ew.
    destruct Ew as [_ [(tail & Hres & Hcnt & _) _]]. cbn [fst] in *.
    rewrite Hres, Hcnt, length_app.
    unfold update_root_step. cbv zeta. rewrite Etc. cbn [negb].
    destruct (value_changed_test G (negb (in_scope (rv_root varp1)))
                (set_error (rv_var varp1) 0) (Some new) error2) as [[] e2];
      cbn [snd w_result w_changed varobj_add_to_changelist
             varobj_changelist_init List.length app]; lia.
  - left. split; [reflexivity|].
    destruct (value_of_root_cases G _ _ _ _ _ _ _ Ev) as [[-> _]|[_ Hk]];
      [discriminate Etc|].
    revert Ew. unfold update_root_step. cbv zeta. rewrite Etc.
    cbn [negb fst snd].
    replace (children (set_error (rv_var varp1) 0)) with (@nil varobj)
      by (rewrite <- Hk; destruct (rv_var varp1); reflexivity).
    intros Ew. apply update_children_nil in Ew. destruct Ew as (_ & -> & _).
    reflexivity.
Qed.




End UpdateMore.

(** ** Creating and listing children *)

Lemma lookups_kept_refl st : lookups_kept st st.
Proof. intros m _. reflexivity. Qed.

Lemma lookups_kept_trans st1 st2 st3 :
  lookups_kept st1 st2 -> lookups_kept st2 st3 -> lookups_kept st1 st3.
Proof.
  intros H1 H2 m Hm. rewrite H2, H1; [reflexivity|exact Hm|].
  unfold registered. rewrite H1 by exact Hm. exact Hm.
Qed.

Lemma lookups_kept_install r var st k st' :
  install_variable r var st = (Ret k, st') -> lookups_kept st st'.
Proof.
  intros H m Hm.
  pose proof (install_variable_inv _ _ _ _ _ H) as (n & Hn & Hnone & _).
  eapply install_variable_find_other; [exact H|exact Hn|].
  intros ->. now apply Hm.
Qed.

Lemma same_session_refl s : same_session s s.
Proof. repeat split. Qed.

Lemma same_session_trans s1 s2 s3 :
  same_session s1 s2 -> same_session s2 s3 -> same_session s1 s3.
Proof.
  intros (A1 & B1 & C1 & D1 & E1) (A2 & B2 & C2 & D2 & E2).
  repeat split; congruence.
Qed.

Lemma child_exists_index (var : varobj) (i : Z) (c : varobj) :
  child_exists var i = Some c -> index c = i.
Proof.
  unfold child_exists. intros H. apply find_some in H.
  destruct H as [_ H]. now apply Z.eqb_eq in H.
Qed.

Lemma child_exists_save_same (parent child : varobj) :
  child_exists (save_child_in_parent parent child) (index child) = Some child.
Proof.
  unfold child_exists, save_child_in_parent. destruct parent; cbn.
  now rewrite Z.eqb_refl.
Qed.

Lemma child_exists_save_other (parent child : varobj) (i : Z) :
  i <> index child ->
  child_exists (save_child_in_parent parent child) i = child_exists parent i.
Proof.
  intros H. assert (E : (index child =? i) = false) by (apply Z.eqb_neq; lia).
  unfold child_exists, save_child_in_parent. destruct parent; cbn.
  now rewrite E.
Qed.

Section ChildrenMore.

Variable G : gdb_core.
Variable lookup_struct_elt_type : type_ptr -> string -> option type_ptr.

(** What create_child has done when it returns. *)
Lemma create_child_inv r gp parent i name_ st parent' child st' :
  create_child G lookup_struct_elt_type r gp parent i name_ st
  = (Ret (parent', child), st') ->
  exists pn n child0 k,
    obj_name parent = Some pn
    /\ name_ = Some n
    /\ parent' = save_child_in_parent parent child
    /\ name child = Some n
    /\ obj_name child = Some (pn ++ "." ++ n)%string
    /\ index child = i
    /\ children child = []
    /\ addr child = next_addr (ses st)
    /\ fake_child child =
       match variable_language r with
       | vlang_cplus =>
           starts_with_p n
           && (String.eqb "private" n || String.eqb "public" n
               || String.eqb "protected" n)
       | _ => false
       end
    /\ error child =
       (if (negb (fake_child child)
            && match value_ child with None => true | Some _ => false end)
           || negb (error parent =? 0)
        then 1 else 0)
    /\ addr child0 = addr child
    /\ obj_name child0 = obj_name child
    /\ install_variable r child0
         (set_ses st (set_next_addr (ses st) (next_addr (ses st) + 1)))
       = (Ret k, st').
Proof.
  unfold create_child, new_variable. intros H.
  apply bind_ret_inv in H. destruct H as (c0 & s0 & E0 & H).
  cbn in E0. inversion E0; subst c0 s0; clear E0.
  destruct (obj_name parent) as [pn|] eqn:Epn; [|inversion H].
  destruct name_ as [n|]; [|inversion H].
  cbv zeta in H.
  apply bind_ret_inv in H. destruct H as (k & s1 & Ei & H).
  apply bind_ret_inv in H. destruct H as (ty & s2 & Et & H).
  unfold lift in Et. inversion Et as [[Ety Es]]; subst s2; clear Et.
  apply bind_ret_inv in H. destruct H as ([[val c1] tc] & s3 & Ev & H).
  apply value_of_child_inv in Ev. destruct Ev as [-> Hc1].
  inversion H; subst; clear H.
  match type of Ei with
  | install_variable _ ?c _ = _ => exists pn, n, c, k
  end.
  remember (match variable_language r with
            | vlang_cplus =>
                starts_with_p n
                && (String.eqb "private" n || String.eqb "public" n
                    || String.eqb "protected" n)
            | _ => false
            end) as fk eqn:Hfk.
  clear Hfk Ety.
  destruct Hc1 as [[_ ->]|[_ [dyn ->]]];
    destruct fk, val, (error parent =? 0);
    repeat (split; [reflexivity|]); exact Ei.
Qed.

Lemma create_child_state r gp parent i name_ st parent' child st' :
  create_child G lookup_struct_elt_type r gp parent i name_ st
  = (Ret (parent', child), st') ->
  lookups_kept st st'
  /\ same_session (ses st) (ses st')
  /\ (registry_ok (reg st) -> registry_ok (reg st'))
  /\ created_child parent i child st'.
Proof.
  intros H. apply create_child_inv in H.
  destruct H as (pn & n & child0 & k & Hpn & _ & _ & Hn & Hon & Hi & Hk
                 & _ & _ & _ & Ha0 & Hon0 & Hinst).
  pose proof (install_variable_inv _ _ _ _ _ Hinst)
    as (n' & Hn' & _ & _ & Hses & _).
  split; [|split; [|split]].
  - intros m Hm.
    rewrite (lookups_kept_install _ _ _ _ _ Hinst m); [reflexivity|exact Hm].
  - rewrite Hses. cbn. repeat split.
  - intros Hok.
    pose proof (registry_ok_install r child0
                  (set_ses st (set_next_addr (ses st) (next_addr (ses st) + 1))))
      as Hr.
    rewrite Hinst in Hr. cbn [snd] in Hr. apply Hr. exact Hok.
  - exists pn, n. repeat split; auto.
    rewrite Hon0, Hon in Hn'. inversion Hn'; subst n'.
    pose proof (install_variable_lookup _ _ _ _ _ _ (eq_trans Hon0 Hon) Hinst)
      as Hl.
    unfold varobj_get_handle, bind, get_reg in Hl.
    destruct (chain_find (pn ++ "." ++ n)%string
                (varobj_table (reg st') (varobj_hash (pn ++ "." ++ n)%string)))
      as [cv|] eqn:Ef; [|discriminate Hl].
    inversion Hl as [Hv].
    unfold chain_find in Ef. apply find_some in Ef. destruct Ef as [_ Ef].
    apply String.eqb_eq in Ef. destruct cv; cbn in *. subst.
    now rewrite Ha0.
Qed.

Lemma created_child_kept parent i c st st' :
  created_child parent i c st -> lookups_kept st st' ->
  created_child parent i c st'.
Proof.
  intros (pn & n & H1 & H2 & H3 & H4 & H5 & H6) Hk.
  exists pn, n. repeat split; auto.
  rewrite Hk; [exact H6|]. unfold registered. rewrite H6. discriminate.
Qed.

(** The loop of varobj_list_children. *)
Lemma list_children_loop_post r parent (n : nat) :
  forall i var st var' kids st',
    list_children_loop G lookup_struct_elt_type r parent n i var st
    = (Ret (var', kids), st') ->
    List.length kids = n
    /\ (exists l, var' = set_children var l)
    /\ (forall j c, nth_error kids j = Some c ->
                    child_exists var' (i + Z.of_nat j) = Some c)
    /\ (forall j c, child_exists var j = Some c ->
                    child_exists var' j = Some c)
    /\ (forall j c, nth_error kids j = Some c ->
                    child_exists var (i + Z.of_nat j) = None ->
                    created_child var (i + Z.of_nat j) c st')
    /\ lookups_kept st st'
    /\ same_session (ses st) (ses st')
    /\ (registry_ok (reg st) -> registry_ok (reg st')).
Proof.
  induction n as [|n IH]; intros i var st var' kids st' H;
    cbn [list_children_loop] in H.
  - inversion H; subst; clear H.
    split; [reflexivity|]. split; [exists (children var'); now destruct var'|].
    split; [intros [|j] c Hc; discriminate Hc|].
    split; [auto|].
    split; [intros [|j] c Hc; discriminate Hc|].
    split; [apply lookups_kept_refl|].
    split; [apply same_session_refl|auto].
  - apply bind_ret_inv in H. destruct H as ([var1 child] & st1 & Estep & H).
    apply bind_ret_inv in H. destruct H as ([var2 rest] & st2 & Erest & H).
    inversion H; subst var2 kids st2; clear H.
    destruct (IH _ _ _ _ _ _ Erest)
      as (Hlen & [l Hl] & Hnth & Hkeep & Hnew & Hlk & Hss & Hok).
    assert (Hstep :
      child_exists var1 i = Some child
      /\ (exists l1, var1 = set_children var l1)
      /\ (forall j c, child_exists var j = Some c ->
                      child_exists var1 j = Some c)
      /\ (child_exists var i = None -> created_child var i child st1)
      /\ (forall j, j <> i -> child_exists var1 j = child_exists var j)
      /\ lookups_kept st st1
      /\ same_session (ses st) (ses st1)
      /\ (registry_ok (reg st) -> registry_ok (reg st1))).
    { destruct (child_exists var i) as [c0|] eqn:Eex.
      - inversion Estep; subst var1 child st1; clear Estep.
        split; [exact Eex|].
        split; [exists (children var); now destruct var|].
        split; [auto|]. split; [discriminate|]. split; [auto|].
        split; [apply lookups_kept_refl|].
        split; [apply same_session_refl|auto].
      - destruct (make_name_of_child G r parent var i) as [name_|];
          [|discriminate Estep].
        pose proof (create_child_inv _ _ _ _ _ _ _ _ _ Estep)
          as (pn & nm & child0 & k & _ & _ & Hp' & _ & _ & Hidx & _).
        pose proof (create_child_state _ _ _ _ _ _ _ _ _ Estep)
          as (Hlk1 & Hss1 & Hok1 & Hcr).
        subst var1. rewrite <- Hidx.
        split; [apply child_exists_save_same|].
        split; [eexists; reflexivity|].
        split.
        { intros j c Hc. rewrite child_exists_save_other; [exact Hc|].
          intros ->. rewrite Hidx, Eex in Hc. discriminate Hc. }
        split; [intros _; rewrite Hidx; exact Hcr|].
        split; [intros j Hj; now apply child_exists_save_other|].
        auto. }
    destruct Hstep as (Hex1 & [l1 Hl1] & Hkeep1 & Hnew1 & Hother1 & Hlk1
                       & Hss1 & Hok1).
    split; [cbn; now rewrite Hlen|].
    split; [exists l; rewrite Hl, Hl1; now destruct var|].
    split.
    { intros [|j] c Hc; cbn [nth_error] in Hc.
      - inversion Hc; subst c. rewrite Z.add_0_r. now apply Hkeep.
      - replace (i + Z.of_nat (S j)) with (i + 1 + Z.of_nat j) by lia.
        now apply Hnth. }
    split; [intros j c Hc; apply Hkeep, Hkeep1, Hc|].
    split.
    { intros [|j] c Hc Hnone; cbn [nth_error] in Hc.
      - inversion Hc; subst c. rewrite Z.add_0_r in *.
        eapply created_child_kept; [now apply Hnew1|exact Hlk].
      - replace (i + Z.of_nat (S j)) with (i + 1 + Z.of_nat j) in * by lia.
        assert (Hcr : created_child var1 (i + 1 + Z.of_nat j) c st').
        { apply Hnew; [exact Hc|].
          rewrite Hother1 by lia. exact Hnone. }
        destruct Hcr as (pn & nm & H1 & H2).
        exists pn, nm. split; [|exact H2].
        rewrite Hl1 in H1. now destruct var. }
    split; [eapply lookups_kept_trans; eassumption|].
    split; [eapply same_session_trans; eassumption|auto].
Qed.

Lemma list_children_loop_again r parent (n : nat) :
  forall i var kids st,
    List.length kids = n ->
    (forall j c, nth_error kids j = Some c ->
                 child_exists var (i + Z.of_nat j) = Some c) ->
    list_children_loop G lookup_struct_elt_type r parent n i var st
    = (Ret (var, kids), st).
Proof.
  induction n as [|n IH]; intros i var kids st Hlen Hnth;
    cbn [list_children_loop].
  - destruct kids; [reflexivity|discriminate Hlen].
  - destruct kids as [|c rest]; [discriminate Hlen|].
    pose proof (Hnth 0%nat c eq_refl) as H0. rewrite Z.add_0_r in H0.
    rewrite H0.
    assert (Hrest : list_children_loop G lookup_struct_elt_type r parent n
                      (i + 1) var st = (Ret (var, rest), st)).
    { apply IH; [now inversion Hlen|].
      intros j c' Hc'. replace (i + 1 + Z.of_nat j) with (i + Z.of_nat (S j))
        by lia. now apply Hnth. }
    rewrite (bind_eq_ret (ret (var, c)) _ st (var, c) st eq_refl).
    cbv beta iota.
    rewrite (bind_eq_ret _ _ _ _ _ Hrest). reflexivity.
Qed.

(** What varobj_list_children has done when it returns a list. *)
Lemma varobj_list_children_inv r parent var st n var' kids st' :
  varobj_list_children G lookup_struct_elt_type r parent var false st
  = (Ret (n, var', Some kids), st') ->
  exists var0,
    (var0 = var \/ var0 = set_num_children var n)
    /\ num_children var0 = n
    /\ 0 <= n
    /\ list_children_loop G lookup_struct_elt_type r parent (Z.to_nat n) 0
         var0 st
       = (Ret (var', kids), st')
    /\ num_children var' = n.
Proof.
  unfold varobj_list_children. intros H.
  apply bind_ret_inv in H. destruct H as (var0 & s0 & E0 & H).
  assert (Hv0 : s0 = st
                /\ (var0 = var
                    \/ var0 = set_num_children var (num_children var0))).
  { destruct (num_children var =? -1).
    - destruct (number_of_children G r parent var) as [k|];
        [|discriminate E0].
      inversion E0; subst. split; [reflexivity|]. right.
      now destruct var.
    - inversion E0; subst. auto. }
  destruct Hv0 as [-> Hv0].
  destruct (num_children var0 + 1 <=? 0) eqn:Eneg; [discriminate H|].
  apply Z.leb_gt in Eneg.
  apply bind_ret_inv in H. destruct H as ([var1 kids1] & s1 & El & H).
  inversion H; subst; clear H.
  pose proof (list_children_loop_post _ _ _ _ _ _ _ _ _ El)
    as (_ & [l Hl] & _).
  assert (Hnum : num_children var' = num_children var0).
  { rewrite Hl. now destruct var0. }
  rewrite Hnum.
  exists var0. split; [exact Hv0|]. split; [reflexivity|].
  split; [lia|]. split; [exact El|reflexivity].
Qed.

(** X25.  varobj_list_children is stable: called again on the object and
    in the state that a first call leaves behind, it returns the same
    number and the same children, creates nothing and leaves the object
    and the state as they are. *)
Theorem varobj_list_children_stable (r : varobj_root) (parent : option varobj)
    (var : varobj) (st : gdb) (n : Z) (var' : varobj) (kids : list varobj)
    (st' : gdb) :
  varobj_list_children G lookup_struct_elt_type r parent var false st
  = (Ret (n, var', Some kids), st') ->
  varobj_list_children G lookup_struct_elt_type r parent var' false st'
  = (Ret (n, var', Some kids), st').
Proof.
  intros H. apply varobj_list_children_inv in H.
  destruct H as (var0 & _ & Hn0 & Hpos & Hloop & Hn').
  pose proof (list_children_loop_post _ _ _ _ _ _ _ _ _ Hloop)
    as (Hlen & _ & Hnth & _).
  unfold varobj_list_children.
  assert (E1 : (num_children var' =? -1) = false)
    by (apply Z.eqb_neq; lia).
  rewrite E1. unfold bind at 1. cbn [ret].
  assert (E2 : (num_children var' + 1 <=? 0) = false)
    by (apply Z.leb_gt; lia).
  rewrite E2. unfold bind at 1.
  rewrite Hn'.
  rewrite (list_children_loop_again r parent (Z.to_nat n) 0 var' kids st'
             Hlen Hnth).
  now rewrite Hn'.
Qed.

(** X26.  The list that varobj_list_children returns holds one child for
    each index below the number of children, in index order: its length is
    the number returned, which is also the number of children recorded in
    the object, and its element [j] is the child that the object holds
    under the index [j].  A child that the object held before the call is
    returned as it is, not created again. *)
Theorem varobj_list_children_by_index (r : varobj_root)
    (parent : option varobj) (var : varobj) (st : gdb) (n : Z) (var' : varobj)
    (kids : list varobj) (st' : gdb) :
  varobj_list_children G lookup_struct_elt_type r parent var false st
  = (Ret (n, var', Some kids), st') ->
  Z.of_nat (List.length kids) = n
  /\ num_children var' = n
  /\ addr var' = addr var
  /\ (forall j c, nth_error kids j = Some c ->
                  index c = Z.of_nat j
                  /\ child_exists var' (Z.of_nat j) = Some c)
  /\ (forall j c, child_exists var j = Some c ->
                  child_exists var' j = Some c).
Proof.
  intros H. apply varobj_list_children_inv in H.
  destruct H as (var0 & Hv0 & Hn0 & Hpos & Hloop & Hn').
  pose proof (list_children_loop_post _ _ _ _ _ _ _ _ _ Hloop)
    as (Hlen & [l Hl] & Hnth & Hkeep & _).
  split; [rewrite Hlen; lia|]. split; [exact Hn'|].
  split; [rewrite Hl; destruct Hv0 as [->| ->]; now destruct var|].
  split.
  - intros j c Hc. specialize (Hnth j c Hc). rewrite Z.add_0_l in Hnth.
    split; [now apply child_exists_index in Hnth|exact Hnth].
  - intros j c Hc. apply Hkeep.
    destruct Hv0 as [->| ->]; [exact Hc|]. now destruct var.
Qed.

(** X27.  Every child that varobj_list_children creates is installed: a
    returned child whose index the object did not hold before carries the
    name made for that index, has the object name of the parent followed
    by a period and that name, has no children, and is found under its
    object name afterwards.  Every name found before the call still
    designates the same object, and hash chains that hold each name once
    still do. *)
Theorem varobj_list_children_installs (r : varobj_root)
    (parent : option varobj) (var : varobj) (st : gdb) (n : Z) (var' : varobj)
    (kids : list varobj) (st' : gdb) :
  varobj_list_children G lookup_struct_elt_type r parent var false st
  = (Ret (n, var', Some kids), st') ->
  (forall j c, nth_error kids j = Some c ->
               child_exists var (Z.of_nat j) = None ->
               exists pn nm,
                 obj_name var = Some pn
                 /\ name c = Some nm
                 /\ obj_name c = Some (pn ++ "." ++ nm)%string
                 /\ children c = []
                 /\ fst (varobj_get_handle (pn ++ "." ++ nm)%string st')
                    = Ret (addr c))
  /\ (forall m, registered (reg st) m ->
                fst (varobj_get_handle m st') = fst (varobj_get_handle m st))
  /\ (registry_ok (reg st) -> registry_ok (reg st')).
Proof.
  intros H. apply varobj_list_children_inv in H.
  destruct H as (var0 & Hv0 & Hn0 & Hpos & Hloop & Hn').
  pose proof (list_children_loop_post _ _ _ _ _ _ _ _ _ Hloop)
    as (_ & _ & _ & _ & Hnew & Hlk & _ & Hok).
  split; [|split; [|exact Hok]].
  - intros j c Hc Hnone.
    assert (Hnone0 : child_exists var0 (0 + Z.of_nat j) = None).
    { rewrite Z.add_0_l. destruct Hv0 as [->| ->]; [exact Hnone|].
      now destruct var. }
    destruct (Hnew j c Hc Hnone0) as (pn & nm & H1 & H2 & H3 & _ & H5 & H6).
    exists pn, nm.
    split; [destruct Hv0 as [->| ->]; [exact H1|now destruct var]|].
    split; [exact H2|]. split; [exact H3|]. split; [exact H5|].
    unfold varobj_get_handle, bind, get_reg. now rewrite H6.
  - intros m Hm. unfold varobj_get_handle, bind, get_reg.
    rewrite (Hlk m Hm).
    destruct (chain_find m (varobj_table (reg st) (varobj_hash m)));
      reflexivity.
Qed.

(** X28.  Listing children reads values but never parses or evaluates an
    expression, selects no frame and changes no mode: the selected frame,
    the scheduler-locking mode, input_radix, innermost_block and the
    record of calls to the parser and the evaluator are afterwards what
    they were before. *)
Theorem varobj_list_children_session (r : varobj_root)
    (parent : option varobj) (var : varobj) (st : gdb) (n : Z) (var' : varobj)
    (kids : list varobj) (st' : gdb) :
  varobj_list_children G lookup_struct_elt_type r parent var false st
  = (Ret (n, var', Some kids), st') ->
  deprecated_selected_frame (ses st') = deprecated_selected_frame (ses st)
  /\ scheduler_mode (ses st') = scheduler_mode (ses st)
  /\ input_radix (ses st') = input_radix (ses st)
  /\ innermost_block (ses st') = innermost_block (ses st)
  /\ trace (ses st') = trace (ses st).
Proof.
  intros H. apply varobj_list_children_inv in H.
  destruct H as (var0 & _ & _ & _ & Hloop & _).
  pose proof (list_children_loop_post _ _ _ _ _ _ _ _ _ Hloop)
    as (_ & _ & _ & _ & _ & _ & Hss & _).
  exact Hss.
Qed.

(** X29.  create_child marks a child as a fake child exactly when the
    language of the root is C++ and the name is "private", "public" or
    "protected"; and it sets the error flag of the child exactly when the
    parent has its error flag set or the child is not fake and has no
    value. *)
Theorem create_child_flags (r : varobj_root) (gp : option varobj)
    (parent : varobj) (i : Z) (name_ : option string) (st : gdb)
    (parent' child : varobj) (st' : gdb) :
  create_child G lookup_struct_elt_type r gp parent i name_ st
  = (Ret (parent', child), st') ->
  (fake_child child = true <->
   variable_language r = vlang_cplus
   /\ (name child = Some "private" \/ name child = Some "public"
       \/ name child = Some "protected"))
  /\ (error child = 1 <->
      error parent <> 0 \/ (fake_child child = false /\ value_ child = None))
  /\ (error child = 0 \/ error child = 1).
Proof.
  intros H. apply create_child_inv in H.
  destruct H as (pn & n & child0 & k & _ & _ & _ & Hn & _ & _ & _ & _
                 & Hf & He & _).
  split; [|split].
  - rewrite Hf, Hn. destruct (variable_language r).
    1,2,4: split; [discriminate|intros [E _]; discriminate E].
    split.
    + intros Hb. split; [reflexivity|].
      apply andb_prop in Hb. destruct Hb as [_ Hb].
      apply orb_prop in Hb. destruct Hb as [Hb|Hb];
        [apply orb_prop in Hb; destruct Hb as [Hb|Hb]|];
        apply String.eqb_eq in Hb; subst n; auto.
    + intros [_ [E|[E|E]]]; inversion E; subst n; reflexivity.
  - rewrite He.
    destruct (error parent =? 0) eqn:Ep;
      [apply Z.eqb_eq in Ep|apply Z.eqb_neq in Ep];
      destruct (fake_child child); destruct (value_ child); cbn;
      split; intros Hx; try reflexivity; try discriminate Hx; auto;
      try (destruct Hx as [Hx|[Hx1 Hx2]];
           [now elim Hx|discriminate]).
  - rewrite He.
    destruct ((negb (fake_child child)
               && match value_ child with None => true | Some _ => false end)
              || negb (error parent =? 0)); auto.
Qed.

End ChildrenMore.

(** ** The properties above on the example cores *)

Lemma java_child_name_no_period_witness :
  java_make_name_of_child Examples.java_core None Examples.java_var 0
  = Some (Some "java-lang-Object")
  /\ ~ In "."%char (list_ascii_of_string "java-lang-Object").
Proof.
  split; [reflexivity|].
  apply (java_child_name_no_period Examples.java_core None Examples.java_var 0
           "java-lang-Object" eq_refl).
Defined.

Lemma editable_is_changeable_witness :
  variable_editable Demo.core Demo.c_root Examples.scalar_var = Some true
  /\ fake_child Examples.scalar_var = false
  /\ varobj_value_is_changeable_p Demo.core Examples.scalar_var = true.
Proof.
  split; [reflexivity|]. split; [reflexivity|].
  apply (editable_is_changeable Demo.core Demo.c_root Examples.scalar_var
           eq_refl (or_introl eq_refl)).
Defined.

Lemma cplus_real_type_index_agrees_witness :
  fake_child Examples.private_bucket = true
  /\ name Examples.private_bucket = Some (section_name v_private_s)
  /\ fst (get_type_deref Demo.core Demo.class_var) = Some 5
  /\ TYPE_CODE Demo.core 5 = TYPE_CODE_STRUCT
  /\ cplus_real_type_index_for_fake_child_index Demo.core 5 v_private_s 0 = 3
  /\ cplus_make_name_of_child Demo.core (Some Demo.class_var)
       Examples.private_bucket 0
     = Some (Some "m").
Proof.
  split; [reflexivity|]. split; [reflexivity|]. split; [reflexivity|].
  split; [reflexivity|]. split; [reflexivity|].
  destruct (cplus_real_type_index_agrees Demo.core Demo.class_var
              Examples.private_bucket 5 v_private_s 0 eq_refl eq_refl eq_refl
              (or_introl eq_refl)) as [_ H].
  - vm_compute. discriminate.
  - lia.
  - rewrite H; [reflexivity|]. vm_compute. discriminate.
Defined.

Lemma cplus_bucket_children_witness :
  fake_child Examples.private_bucket = true
  /\ name Examples.private_bucket = Some (section_name v_private_s)
  /\ fst (get_type_deref Demo.core Demo.class_var) = Some 5
  /\ TYPE_CODE Demo.core 5 = TYPE_CODE_STRUCT
  /\ bucket Demo.core 5 v_private_s = [Demo.mkfield "m" 1 true false]
  /\ cplus_number_of_children Demo.core (Some Demo.class_var)
       Examples.private_bucket = Some 1
  /\ cplus_make_name_of_child Demo.core (Some Demo.class_var)
       Examples.private_bucket 0
     = Some (Some "m").
Proof.
  split; [reflexivity|]. split; [reflexivity|]. split; [reflexivity|].
  split; [reflexivity|]. split; [reflexivity|].
  destruct (cplus_bucket_children Demo.core Demo.class_var
              Examples.private_bucket 5 v_private_s eq_refl eq_refl eq_refl
              (or_introl eq_refl)) as [Hn Hname].
  - vm_compute. discriminate.
  - intros _ f Hf Hp. vm_compute in Hf.
    destruct Hf as [<-|[<-|[]]]; [discriminate Hp|reflexivity].
  - split; [exact Hn|].
    apply (Hname 0 (Demo.mkfield "m" 1 true false)); [lia|reflexivity].
Defined.

Lemma varobj_set_value_restores_witness :
  (exists var',
     fst (varobj_set_value Demo.core Demo.c_root Examples.scalar_var "7"
            Examples.hex_state) = Ret (1, var'))
  /\ scheduler_mode
       (ses (snd (varobj_set_value Demo.core Demo.c_root Examples.scalar_var
                    "7" Examples.hex_state)))
     = scheduler_mode (ses Examples.hex_state)
  /\ input_radix
       (ses (snd (varobj_set_value Demo.core Demo.c_root Examples.scalar_var
                    "7" Examples.hex_state)))
     = 16.
Proof.
  destruct (varobj_set_value Demo.core Demo.c_root Examples.scalar_var "7"
              Examples.hex_state) as [o st'] eqn:E.
  assert (Ho : exists var', o = Ret (1, var')).
  { apply (f_equal fst) in E. cbn [fst] in E. rewrite <- E.
    vm_compute. eexists. reflexivity. }
  destruct Ho as [var' ->]. cbn [fst snd].
  split; [now exists var'|].
  destruct (varobj_set_value_restores Demo.core Demo.c_root
              Examples.scalar_var "7" Examples.hex_state 1 var' st' E)
    as (Hm & _ & _ & _ & Hr).
  split; [exact Hm|]. now rewrite Hr.
Defined.

Lemma varobj_set_value_failure_witness :
  input_radix (ses Examples.hex_state) = 16
  /\ fst (varobj_set_value Examples.no_parse_core Demo.c_root
            Examples.scalar_var "7" Examples.hex_state)
     = Ret (0, Examples.scalar_var)
  /\ input_radix
       (ses (snd (varobj_set_value Examples.no_parse_core Demo.c_root
                    Examples.scalar_var "7" Examples.hex_state)))
     = 10.
Proof.
  split; [reflexivity|].
  destruct (varobj_set_value Examples.no_parse_core Demo.c_root
              Examples.scalar_var "7" Examples.hex_state) as [o st'] eqn:E.
  assert (Ho : o = Ret (0, Examples.scalar_var)).
  { apply (f_equal fst) in E. cbn [fst] in E. rewrite <- E.
    vm_compute. reflexivity. }
  subst o. cbn [fst snd]. split; [reflexivity|].
  apply (varobj_set_value_failure Examples.no_parse_core Demo.c_root
           Examples.scalar_var "7" Examples.hex_state Examples.scalar_var st' E).
Defined.

Lemma varobj_set_value_assigns_witness :
  value_ Examples.scalar_var = Some (Demo.mkvalue 5 1)
  /\ variable_editable Demo.core Demo.c_root Examples.scalar_var = Some true
  /\ error Examples.scalar_var = 0
  /\ exists var',
       fst (varobj_set_value Demo.core Demo.c_root Examples.scalar_var "7"
              Demo.state0) = Ret (1, var')
       /\ value_ var' = Some (Demo.mkvalue 1 1)
       /\ updated var' = true.
Proof.
  split; [reflexivity|]. split; [reflexivity|]. split; [reflexivity|].
  destruct (varobj_set_value Demo.core Demo.c_root Examples.scalar_var "7"
              Demo.state0) as [o st'] eqn:E.
  assert (Ho : exists var', o = Ret (1, var')).
  { apply (f_equal fst) in E. cbn [fst] in E. rewrite <- E.
    vm_compute. eexists. reflexivity. }
  destruct Ho as [var' ->]. exists var'. cbn [fst].
  split; [reflexivity|].
  destruct (varobj_set_value_assigns Demo.core Demo.c_root Examples.scalar_var
              "7" Demo.state0 var' st' (Demo.mkvalue 5 1) E eq_refl eq_refl
              eq_refl)
    as (ex & new & val & Hp & He & Ha & Hv & Hu & _).
  vm_compute in Hp. inversion Hp; subst ex; clear Hp.
  vm_compute in He. inversion He; subst new; clear He.
  vm_compute in Ha. inversion Ha; subst val; clear Ha.
  split; [exact Hv|]. rewrite Hu. reflexivity.
Defined.

Lemma varobj_set_value_then_update_witness :
  variable_editable Demo.core Demo.c_root Examples.scalar_var = Some true
  /\ fake_child Examples.scalar_var = false
  /\ exists var',
       fst (varobj_set_value Demo.core Demo.c_root Examples.scalar_var "7"
              Demo.state0) = Ret (1, var')
       /\ updated var' = true
       /\ value_changed_test Demo.core false var' (value_ var') 0 = (true, 0).
Proof.
  split; [reflexivity|]. split; [reflexivity|].
  destruct (varobj_set_value Demo.core Demo.c_root Examples.scalar_var "7"
              Demo.state0) as [o st'] eqn:E.
  assert (Ho : exists var', o = Ret (1, var') /\ updated var' = true).
  { apply (f_equal fst) in E. cbn [fst] in E. rewrite <- E.
    vm_compute. eexists. split; reflexivity. }
  destruct Ho as [var' [-> Hu]]. exists var'. cbn [fst].
  split; [reflexivity|]. split; [exact Hu|].
  apply (varobj_set_value_then_update Demo.core Demo.c_root
           Examples.scalar_var "7" Demo.state0 1 var' st' E eq_refl
           (or_introl eq_refl) Hu).
Defined.

Lemma varobj_create_then_lookup_witness :
  exists v,
    fst (varobj_create Demo.core (Some "var1") (Some "x") 0 None
           USE_SELECTED_FRAME Demo.state0) = Ret (Some v)
    /\ fst (varobj_get_handle "var1"
              (snd (varobj_create Demo.core (Some "var1") (Some "x") 0 None
                      USE_SELECTED_FRAME Demo.state0)))
       = Ret (addr (rv_var v))
    /\ varobj_list
         (reg (snd (varobj_create Demo.core (Some "var1") (Some "x") 0 None
                      USE_SELECTED_FRAME Demo.state0)))
       = Some (1, [Some (addr (rv_var v))]).
Proof.
  destruct (varobj_create Demo.core (Some "var1") (Some "x") 0 None
              USE_SELECTED_FRAME Demo.state0) as [o st'] eqn:E.
  assert (Ho : exists v, o = Ret (Some v)).
  { apply (f_equal fst) in E. cbn [fst] in E. rewrite <- E.
    vm_compute. eexists. reflexivity. }
  destruct Ho as [v ->]. exists v. cbn [fst snd].
  split; [reflexivity|].
  destruct (varobj_create_then_lookup Demo.core "var1" (Some "x") 0 None
              USE_SELECTED_FRAME Demo.state0 v st' E)
    as (Hl & _ & _ & _ & Hlist).
  split; [exact Hl|]. apply Hlist; [discriminate|reflexivity].
Defined.

Lemma varobj_create_failure_registry_witness :
  fst (varobj_create Demo.core (Some "var1") (Some "x") 0 None NO_FRAME_NEEDED
         Demo.tree_state) = Ret None
  /\ reg (snd (varobj_create Demo.core (Some "var1") (Some "x") 0 None
                 NO_FRAME_NEEDED Demo.tree_state))
     = reg Demo.tree_state.
Proof.
  split; [vm_compute; reflexivity|].
  apply (varobj_create_failure_registry Demo.core (Some "var1") (Some "x") 0
           None NO_FRAME_NEEDED Demo.tree_state).
  right. intros v. vm_compute. discriminate.
Defined.

Lemma varobj_update_count_witness :
  exists varp' e1 e2,
    fst (varobj_update Demo.core Demo.struct_root false 0 Demo.tree_state)
    = Ret (2, varp', Some [e1; e2])
    /\ 2 = Z.of_nat (List.length [e1; e2]).
Proof.
  destruct (varobj_update Demo.core Demo.struct_root false 0 Demo.tree_state)
    as [o st'] eqn:E.
  assert (Ho : exists varp' e1 e2, o = Ret (2, varp', Some [e1; e2])).
  { apply (f_equal fst) in E. cbn [fst] in E. rewrite <- E.
    vm_compute. do 3 eexists. reflexivity. }
  destruct Ho as (varp' & e1 & e2 & ->). exists varp', e1, e2. cbn [fst].
  split; [reflexivity|].
  destruct (varobj_update_count Demo.core Demo.struct_root 0 Demo.tree_state 2
              varp' [e1; e2] st' E) as [[H _]|[_ H]];
    [discriminate H|exact H].
Defined.




Lemma varobj_update_restores_frame_witness :
  deprecated_selected_frame (ses Demo.tree_state) = Some Demo.frame_main
  /\ (exists varp' cl,
        fst (varobj_update Demo.core Demo.struct_root false 0 Demo.tree_state)
        = Ret (2, varp', Some cl))
  /\ deprecated_selected_frame
       (ses (snd (varobj_update Demo.core Demo.struct_root false 0
                    Demo.tree_state)))
     = Some Demo.frame_main.
Proof.
  split; [reflexivity|].
  destruct (varobj_update Demo.core Demo.struct_root false 0 Demo.tree_state)
    as [o st'] eqn:E.
  assert (Ho : exists varp' cl, o = Ret (2, varp', Some cl)).
  { apply (f_equal fst) in E. cbn [fst] in E. rewrite <- E.
    vm_compute. do 2 eexists. reflexivity. }
  destruct Ho as (varp' & cl & ->). cbn [fst snd].
  split; [now exists varp', cl|].
  apply (varobj_update_restores_frame Demo.core Demo.struct_root 0
           Demo.tree_state 2 varp' cl st' Demo.frame_main E).
  reflexivity.
Defined.

Lemma varobj_list_children_stable_witness :
  exists var' c1 c2,
    fst (varobj_list_children Demo.core Examples.struct_elt_type Demo.c_root
           None Examples.struct_var false Examples.struct_state)
    = Ret (2, var', Some [c1; c2])
    /\ fst (varobj_list_children Demo.core Examples.struct_elt_type Demo.c_root
              None var' false
              (snd (varobj_list_children Demo.core Examples.struct_elt_type
                      Demo.c_root None Examples.struct_var false
                      Examples.struct_state)))
       = Ret (2, var', Some [c1; c2]).
Proof.
  destruct (varobj_list_children Demo.core Examples.struct_elt_type Demo.c_root
              None Examples.struct_var false Examples.struct_state)
    as [o st'] eqn:E.
  assert (Ho : exists var' c1 c2, o = Ret (2, var', Some [c1; c2])).
  { apply (f_equal fst) in E. cbn [fst] in E. rewrite <- E.
    vm_compute. do 3 eexists. reflexivity. }
  destruct Ho as (var' & c1 & c2 & ->). exists var', c1, c2. cbn [fst snd].
  split; [reflexivity|].
  now rewrite (varobj_list_children_stable Demo.core Examples.struct_elt_type
                 Demo.c_root None Examples.struct_var Examples.struct_state 2
                 var' [c1; c2] st' E).
Defined.

Lemma varobj_list_children_by_index_witness :
  exists var' c1 c2,
    fst (varobj_list_children Demo.core Examples.struct_elt_type Demo.c_root
           None Examples.struct_var false Examples.struct_state)
    = Ret (2, var', Some [c1; c2])
    /\ num_children var' = 2
    /\ index c1 = 0 /\ index c2 = 1
    /\ child_exists var' 1 = Some c2.
Proof.
  destruct (varobj_list_children Demo.core Examples.struct_elt_type Demo.c_root
              None Examples.struct_var false Examples.struct_state)
    as [o st'] eqn:E.
  assert (Ho : exists var' c1 c2, o = Ret (2, var', Some [c1; c2])).
  { apply (f_equal fst) in E. cbn [fst] in E. rewrite <- E.
    vm_compute. do 3 eexists. reflexivity. }
  destruct Ho as (var' & c1 & c2 & ->). exists var', c1, c2. cbn [fst].
  split; [reflexivity|].
  destruct (varobj_list_children_by_index Demo.core Examples.struct_elt_type
              Demo.c_root None Examples.struct_var Examples.struct_state 2
              var' [c1; c2] st' E) as (_ & Hn & _ & Hnth & _).
  split; [exact Hn|].
  split; [exact (proj1 (Hnth 0%nat c1 eq_refl))|].
  split; [exact (proj1 (Hnth 1%nat c2 eq_refl))|].
  exact (proj2 (Hnth 1%nat c2 eq_refl)).
Defined.

Lemma varobj_list_children_installs_witness :
  exists var' c1 c2,
    fst (varobj_list_children Demo.core Examples.struct_elt_type Demo.c_root
           None Examples.struct_var false Examples.struct_state)
    = Ret (2, var', Some [c1; c2])
    /\ obj_name c2 = Some "var1.b"
    /\ fst (varobj_get_handle "var1.b"
              (snd (varobj_list_children Demo.core Examples.struct_elt_type
                      Demo.c_root None Examples.struct_var false
                      Examples.struct_state)))
       = Ret (addr c2)
    /\ fst (varobj_get_handle "var1"
              (snd (varobj_list_children Demo.core Examples.struct_elt_type
                      Demo.c_root None Examples.struct_var false
                      Examples.struct_state)))
       = Ret 1.
Proof.
  destruct (varobj_list_children Demo.core Examples.struct_elt_type Demo.c_root
              None Examples.struct_var false Examples.struct_state)
    as [o st'] eqn:E.
  assert (Ho : exists var' c1 c2,
             o = Ret (2, var', Some [c1; c2]) /\ name c2 = Some "b").
  { apply (f_equal fst) in E. cbn [fst] in E. rewrite <- E.
    vm_compute. do 3 eexists. split; reflexivity. }
  destruct Ho as (var' & c1 & c2 & -> & Hb). exists var', c1, c2.
  cbn [fst snd]. split; [reflexivity|].
  destruct (varobj_list_children_installs Demo.core Examples.struct_elt_type
              Demo.c_root None Examples.struct_var Examples.struct_state 2
              var' [c1; c2] st' E) as (Hnew & Hold & _).
  destruct (Hnew 1%nat c2 eq_refl eq_refl)
    as (pn & nm & Hpn & Hnm & Hon & _ & Hl).
  inversion Hpn; subst pn. rewrite Hb in Hnm. inversion Hnm; subst nm.
  split; [exact Hon|]. split; [exact Hl|].
  rewrite (Hold "var1"); [reflexivity|].
  unfold registered. vm_compute. discriminate.
Defined.

Lemma varobj_list_children_session_witness :
  (exists var' kids,
     fst (varobj_list_children Demo.core Examples.struct_elt_type Demo.c_root
            None Examples.struct_var false Examples.struct_state)
     = Ret (2, var', Some kids))
  /\ trace
       (ses (snd (varobj_list_children Demo.core Examples.struct_elt_type
                    Demo.c_root None Examples.struct_var false
                    Examples.struct_state)))
     = trace (ses Examples.struct_state).
Proof.
  destruct (varobj_list_children Demo.core Examples.struct_elt_type Demo.c_root
              None Examples.struct_var false Examples.struct_state)
    as [o st'] eqn:E.
  assert (Ho : exists var' kids, o = Ret (2, var', Some kids)).
  { apply (f_equal fst) in E. cbn [fst] in E. rewrite <- E.
    vm_compute. do 2 eexists. reflexivity. }
  destruct Ho as (var' & kids & ->). cbn [fst snd].
  split; [now exists var', kids|].
  apply (varobj_list_children_session Demo.core Examples.struct_elt_type
           Demo.c_root None Examples.struct_var Examples.struct_state 2 var'
           kids st' E).
Defined.

Lemma create_child_flags_witness :
  variable_language Examples.cplus_root = vlang_cplus
  /\ exists parent' child,
       fst (create_child Demo.core Examples.struct_elt_type Examples.cplus_root
              None Demo.class_var 1 (Some "public") Examples.class_state)
       = Ret (parent', child)
       /\ name child = Some "public"
       /\ fake_child child = true
       /\ error child = 0.
Proof.
  split; [reflexivity|].
  destruct (create_child Demo.core Examples.struct_elt_type Examples.cplus_root
              None Demo.class_var 1 (Some "public") Examples.class_state)
    as [o st'] eqn:E.
  assert (Ho : exists parent' child,
             o = Ret (parent', child) /\ name child = Some "public"
             /\ error child = 0).
  { apply (f_equal fst) in E. cbn [fst] in E. rewrite <- E.
    vm_compute. do 2 eexists. repeat split. }
  destruct Ho as (parent' & child & -> & Hn & He). exists parent', child.
  cbn [fst]. split; [reflexivity|]. split; [exact Hn|].
  destruct (create_child_flags Demo.core Examples.struct_elt_type
              Examples.cplus_root None Demo.class_var 1 (Some "public")
              Examples.class_state parent' child st' E) as (Hf & _ & _).
  split; [|exact He].
  apply Hf. split; [reflexivity|]. right; left. exact Hn.
Defined.
